(** * Real-time messaging and presence layer of the doctor-patient portal

    A shallow embedding of the in-memory store ([MemStorage]), of the
    WebSocket hub of [server/routes.ts] (connection registry, presence
    broadcast, chat-message router), of the REST routes (messages,
    conversations, connections, accounts, medical files, health metrics,
    patient information) and of the client's reconnection back-off and
    message cache, followed by the properties of section 8 of the
    specification and by further properties of the same code.

    Conventions.
    - JavaScript [Map] and [Set] iterate in insertion order; they are
      modelled by ordered association lists ([JsMap]) and duplicate-free
      lists ([JsSet]).
    - Identifiers and timestamps are JavaScript numbers that hold integers;
      they are modelled by [Z].  [new Date()] is an input of every operation
      that reads the clock.
    - Values that arrive as parsed JSON and are never validated are kept as
      [JVal]; TypeScript's annotations on them are erased at run time.
    - The maps of [MemStorage] are independent of each other: the users,
      messages and conversations that the messaging code reads form
      [MemStorage]; the user map with all its columns ([Accounts]), the
      medical files ([Files]), the health metrics ([Metrics]) and the
      patient information ([Patients]) are stores of their own.

    Not embedded: [DbStorage] (SQL), the prediction routes and the model
    code behind them (floating point, files and a Python bridge), and
    [PATCH /api/patientinfo], which spreads an unvalidated body into a
    row. *)

From Stdlib Require Import ZArith List String Lia.
From Stdlib Require Import QArith Qminmax Qpower.
From stdpp Require Import base decidable option list sorting strings relations.

Local Open Scope Z_scope.

(** ** JavaScript values built from parsed JSON *)

Unset Elimination Schemes.
Inductive JVal : Type :=
  | JUndefined
  | JNull
  | JBool (b : bool)
  | JNum (n : Z)
  | JStr (s : string)
  | JArr (l : list JVal)
  | JObj (l : list (string * JVal)).
Set Elimination Schemes.

(** JavaScript truthiness ([x || y], [if (x)]). *)
Definition truthy (v : JVal) : bool :=
  match v with
  | JUndefined | JNull => false
  | JBool b => b
  | JNum n => negb (n =? 0)
  | JStr s => negb (String.eqb s "")
  | JArr _ | JObj _ => true
  end.

(** A parsed JSON object; a missing key reads as [undefined]. *)
Definition JObject := list (string * JVal).

Fixpoint obj_get (k : string) (o : JObject) : JVal :=
  match o with
  | [] => JUndefined
  | (k', v) :: o' => if String.eqb k k' then v else obj_get k o'
  end.

(** [{...o, k: v}] : the spread followed by one overriding property. *)
Fixpoint obj_set (k : string) (v : JVal) (o : JObject) : JObject :=
  match o with
  | [] => [(k, v)]
  | (k', v') :: o' =>
      if String.eqb k k' then (k, v) :: o' else (k', v') :: obj_set k v o'
  end.

(** ** JavaScript [Map<number, V>] and [Set<number>] *)

Module JsMap.
Abbreviation t V := (list (Z * V)) (only parsing).

Section Ops.
Context {V : Type}.

Definition empty : t V := [].

Fixpoint get (k : Z) (m : t V) : option V :=
  match m with
  | [] => None
  | (k', v) :: m' => if decide (k = k') then Some v else get k m'
  end.

Definition has (k : Z) (m : t V) : bool :=
  match get k m with Some _ => true | None => false end.

(** [m.set(k, v)]: an existing key keeps its position, a new key is
    appended. *)
Fixpoint set (k : Z) (v : V) (m : t V) : t V :=
  match m with
  | [] => [(k, v)]
  | (k', v') :: m' =>
      if decide (k = k') then (k, v) :: m' else (k', v') :: set k v m'
  end.

Definition delete (k : Z) (m : t V) : t V :=
  filter (λ e, e.1 ≠ k) m.

Definition keys (m : t V) : list Z := m.*1.
Definition values (m : t V) : list V := m.*2.

(** Representation invariant of a [Map]: one entry per key. *)
Definition ok (m : t V) : Prop := NoDup (keys m).
End Ops.
End JsMap.

Module JsSet.
Abbreviation t := (list Z) (only parsing).

Definition empty : t := [].

Definition add (k : Z) (s : t) : t :=
  if decide (k ∈ s) then s else s ++ [k].

Definition delete (k : Z) (s : t) : t := filter (λ x, x ≠ k) s.

(** [Array.from(s)] *)
Definition to_list (s : t) : list Z := s.
End JsSet.

(** ** [Array.prototype.sort] with a comparator

    The sort is stable (ECMAScript 2019); a stable insertion sort computes
    the same array. *)

Section ArraySort.
Context {A : Type} (cmp : A → A → Z).

Fixpoint sort_insert (x : A) (l : list A) : list A :=
  match l with
  | [] => [x]
  | y :: l' =>
      if decide (cmp x y ≤ 0) then x :: y :: l' else y :: sort_insert x l'
  end.

Definition array_sort (l : list A) : list A := foldr sort_insert [] l.
End ArraySort.

(** ** Data model ([shared/schema.ts]) *)

Inductive Role := Doctor | Patient.
Inductive Status := Sent | Delivered | Read.

Global Instance Role_eq_dec : EqDecision Role.
Proof. solve_decision. Defined.
Global Instance Status_eq_dec : EqDecision Status.
Proof. solve_decision. Defined.

(** The columns of [users] that the messaging code reads. *)
Record User := mkUser {
  user_id : Z;
  user_username : string;
  user_role : Role
}.

Record InsertUser := mkInsertUser {
  iu_username : string;
  iu_role : Role
}.

Record Message := mkMessage {
  msg_id : Z;
  msg_fromUserId : Z;
  msg_toUserId : Z;
  msg_content : JVal;
  msg_imageData : JVal;
  msg_status : Status;
  msg_sentAt : Z
}.

(** [InsertMessage]: [id] and [sentAt] are omitted from the insert schema,
    [imageData] and [status] are optional. *)
Record InsertMessage := mkInsertMessage {
  im_fromUserId : Z;
  im_toUserId : Z;
  im_content : JVal;
  im_imageData : JVal;
  im_status : option Status
}.

Record Conversation := mkConversation {
  conv_id : Z;
  conv_doctorId : Z;
  conv_patientId : Z;
  conv_lastMessageAt : Z;
  conv_createdAt : Z
}.

Record InsertConversation := mkInsertConversation {
  ic_doctorId : Z;
  ic_patientId : Z
}.

(** ** The in-memory store ([class MemStorage])

    Every operation that changes the store returns its result together with
    the new store.  [now] is the value of [new Date()] (milliseconds); the
    clock reads of one store operation are taken at the same instant.

    An operation is one call run to its end.  The methods of the source are
    [async] and yield at every [await]; a REST handler on this store runs
    to its end before another handler starts, but the handlers of two
    [chat_message] frames that arrive in one chunk overlap, and the steps
    of their store calls interleave.  A property that needs a lookup and
    the insert after it to be one step is therefore stated of the REST
    routes. *)

Record MemStorage := mkMemStorage {
  users : JsMap.t User;
  messages : JsMap.t Message;
  conversations : JsMap.t Conversation;
  currentUserId : Z;
  currentMessageId : Z;
  currentConversationId : Z
}.

(** [Array.prototype.find]: the first element that satisfies [P]. *)
Definition array_find {A : Type} (P : A → Prop) `{!∀ x, Decision (P x)}
    (l : list A) : option A :=
  head (filter P l).

Definition set_messages (f : JsMap.t Message → JsMap.t Message)
    (st : MemStorage) :=
  mkMemStorage (users st) (f (messages st)) (conversations st)
    (currentUserId st) (currentMessageId st) (currentConversationId st).

Definition set_conversations
    (f : JsMap.t Conversation → JsMap.t Conversation) (st : MemStorage) :=
  mkMemStorage (users st) (messages st) (f (conversations st))
    (currentUserId st) (currentMessageId st) (currentConversationId st).

Definition getUser (id : Z) (st : MemStorage) : option User :=
  JsMap.get id (users st).

Definition createUser (insertUser : InsertUser) (st : MemStorage)
    : User * MemStorage :=
  let id := currentUserId st in
  let user := mkUser id (iu_username insertUser) (iu_role insertUser) in
  (user,
   mkMemStorage (JsMap.set id user (users st)) (messages st)
     (conversations st) (id + 1) (currentMessageId st)
     (currentConversationId st)).

Definition getDoctors (st : MemStorage) : list User :=
  filter (λ user, user_role user = Doctor) (JsMap.values (users st)).

Definition getPatients (st : MemStorage) : list User :=
  filter (λ user, user_role user = Patient) (JsMap.values (users st)).

(** The constructor: empty maps, counters at 1, then the two seeded users. *)
Definition new_MemStorage : MemStorage :=
  let st0 := mkMemStorage JsMap.empty JsMap.empty JsMap.empty 1 1 1 in
  let st1 := (createUser (mkInsertUser "drsmith" Doctor) st0).2 in
  (createUser (mkInsertUser "patient1" Patient) st1).2.

(** *** Conversation operations *)

Definition createConversation (conversation : InsertConversation) (now : Z)
    (st : MemStorage) : Conversation * MemStorage :=
  let id := currentConversationId st in
  let newConversation :=
    mkConversation id (ic_doctorId conversation) (ic_patientId conversation)
      now now in
  (newConversation,
   mkMemStorage (users st) (messages st)
     (JsMap.set id newConversation (conversations st))
     (currentUserId st) (currentMessageId st) (id + 1)).

Definition getConversation (id : Z) (st : MemStorage) : option Conversation :=
  JsMap.get id (conversations st).

Definition getConversationByUsers (doctorId patientId : Z) (st : MemStorage)
    : option Conversation :=
  array_find
    (λ conv, conv_doctorId conv = doctorId ∧ conv_patientId conv = patientId)
    (JsMap.values (conversations st)).

Definition getConversationsByUserId (userId : Z) (st : MemStorage)
    : list Conversation :=
  filter (λ conv, conv_doctorId conv = userId ∨ conv_patientId conv = userId)
    (JsMap.values (conversations st)).

Definition updateConversationLastMessage (id timestamp : Z) (st : MemStorage)
    : option Conversation * MemStorage :=
  match JsMap.get id (conversations st) with
  | None => (None, st)
  | Some conversation =>
      let updatedConversation :=
        mkConversation (conv_id conversation) (conv_doctorId conversation)
          (conv_patientId conversation) timestamp
          (conv_createdAt conversation) in
      (Some updatedConversation,
       set_conversations (JsMap.set id updatedConversation) st)
  end.

(** The messages exchanged by two users, in either direction. *)
Definition between (a b : Z) (msg : Message) : Prop :=
  (msg_fromUserId msg = a ∧ msg_toUserId msg = b) ∨
  (msg_fromUserId msg = b ∧ msg_toUserId msg = a).

Global Instance between_dec a b msg : Decision (between a b msg).
Proof. unfold between. apply _. Defined.

Definition deleteConversation (id userId : Z) (st : MemStorage)
    : bool * MemStorage :=
  match JsMap.get id (conversations st) with
  | None => (false, st)
  | Some conversation =>
      if decide (conv_doctorId conversation ≠ userId ∧
                 conv_patientId conversation ≠ userId)
      then (false, st)
      else
        let messagesToDelete :=
          msg_id <$>
            filter (between (conv_doctorId conversation)
                      (conv_patientId conversation))
              (JsMap.values (messages st)) in
        let msgs :=
          foldl (λ m messageId, JsMap.delete messageId m) (messages st)
            messagesToDelete in
        (true,
         mkMemStorage (users st) msgs (JsMap.delete id (conversations st))
           (currentUserId st) (currentMessageId st)
           (currentConversationId st))
  end.

(** *** Message operations *)

Definition createMessage (message : InsertMessage) (now : Z) (st : MemStorage)
    : Message * MemStorage :=
  let id := currentMessageId st in
  let sentAt := now in
  let status := default Sent (im_status message) in
  let imageData :=
    match im_imageData message with
    | JUndefined => JNull
    | v => v
    end in
  let newMessage :=
    mkMessage id (im_fromUserId message) (im_toUserId message)
      (im_content message) imageData status sentAt in
  let st1 :=
    mkMemStorage (users st) (JsMap.set id newMessage (messages st))
      (conversations st) (currentUserId st) (id + 1)
      (currentConversationId st) in
  let conversation :=
    getConversationByUsers
      (Z.min (im_fromUserId message) (im_toUserId message))
      (Z.max (im_fromUserId message) (im_toUserId message)) st1 in
  match conversation with
  | Some conversation =>
      (newMessage,
       (updateConversationLastMessage (conv_id conversation) sentAt st1).2)
  | None =>
      match getUser (im_fromUserId message) st1,
            getUser (im_toUserId message) st1 with
      | Some fromUser, Some toUser =>
          let doctorId :=
            if decide (user_role fromUser = Doctor)
            then user_id fromUser else user_id toUser in
          let patientId :=
            if decide (user_role fromUser = Patient)
            then user_id fromUser else user_id toUser in
          (newMessage,
           (createConversation (mkInsertConversation doctorId patientId)
              now st1).2)
      | _, _ => (newMessage, st1)
      end
  end.

Definition getMessagesBetweenUsers (fromUserId toUserId : Z) (st : MemStorage)
    : list Message :=
  array_sort (λ a b, msg_sentAt a - msg_sentAt b)
    (filter (between fromUserId toUserId) (JsMap.values (messages st))).

Definition getMessagesByConversation (conversationId : Z) (st : MemStorage)
    : list Message :=
  match getConversation conversationId st with
  | None => []
  | Some conversation =>
      getMessagesBetweenUsers (conv_doctorId conversation)
        (conv_patientId conversation) st
  end.

Definition getMessage (id : Z) (st : MemStorage) : option Message :=
  JsMap.get id (messages st).

Definition with_status (status : Status) (message : Message) : Message :=
  mkMessage (msg_id message) (msg_fromUserId message) (msg_toUserId message)
    (msg_content message) (msg_imageData message) status (msg_sentAt message).

Definition with_content (content : JVal) (message : Message) : Message :=
  mkMessage (msg_id message) (msg_fromUserId message) (msg_toUserId message)
    content (msg_imageData message) (msg_status message) (msg_sentAt message).

Definition updateMessageStatus (id : Z) (status : Status) (st : MemStorage)
    : option Message * MemStorage :=
  match JsMap.get id (messages st) with
  | None => (None, st)
  | Some message =>
      let updatedMessage := with_status status message in
      (Some updatedMessage, set_messages (JsMap.set id updatedMessage) st)
  end.

Definition updateMessage (id : Z) (content : JVal) (st : MemStorage)
    : option Message * MemStorage :=
  match JsMap.get id (messages st) with
  | None => (None, st)
  | Some message =>
      let updatedMessage := with_content content message in
      (Some updatedMessage, set_messages (JsMap.set id updatedMessage) st)
  end.

Definition deleteMessage (id : Z) (st : MemStorage) : bool * MemStorage :=
  if JsMap.has id (messages st)
  then (true, set_messages (JsMap.delete id) st)
  else (false, st).

(** ** The WebSocket hub ([registerRoutes], [wss.on("connection")])

    A connection is identified by its socket object ([Conn]).  What the
    [ws] library decides -- the ready state of a socket and whether
    [send] throws -- is the environment [sock] of every handler. *)

Definition Conn := nat.

Inductive ReadyState := CONNECTING | OPEN | CLOSING | CLOSED.

Global Instance ReadyState_eq_dec : EqDecision ReadyState.
Proof. solve_decision. Defined.

Record Socket := mkSocket {
  readyState : ReadyState;
  sendThrows : bool
}.

(** Server-to-client events. *)
Inductive ServerEvent :=
  | online_status (onlineUsers : list Z)
  | chat_message (message : Message) (status : option Status).

(** The client-to-server [chat_message] event. *)
Record ChatData := mkChatData {
  data_fromUserId : Z;
  data_toUserId : Z;
  data_content : JVal;
  data_imageData : JVal
}.

Record Hub := mkHub {
  clients : JsMap.t Conn;         (* Map<number, WSWebSocket> *)
  onlineUsers : JsSet.t;          (* Set<number> *)
  userIdOf : Conn → option Z;     (* [let userId] of each connection *)
  outbox : list (Conn * ServerEvent);  (* successful [send]s, oldest first *)
  storage : MemStorage
}.

Definition new_Hub : Hub :=
  mkHub JsMap.empty JsSet.empty (λ _, None) [] new_MemStorage.

(** [if (userId)] on a [number | undefined]. *)
Definition is_truthy (userId : option Z) : bool :=
  match userId with
  | Some n => bool_decide (n ≠ 0)
  | None => false
  end.

Definition set_clients (f : JsMap.t Conn → JsMap.t Conn) (h : Hub) : Hub :=
  mkHub (f (clients h)) (onlineUsers h) (userIdOf h) (outbox h) (storage h).

Definition set_onlineUsers (f : JsSet.t → JsSet.t) (h : Hub) : Hub :=
  mkHub (clients h) (f (onlineUsers h)) (userIdOf h) (outbox h) (storage h).

Definition set_userId (ws : Conn) (userId : option Z) (h : Hub) : Hub :=
  mkHub (clients h) (onlineUsers h)
    (λ c, if decide (c = ws) then userId else userIdOf h c)
    (outbox h) (storage h).

Definition set_storage (st : MemStorage) (h : Hub) : Hub :=
  mkHub (clients h) (onlineUsers h) (userIdOf h) (outbox h) st.

Definition push (ws : Conn) (ev : ServerEvent) (h : Hub) : Hub :=
  mkHub (clients h) (onlineUsers h) (userIdOf h) (outbox h ++ [(ws, ev)])
    (storage h).

(** [clients.delete(userId); onlineUsers.delete(userId)] *)
Definition evict (userId : Z) (h : Hub) : Hub :=
  set_onlineUsers (JsSet.delete userId) (set_clients (JsMap.delete userId) h).

Section HubHandlers.
Variable sock : Conn → Socket.

(** Body of the first [clients.forEach]. *)
Definition sweep_entry (h : Hub) (e : Z * Conn) : Hub :=
  if decide (readyState (sock e.2) ≠ OPEN) then evict e.1 h else h.

(** Body of the second [clients.forEach], with its [try]/[catch]. *)
Definition send_entry (onlineUsersList : list Z) (h : Hub) (e : Z * Conn)
    : Hub :=
  if decide (readyState (sock e.2) = OPEN) then
    if sendThrows (sock e.2) then evict e.1 h
    else push e.2 (online_status onlineUsersList) h
  else h.

(** [broadcastOnlineStatus].  A callback of [forEach] deletes no entry but
    the one it is visiting, so each loop visits the entries the map held
    when the loop started. *)
Definition broadcastOnlineStatus (h : Hub) : Hub :=
  let onlineUsersList := JsSet.to_list (onlineUsers h) in
  let h1 := foldl sweep_entry h (clients h) in
  foldl (send_entry onlineUsersList) h1 (clients h1).

(** The two ["close"] listeners of a connection, in registration order. *)
Definition on_close (ws : Conn) (h : Hub) : Hub :=
  let h1 :=
    match userIdOf h ws with
    | Some userId =>
        if is_truthy (Some userId)
        then broadcastOnlineStatus (evict userId h)
        else h
    | None => h
    end in
  match userIdOf h1 ws with
  | Some userId =>
      if is_truthy (Some userId)
      then set_clients (JsMap.delete userId) h1
      else h1
  | None => h1
  end.

(** [data.type === "register"] *)
Definition on_register (ws : Conn) (data_userId : option Z) (h : Hub)
    : Hub :=
  let h1 := set_userId ws data_userId h in
  match data_userId with
  | Some userId =>
      if is_truthy (Some userId)
      then
        broadcastOnlineStatus
          (set_onlineUsers (JsSet.add userId)
             (set_clients (JsMap.set userId ws) h1))
      else h1
  | None => h1
  end.

(** [ws.send(...)] inside the handler's [try]: [None] when it throws. *)
Definition try_send (ws : Conn) (ev : ServerEvent) (h : Hub) : option Hub :=
  if sendThrows (sock ws) then None else Some (push ws ev h).

(** The fan-out at the end of the [chat_message] branch; an exception
    leaves the handler through the outer [catch]. *)
Definition fan_out (ws : Conn) (actualFromUserId actualToUserId : Z)
    (newMessage : Message) (h : Hub) : Hub :=
  let after_recipient :=
    match JsMap.get actualToUserId (clients h) with
    | Some recipientWs =>
        if decide (readyState (sock recipientWs) = OPEN)
        then try_send recipientWs (chat_message newMessage None) h
        else Some h
    | None => Some h
    end in
  match after_recipient with
  | None => h
  | Some h1 =>
      let after_sender :=
        match JsMap.get actualFromUserId (clients h1) with
        | Some senderWs =>
            if decide (readyState (sock senderWs) = OPEN ∧ senderWs ≠ ws)
            then
              try_send senderWs (chat_message newMessage (Some Delivered))
                h1
            else Some h1
        | None => Some h1
        end in
      match after_sender with
      | None => h1
      | Some h2 =>
          if decide (readyState (sock ws) = OPEN)
          then
            match try_send ws (chat_message newMessage (Some Delivered)) h2
            with
            | Some h3 => h3
            | None => h2
            end
          else h2
      end
  end.

(** [data.type === "chat_message"].  [tMsg] is the clock read by
    [createMessage], [tConv] the one read when the conversation is touched
    afterwards. *)
Definition on_chat_message (ws : Conn) (data : ChatData) (tMsg tConv : Z)
    (h : Hub) : Hub :=
  match getUser (data_fromUserId data) (storage h),
        getUser (data_toUserId data) (storage h) with
  | Some fromUser, Some toUser =>
      let actualFromUserId := data_fromUserId data in
      (* the self-send guard: [None] is the early [return] *)
      let guard : option Z :=
        if decide (actualFromUserId = data_toUserId data) then
          match user_role fromUser with
          | Patient =>
              match getDoctors (storage h) with
              | doctor :: _ => Some (user_id doctor)
              | [] => Some (data_toUserId data)
              end
          | Doctor => None
          end
        else Some (data_toUserId data) in
      match guard with
      | None => h
      | Some actualToUserId =>
          let imageData :=
            if truthy (data_imageData data)
            then data_imageData data else JUndefined in
          let '(newMessage, st1) :=
            createMessage
              (mkInsertMessage actualFromUserId actualToUserId
                 (data_content data) imageData (Some Sent))
              tMsg (storage h) in
          let h1 := set_storage st1 h in
          let h2 :=
            if negb (is_truthy (userIdOf h1 ws)) &&
               bool_decide (data_fromUserId data ≠ 0)
            then
              let fromId := data_fromUserId data in
              broadcastOnlineStatus
                (set_onlineUsers (JsSet.add fromId)
                   (set_clients (JsMap.set fromId ws)
                      (set_userId ws (Some fromId) h1)))
            else h1 in
          let conversation :=
            getConversationByUsers
              (if decide (actualFromUserId < actualToUserId)
               then actualFromUserId else actualToUserId)
              (if decide (actualFromUserId < actualToUserId)
               then actualToUserId else actualFromUserId)
              (storage h2) in
          let after_conversation : option Hub :=
            match conversation with
            | Some conversation =>
                Some (set_storage
                        (updateConversationLastMessage
                           (conv_id conversation) tConv (storage h2)).2 h2)
            | None =>
                match getUser (data_fromUserId data) (storage h2),
                      getUser (data_toUserId data) (storage h2) with
                | Some fromUser, Some toUser =>
                    let doctorId :=
                      if decide (user_role fromUser = Doctor)
                      then user_id fromUser else user_id toUser in
                    let patientId :=
                      if decide (user_role fromUser = Patient)
                      then user_id fromUser else user_id toUser in
                    Some (set_storage
                            (createConversation
                               (mkInsertConversation doctorId patientId)
                               tConv (storage h2)).2 h2)
                | _, _ => None
                end
            end in
          match after_conversation with
          | None => h2
          | Some h3 =>
              let st4 :=
                (updateMessageStatus (msg_id newMessage) Delivered
                   (storage h3)).2 in
              fan_out ws actualFromUserId actualToUserId
                (with_status Delivered newMessage) (set_storage st4 h3)
          end
      end
  | _, _ => h
  end.
End HubHandlers.

(** ** The REST message routes

    A handler maps the session, the request and the store to a response and
    the new store.  [res.json(x)] without [res.status] answers 200. *)

Inductive Body :=
  | json_text (message : string)       (* [{ message: "..." }] *)
  | json_messages (l : list Message)
  | json_message (m : Message).

Record Response := mkResponse {
  res_status : Z;
  res_body : Body
}.

(** The [:id] segment of the path: the literal ["new"], or any other text,
    of which the handlers only use what [parseInt] returns ([None] is
    [NaN]). *)
Inductive IdParam :=
  | id_new
  | id_text (parsed : option Z).

Definition parseInt (id : IdParam) : option Z :=
  match id with
  | id_new => None
  | id_text parsed => parsed
  end.

(** [insertMessageSchema.parse]: [createInsertSchema(messages)] without
    [id] and [sentAt].  [fromUserId], [toUserId] are numbers and [content] a
    string; [imageData] (a nullable column) may be a string, [null] or
    absent; [status] (a column with a default) may be one of the three enum
    strings or absent.  [None] is the thrown [ZodError]. *)
Definition parse_status (v : JVal) : option (option Status) :=
  match v with
  | JUndefined => Some None
  | JStr s =>
      if String.eqb s "sent" then Some (Some Sent)
      else if String.eqb s "delivered" then Some (Some Delivered)
      else if String.eqb s "read" then Some (Some Read)
      else None
  | _ => None
  end.

Definition insertMessageSchema_parse (o : JObject) : option InsertMessage :=
  match obj_get "fromUserId" o, obj_get "toUserId" o, obj_get "content" o with
  | JNum fromUserId, JNum toUserId, JStr content =>
      match obj_get "imageData" o with
      | (JUndefined | JNull | JStr _) as imageData =>
          match parse_status (obj_get "status" o) with
          | Some status =>
              Some (mkInsertMessage fromUserId toUserId (JStr content)
                      imageData status)
          | None => None
          end
      | _ => None
      end
  | _, _, _ => None
  end.

(** [authMiddleware]: the session's user id when it is truthy. *)
Definition authenticated (session_userId : option Z) : option Z :=
  match session_userId with
  | Some userId => if is_truthy (Some userId) then Some userId else None
  | None => None
  end.

Definition unauthorized : Response := mkResponse 401 (json_text "Unauthorized").

(** [app.delete("/api/conversations/:id")] *)
Definition DELETE_conversation (session_userId : option Z) (id : IdParam)
    (st : MemStorage) : Response * MemStorage :=
  match authenticated session_userId with
  | None => (unauthorized, st)
  | Some userId =>
      match parseInt id with
      | None => (mkResponse 400 (json_text "Invalid conversation ID"), st)
      | Some conversationId =>
          match getConversation conversationId st with
          | None => (mkResponse 404 (json_text "Conversation not found"), st)
          | Some conversation =>
              if decide (conv_doctorId conversation ≠ userId ∧
                         conv_patientId conversation ≠ userId)
              then
                (mkResponse 403
                   (json_text "Not authorized to delete this conversation"),
                 st)
              else
                let '(success, st') :=
                  deleteConversation conversationId userId st in
                if success
                then
                  (mkResponse 200
                     (json_text "Conversation deleted successfully"), st')
                else
                  (mkResponse 500
                     (json_text "Failed to delete conversation"), st')
          end
      end
  end.

(** The read-marking loop of the messages route. *)
Definition mark_read (messagesToUpdate : list Message) (st : MemStorage)
    : MemStorage :=
  foldl (λ st message, (updateMessageStatus (msg_id message) Read st).2) st
    messagesToUpdate.

(** [app.get("/api/conversations/:id/messages")] *)
Definition GET_conversation_messages (session_userId : option Z)
    (id : IdParam) (st : MemStorage) : Response * MemStorage :=
  match authenticated session_userId with
  | None => (unauthorized, st)
  | Some userId =>
      match id with
      | id_new => (mkResponse 200 (json_messages []), st)
      | _ =>
          match parseInt id with
          | None =>
              (mkResponse 400 (json_text "Invalid conversation ID"), st)
          | Some conversationId =>
              match getConversation conversationId st with
              | None =>
                  (mkResponse 404 (json_text "Conversation not found"), st)
              | Some conversation =>
                  if decide (conv_doctorId conversation ≠ userId ∧
                             conv_patientId conversation ≠ userId)
                  then
                    (mkResponse 403
                       (json_text
                          "Not authorized to access this conversation"), st)
                  else
                    let messages :=
                      getMessagesByConversation conversationId st in
                    let messagesToUpdate :=
                      filter
                        (λ msg, msg_toUserId msg = userId ∧
                                msg_status msg ≠ Read) messages in
                    (mkResponse 200 (json_messages messages),
                     mark_read messagesToUpdate st)
              end
          end
      end
  end.

(** [app.post("/api/messages")] *)
Definition POST_messages (session_userId : option Z) (body : JObject)
    (now : Z) (st : MemStorage) : Response * MemStorage :=
  match authenticated session_userId with
  | None => (unauthorized, st)
  | Some userId =>
      match insertMessageSchema_parse
              (obj_set "fromUserId" (JNum userId) body) with
      | None => (mkResponse 400 (json_text "Invalid message data"), st)
      | Some messageData =>
          let '(newMessage, st') := createMessage messageData now st in
          (mkResponse 201 (json_message newMessage), st')
      end
  end.

(** [app.patch("/api/messages/:id")].  There is no [isNaN] test here:
    [getMessage(NaN)] finds no entry and the answer is 404. *)
Definition PATCH_message (session_userId : option Z) (id : IdParam)
    (body : JObject) (st : MemStorage) : Response * MemStorage :=
  match authenticated session_userId with
  | None => (unauthorized, st)
  | Some userId =>
      let content := obj_get "content" body in
      let not_found := (mkResponse 404 (json_text "Message not found"), st) in
      match parseInt id with
      | None => not_found
      | Some messageId =>
          match getMessage messageId st with
          | None => not_found
          | Some message =>
              if decide (msg_fromUserId message ≠ userId)
              then
                (mkResponse 403
                   (json_text
                      "Unauthorized - You can only edit your own messages"),
                 st)
              else
                match updateMessage messageId content st with
                | (Some updatedMessage, st') =>
                    (mkResponse 200 (json_message updatedMessage), st')
                | (None, st') =>
                    (mkResponse 500 (json_text "Failed to update message"),
                     st')
                end
          end
      end
  end.

(** [app.delete("/api/messages/:id")] *)
Definition DELETE_message (session_userId : option Z) (id : IdParam)
    (st : MemStorage) : Response * MemStorage :=
  match authenticated session_userId with
  | None => (unauthorized, st)
  | Some userId =>
      let not_found := (mkResponse 404 (json_text "Message not found"), st) in
      match parseInt id with
      | None => not_found
      | Some messageId =>
          match getMessage messageId st with
          | None => not_found
          | Some message =>
              if decide (msg_fromUserId message ≠ userId)
              then
                (mkResponse 403
                   (json_text
                      "Unauthorized - You can only delete your own messages"),
                 st)
              else
                match deleteMessage messageId st with
                | (true, st') =>
                    (mkResponse 200
                       (json_text "Message deleted successfully"), st')
                | (false, st') =>
                    (mkResponse 500 (json_text "Failed to delete message"),
                     st')
                end
          end
      end
  end.

(** ** The client reconnection manager ([connectWebSocket] in the chat page)

    [Math.min(1000 * Math.pow(1.5, reconnectAttempts), 15000)] is computed
    on rationals: [1.5 ^ n] is a dyadic rational that a double holds exactly
    while it is below the ceiling, and [Math.min] caps every larger value. *)

Definition reconnect_delay (reconnectAttempts : nat) : Q :=
  Qmin (1000 * Qpower (3 # 2) (Z.of_nat reconnectAttempts)) 15000.

Record ClientState := mkClientState {
  reconnectAttempts : nat;
  reconnectTimeout : option Q;   (* the pending timer and its delay *)
  wsConnected : bool
}.

(** The effect starts with no socket, no timer and a zero counter. *)
Definition new_ClientState : ClientState := mkClientState 0 None false.

(** The ["open"] listener. *)
Definition open_listener (c : ClientState) : ClientState :=
  mkClientState 0 (reconnectTimeout c) true.

(** The ["close"] listener; it returns the delay it computed. *)
Definition close_listener (c : ClientState) : Q * ClientState :=
  let delay := reconnect_delay (reconnectAttempts c) in
  (delay,
   mkClientState (S (reconnectAttempts c))
     (match reconnectTimeout c with
      | None => Some delay
      | Some pending => Some pending
      end)
     false).

(** The timer callback, up to the call of [connectWebSocket]. *)
Definition timer_fired (c : ClientState) : ClientState :=
  mkClientState (reconnectAttempts c) None (wsConnected c).

(** ** The connection and conversation-list routes

    [req.session] carries the user id and the role that [login] and
    [register] stored.  A reply is either [{ message }] or a JSON payload. *)

Record Session := mkSession {
  sess_userId : option Z;
  sess_userRole : option Role
}.

Inductive Reply (A : Type) :=
  | reply_message (status : Z) (message : string)
  | reply_json (status : Z) (payload : A).
Arguments reply_message {A} status message.
Arguments reply_json {A} status payload.

(** The tail of [POST /api/connect] once the two ids are known. *)
Definition connect_pair (doctorId patientId now : Z) (st : MemStorage)
    : Reply Conversation * MemStorage :=
  match getConversationByUsers doctorId patientId st with
  | Some existingConversation =>
      (reply_message 400 "Connection already exists", st)
  | None =>
      let '(newConversation, st') :=
        createConversation (mkInsertConversation doctorId patientId) now st in
      (reply_json 201 newConversation, st')
  end.

(** [app.post("/api/connect")].  [req.body.userId] is not validated: a
    value that is not a number is the key of no entry of the user map. *)
Definition POST_connect (s : Session) (body : JObject) (now : Z)
    (st : MemStorage) : Reply Conversation * MemStorage :=
  match authenticated (sess_userId s) with
  | None => (reply_message 401 "Unauthorized", st)
  | Some userId =>
      let targetUserId := obj_get "userId" body in
      if negb (truthy targetUserId)
      then (reply_message 400 "Target user ID is required", st)
      else
        let not_found := (reply_message 404 "Target user not found", st) in
        match targetUserId with
        | JNum targetUserId =>
            match getUser targetUserId st with
            | None => not_found
            | Some targetUser =>
                if decide (sess_userRole s = Some Doctor) then
                  if decide (user_role targetUser ≠ Patient)
                  then
                    (reply_message 400 "Target user must be a patient", st)
                  else connect_pair userId targetUserId now st
                else
                  if decide (user_role targetUser ≠ Doctor)
                  then (reply_message 400 "Target user must be a doctor", st)
                  else connect_pair targetUserId userId now st
            end
        | _ => not_found
        end
  end.

(** [app.delete("/api/connect/:userId")]: [!targetUserId] rejects [NaN]
    and [0]. *)
Definition DELETE_connect (s : Session) (userId_param : IdParam)
    (st : MemStorage) : Reply () * MemStorage :=
  match authenticated (sess_userId s) with
  | None => (reply_message 401 "Unauthorized", st)
  | Some userId =>
      match parseInt userId_param with
      | None => (reply_message 400 "Target user ID is required", st)
      | Some targetUserId =>
          if decide (targetUserId = 0)
          then (reply_message 400 "Target user ID is required", st)
          else
            let doctorId :=
              if decide (sess_userRole s = Some Doctor)
              then userId else targetUserId in
            let patientId :=
              if decide (sess_userRole s = Some Doctor)
              then targetUserId else userId in
            match getConversationByUsers doctorId patientId st with
            | None => (reply_message 404 "Connection not found", st)
            | Some conversation =>
                (reply_message 200 "Connection removed successfully", st)
            end
      end
  end.

(** [app.get("/api/connections")]; the users come without their
    password. *)
Definition GET_connections (s : Session) (st : MemStorage)
    : Reply (list User) * MemStorage :=
  match authenticated (sess_userId s) with
  | None => (reply_message 401 "Unauthorized", st)
  | Some userId =>
      let conversations := getConversationsByUserId userId st in
      if decide (sess_userRole s = Some Doctor) then
        let patientIds :=
          conv_patientId <$>
            filter (λ conv, conv_doctorId conv = userId) conversations in
        let patients := (λ id, getUser id st) <$> patientIds in
        (reply_json 200 (omap id patients), st)
      else
        let doctorIds :=
          conv_doctorId <$>
            filter (λ conv, conv_patientId conv = userId) conversations in
        let doctors := (λ id, getUser id st) <$> doctorIds in
        (reply_json 200 (omap id doctors), st)
  end.

(** One entry of [GET /api/conversations]:
    [{ ...conv, otherUser, unreadCount, lastMessage }]. *)
Record ConversationDetails := mkConversationDetails {
  cd_conv : Conversation;
  cd_otherUser : User;
  cd_unreadCount : Z;
  cd_lastMessage : option Message
}.

(** The callback of [conversations.map]; [None] is its [null]. *)
Definition conversation_details (userId : Z) (st : MemStorage)
    (conv : Conversation) : option ConversationDetails :=
  let otherUserId :=
    if decide (conv_doctorId conv = userId)
    then conv_patientId conv else conv_doctorId conv in
  match getUser otherUserId st with
  | None => None
  | Some otherUser =>
      let messages := getMessagesByConversation (conv_id conv) st in
      let unreadCount :=
        Z.of_nat
          (length
             (filter (λ msg, msg_toUserId msg = userId ∧ msg_status msg ≠ Read)
                messages)) in
      let lastMessage :=
        if decide (0 < length messages)%nat
        then head (array_sort (λ a b, msg_sentAt b - msg_sentAt a) messages)
        else None in
      Some (mkConversationDetails conv otherUser unreadCount lastMessage)
  end.

(** The comparator of the final sort: unread count, highest first, then
    the time of the last message, most recent first. *)
Definition compare_details (a b : ConversationDetails) : Z :=
  if decide (cd_unreadCount b ≠ cd_unreadCount a)
  then cd_unreadCount b - cd_unreadCount a
  else conv_lastMessageAt (cd_conv b) - conv_lastMessageAt (cd_conv a).

(** [app.get("/api/conversations")] *)
Definition GET_conversations (s : Session) (st : MemStorage)
    : Reply (list ConversationDetails) * MemStorage :=
  match authenticated (sess_userId s) with
  | None => (reply_message 401 "Unauthorized", st)
  | Some userId =>
      let conversations := getConversationsByUserId userId st in
      let conversationsWithDetails :=
        conversation_details userId st <$> conversations in
      let sortedConversations :=
        array_sort compare_details (omap id conversationsWithDetails) in
      (reply_json 200 sortedConversations, st)
  end.

(** ** Accounts: the user map with all its columns, and the account routes

    A row of the user map is the [User] that the messaging code reads
    together with the other columns.  [password] holds whatever
    [updatePassword] was given, which the route does not validate.  The
    [twoFactorEnabled] property exists once [toggleTwoFactorAuth] has
    written it. *)

Record UserRow := mkUserRow {
  row_user : User;
  row_password : JVal;
  row_email : string;
  row_fullName : string;
  row_specialization : option string;
  row_profilePicture : option string;
  row_bio : option string;
  row_createdAt : Z;
  row_twoFactorEnabled : option bool
}.

(** [InsertUser] with all its properties; an optional text is [None] when
    it is [null] or absent. *)
Record InsertUserRow := mkInsertUserRow {
  iur_user : InsertUser;
  iur_password : string;
  iur_email : string;
  iur_fullName : string;
  iur_specialization : option string;
  iur_profilePicture : option string;
  iur_bio : option string
}.

(** [const { password, ...userWithoutPassword } = user] *)
Record UserWithoutPassword := mkUserWithoutPassword {
  wp_user : User;
  wp_email : string;
  wp_fullName : string;
  wp_specialization : option string;
  wp_profilePicture : option string;
  wp_bio : option string;
  wp_createdAt : Z;
  wp_twoFactorEnabled : option bool
}.

Definition without_password (user : UserRow) : UserWithoutPassword :=
  mkUserWithoutPassword (row_user user) (row_email user) (row_fullName user)
    (row_specialization user) (row_profilePicture user) (row_bio user)
    (row_createdAt user) (row_twoFactorEnabled user).

(** [a === b] for two values that come from different JSON documents: two
    objects or two arrays are never the same object. *)
Definition strict_equal (a b : JVal) : bool :=
  match a, b with
  | JUndefined, JUndefined => true
  | JNull, JNull => true
  | JBool x, JBool y => bool_decide (x = y)
  | JNum x, JNum y => bool_decide (x = y)
  | JStr x, JStr y => bool_decide (x = y)
  | _, _ => false
  end.

(** [text || null] *)
Definition or_null (text : option string) : option string :=
  match text with
  | Some s => if String.eqb s "" then None else Some s
  | None => None
  end.

(** The zod schema of a nullable text column: a string, [null] or absent. *)
Definition parse_nullable_text (v : JVal) : option (option string) :=
  match v with
  | JUndefined | JNull => Some None
  | JStr s => Some (Some s)
  | _ => None
  end.

Definition parse_role (v : JVal) : option Role :=
  match v with
  | JStr s =>
      if String.eqb s "doctor" then Some Doctor
      else if String.eqb s "patient" then Some Patient
      else None
  | _ => None
  end.

(** [insertUserSchema.parse]: [createInsertSchema(users)] without [id] and
    [createdAt]; [None] is the thrown [ZodError]. *)
Definition insertUserSchema_parse (o : JObject) : option InsertUserRow :=
  match obj_get "username" o, obj_get "password" o, obj_get "email" o,
        obj_get "fullName" o with
  | JStr username, JStr password, JStr email, JStr fullName =>
      role ← parse_role (obj_get "role" o);
      specialization ← parse_nullable_text (obj_get "specialization" o);
      profilePicture ← parse_nullable_text (obj_get "profilePicture" o);
      bio ← parse_nullable_text (obj_get "bio" o);
      Some (mkInsertUserRow (mkInsertUser username role) password email
              fullName specialization profilePicture bio)
  | _, _, _, _ => None
  end.

Module Accounts.

Record Store := mkStore {
  users : JsMap.t UserRow;
  currentUserId : Z
}.

Definition getUser (id : Z) (st : Store) : option UserRow :=
  JsMap.get id (users st).

Definition getUserByUsername (username : string) (st : Store)
    : option UserRow :=
  array_find (λ user, user_username (row_user user) = username)
    (JsMap.values (users st)).

Definition getUserByEmail (email : string) (st : Store) : option UserRow :=
  array_find (λ user, row_email user = email) (JsMap.values (users st)).

Definition createUser (insertUser : InsertUserRow) (now : Z) (st : Store)
    : UserRow * Store :=
  let id := currentUserId st in
  let createdAt := now in
  let user :=
    mkUserRow
      (mkUser id (iu_username (iur_user insertUser))
         (iu_role (iur_user insertUser)))
      (JStr (iur_password insertUser)) (iur_email insertUser)
      (iur_fullName insertUser)
      (or_null (iur_specialization insertUser))
      (or_null (iur_profilePicture insertUser))
      (or_null (iur_bio insertUser))
      createdAt None in
  (user, mkStore (JsMap.set id user (users st)) (id + 1)).

Definition updatePassword (userId : Z) (newPassword : JVal) (st : Store)
    : bool * Store :=
  match getUser userId st with
  | None => (false, st)
  | Some user =>
      let updatedUser :=
        mkUserRow (row_user user) newPassword (row_email user)
          (row_fullName user) (row_specialization user)
          (row_profilePicture user) (row_bio user) (row_createdAt user)
          (row_twoFactorEnabled user) in
      (true, mkStore (JsMap.set userId updatedUser (users st))
               (currentUserId st))
  end.

Definition toggleTwoFactorAuth (userId : Z) (enabled : bool) (st : Store)
    : bool * Store :=
  match getUser userId st with
  | None => (false, st)
  | Some user =>
      let updatedUser :=
        mkUserRow (row_user user) (row_password user) (row_email user)
          (row_fullName user) (row_specialization user)
          (row_profilePicture user) (row_bio user) (row_createdAt user)
          (Some enabled) in
      (true, mkStore (JsMap.set userId updatedUser (users st))
               (currentUserId st))
  end.

(** The constructor: an empty map, the counter at 1, then the two seeded
    users. *)
Definition new_Store (now : Z) : Store :=
  let st0 := mkStore JsMap.empty 1 in
  let st1 :=
    (createUser
       (mkInsertUserRow (mkInsertUser "drsmith" Doctor) "password123"
          "drsmith@example.com" "Dr. John Smith" (Some "Cardiology")
          (Some "https://images.unsplash.com/photo-1612349317150-e413f6a5b16d")
          (Some "Cardiologist with 10 years of experience"))
       now st0).2 in
  (createUser
     (mkInsertUserRow (mkInsertUser "patient1" Patient) "patient123"
        "patient1@example.com" "Sarah Johnson" None
        (Some "https://images.unsplash.com/photo-1573497019940-1c28c88b4f3e")
        (Some "Patient with heart conditions"))
     now st1).2.

(** [req.session.userId = user.id; req.session.userRole = user.role] *)
Definition session_of (user : UserRow) : Session :=
  mkSession (Some (user_id (row_user user)))
    (Some (user_role (row_user user))).

(** [app.post("/api/register")].  [save_err] tells whether the session
    store passes an error to the callback of [req.session.save]. *)
Definition POST_register (body : JObject) (save_err : bool) (now : Z)
    (s : Session) (st : Store)
    : Reply UserWithoutPassword * Session * Store :=
  match insertUserSchema_parse body with
  | None => (reply_message 400 "Invalid user data", s, st)
  | Some userData =>
      match getUserByUsername (iu_username (iur_user userData)) st with
      | Some existingUser =>
          (reply_message 400 "Username already exists", s, st)
      | None =>
          match getUserByEmail (iur_email userData) st with
          | Some existingEmail =>
              (reply_message 400 "Email already exists", s, st)
          | None =>
              let '(user, st') := createUser userData now st in
              if save_err
              then
                (reply_message 500 "Failed to create session",
                 session_of user, st')
              else
                (reply_json 201 (without_password user), session_of user,
                 st')
          end
      end
  end.

(** [app.post("/api/login")].  [username] and [password] are read from
    the body as they are: a [username] that is not a string equals the
    name of no user. *)
Definition POST_login (body : JObject) (save_err : bool) (s : Session)
    (st : Store) : Reply UserWithoutPassword * Session * Store :=
  let username := obj_get "username" body in
  let password := obj_get "password" body in
  if negb (truthy username) || negb (truthy password)
  then (reply_message 400 "Username and password are required", s, st)
  else
    let user :=
      match username with
      | JStr username => getUserByUsername username st
      | _ => None
      end in
    match user with
    | None => (reply_message 401 "Invalid credentials", s, st)
    | Some user =>
        if negb (strict_equal (row_password user) password)
        then (reply_message 401 "Invalid credentials", s, st)
        else if save_err
        then (reply_message 500 "Failed to create session", session_of user,
              st)
        else (reply_json 200 (without_password user), session_of user, st)
    end.

(** [app.post("/api/logout")]; a destroyed session carries nothing. *)
Definition POST_logout (destroy_err : bool) (s : Session) (st : Store)
    : Reply () * Session * Store :=
  if destroy_err
  then (reply_message 500 "Failed to logout", s, st)
  else (reply_message 200 "Logged out successfully", mkSession None None, st).

(** [app.get("/api/me")] *)
Definition GET_me (s : Session) (st : Store)
    : Reply UserWithoutPassword * Session * Store :=
  match authenticated (sess_userId s) with
  | None => (reply_message 401 "Unauthorized", s, st)
  | Some userId =>
      match getUser userId st with
      | None => (reply_message 404 "User not found", s, st)
      | Some user => (reply_json 200 (without_password user), s, st)
      end
  end.

(** [app.post("/api/update-password")] *)
Definition POST_update_password (body : JObject) (s : Session) (st : Store)
    : Reply () * Session * Store :=
  match authenticated (sess_userId s) with
  | None => (reply_message 401 "Unauthorized", s, st)
  | Some userId =>
      let currentPassword := obj_get "currentPassword" body in
      let newPassword := obj_get "newPassword" body in
      if negb (truthy currentPassword) || negb (truthy newPassword)
      then
        (reply_message 400 "Current password and new password are required",
         s, st)
      else
        match getUser userId st with
        | None => (reply_message 404 "User not found", s, st)
        | Some user =>
            if negb (strict_equal (row_password user) currentPassword)
            then (reply_message 400 "Current password is incorrect", s, st)
            else
              let '(success, st') := updatePassword userId newPassword st in
              if success
              then (reply_message 200 "Password updated successfully", s, st')
              else (reply_message 500 "Failed to update password", s, st')
        end
  end.

(** [app.post("/api/toggle-2fa")]; the payload of a success is
    [{ message, enabled }]. *)
Definition POST_toggle_2fa (body : JObject) (s : Session) (st : Store)
    : Reply (string * bool) * Session * Store :=
  match authenticated (sess_userId s) with
  | None => (reply_message 401 "Unauthorized", s, st)
  | Some userId =>
      match obj_get "enabled" body with
      | JBool enabled =>
          let '(success, st') := toggleTwoFactorAuth userId enabled st in
          if success
          then
            (reply_json 200
               (if enabled then "Two-factor authentication enabled"
                else "Two-factor authentication disabled", enabled), s, st')
          else
            (reply_message 500
               "Failed to update two-factor authentication status", s, st')
      | _ => (reply_message 400 "Enabled status must be a boolean", s, st)
      end
  end.

(** One request to an account route. *)
Inductive request (st : Store) : Store → Prop :=
  | req_register body save_err now s :
      request st (POST_register body save_err now s st).2
  | req_login body save_err s :
      request st (POST_login body save_err s st).2
  | req_logout destroy_err s :
      request st (POST_logout destroy_err s st).2
  | req_me s :
      request st (GET_me s st).2
  | req_update_password body s :
      request st (POST_update_password body s st).2
  | req_toggle_2fa body s :
      request st (POST_toggle_2fa body s st).2.

(** Invariant of the user map: one row per id, stored under the id that
    the row holds, below the counter; no two rows share a user name or an
    e-mail address. *)
Definition ok (st : Store) : Prop :=
  JsMap.ok (users st) ∧
  Forall (λ e, user_id (row_user e.2) = e.1 ∧ e.1 < currentUserId st)
    (users st) ∧
  NoDup ((λ user, user_username (row_user user)) <$> JsMap.values (users st)) ∧
  NoDup (row_email <$> JsMap.values (users st)).

(** The user map that the messaging code sees. *)
Definition view (st : Store) : JsMap.t User :=
  (λ e, (e.1, row_user e.2)) <$> users st.

End Accounts.

(** ** Medical files

    The maps of [MemStorage] for medical files, health metrics and patient
    information are read and written by their own operations only; each
    is modelled with its counter. *)

Inductive FileStatus := Uploaded | Analyzed.

Record MedicalFile := mkMedicalFile {
  file_id : Z;
  file_userId : Z;
  file_fileName : string;
  file_fileType : string;
  file_fileContent : string;
  file_uploadDate : Z;
  file_status : FileStatus
}.

Record InsertMedicalFile := mkInsertMedicalFile {
  imf_userId : Z;
  imf_fileName : string;
  imf_fileType : string;
  imf_fileContent : string;
  imf_status : option FileStatus
}.

Definition parse_file_status (v : JVal) : option (option FileStatus) :=
  match v with
  | JUndefined => Some None
  | JStr s =>
      if String.eqb s "uploaded" then Some (Some Uploaded)
      else if String.eqb s "analyzed" then Some (Some Analyzed)
      else None
  | _ => None
  end.

(** [insertMedicalFileSchema.parse]: [createInsertSchema(medicalFiles)]
    without [id] and [uploadDate]. *)
Definition insertMedicalFileSchema_parse (o : JObject)
    : option InsertMedicalFile :=
  match obj_get "userId" o, obj_get "fileName" o, obj_get "fileType" o,
        obj_get "fileContent" o with
  | JNum userId, JStr fileName, JStr fileType, JStr fileContent =>
      status ← parse_file_status (obj_get "status" o);
      Some (mkInsertMedicalFile userId fileName fileType fileContent status)
  | _, _, _, _ => None
  end.

Module Files.

Record Store := mkStore {
  medicalFiles : JsMap.t MedicalFile;
  currentFileId : Z
}.

Definition new_Store : Store := mkStore JsMap.empty 1.

Definition createMedicalFile (file : InsertMedicalFile) (now : Z) (st : Store)
    : MedicalFile * Store :=
  let id := currentFileId st in
  let uploadDate := now in
  let status := default Uploaded (imf_status file) in
  let medicalFile :=
    mkMedicalFile id (imf_userId file) (imf_fileName file)
      (imf_fileType file) (imf_fileContent file) uploadDate status in
  (medicalFile, mkStore (JsMap.set id medicalFile (medicalFiles st)) (id + 1)).

Definition getMedicalFile (id : Z) (st : Store) : option MedicalFile :=
  JsMap.get id (medicalFiles st).

Definition getMedicalFilesByUserId (userId : Z) (st : Store)
    : list MedicalFile :=
  filter (λ file, file_userId file = userId) (JsMap.values (medicalFiles st)).

Definition updateFileStatus (id : Z) (status : FileStatus) (st : Store)
    : option MedicalFile * Store :=
  match JsMap.get id (medicalFiles st) with
  | None => (None, st)
  | Some file =>
      let updatedFile :=
        mkMedicalFile (file_id file) (file_userId file) (file_fileName file)
          (file_fileType file) (file_fileContent file) (file_uploadDate file)
          status in
      (Some updatedFile,
       mkStore (JsMap.set id updatedFile (medicalFiles st))
         (currentFileId st))
  end.

(** [app.post("/api/files")] *)
Definition POST_files (s : Session) (body : JObject) (now : Z) (st : Store)
    : Reply MedicalFile * Store :=
  match authenticated (sess_userId s) with
  | None => (reply_message 401 "Unauthorized", st)
  | Some userId =>
      match insertMedicalFileSchema_parse
              (obj_set "userId" (JNum userId) body) with
      | None => (reply_message 400 "Invalid file data", st)
      | Some fileData =>
          let '(newFile, st') := createMedicalFile fileData now st in
          (reply_json 201 newFile, st')
      end
  end.

(** [app.get("/api/files")] *)
Definition GET_files (s : Session) (st : Store)
    : Reply (list MedicalFile) * Store :=
  match authenticated (sess_userId s) with
  | None => (reply_message 401 "Unauthorized", st)
  | Some userId => (reply_json 200 (getMedicalFilesByUserId userId st), st)
  end.

(** Every key of the file map is below the counter. *)
Definition ok (st : Store) : Prop :=
  Forall (λ e, e.1 < currentFileId st) (medicalFiles st).

End Files.

(** ** Health metrics *)

Record HealthMetric := mkHealthMetric {
  hm_id : Z;
  hm_userId : Z;
  hm_metricType : string;
  hm_value : string;
  hm_recordedAt : Z
}.

Record InsertHealthMetric := mkInsertHealthMetric {
  ihm_userId : Z;
  ihm_metricType : string;
  ihm_value : string
}.

(** [insertHealthMetricSchema.parse] *)
Definition insertHealthMetricSchema_parse (o : JObject)
    : option InsertHealthMetric :=
  match obj_get "userId" o, obj_get "metricType" o, obj_get "value" o with
  | JNum userId, JStr metricType, JStr value =>
      Some (mkInsertHealthMetric userId metricType value)
  | _, _, _ => None
  end.

Module Metrics.

Record Store := mkStore {
  healthMetrics : JsMap.t HealthMetric;
  currentHealthMetricId : Z
}.

Definition new_Store : Store := mkStore JsMap.empty 1.

Definition createHealthMetric (metric : InsertHealthMetric) (now : Z)
    (st : Store) : HealthMetric * Store :=
  let id := currentHealthMetricId st in
  let recordedAt := now in
  let newMetric :=
    mkHealthMetric id (ihm_userId metric) (ihm_metricType metric)
      (ihm_value metric) recordedAt in
  (newMetric, mkStore (JsMap.set id newMetric (healthMetrics st)) (id + 1)).

Definition getHealthMetricsByUserId (userId : Z) (st : Store)
    : list HealthMetric :=
  array_sort (λ a b, hm_recordedAt b - hm_recordedAt a)
    (filter (λ metric, hm_userId metric = userId)
       (JsMap.values (healthMetrics st))).

Definition getHealthMetricsByUserIdAndType (userId : Z) (metricType : string)
    (st : Store) : list HealthMetric :=
  array_sort (λ a b, hm_recordedAt b - hm_recordedAt a)
    (filter (λ metric, hm_userId metric = userId ∧
                       hm_metricType metric = metricType)
       (JsMap.values (healthMetrics st))).

(** [app.post("/api/health-metrics")] *)
Definition POST_health_metrics (s : Session) (body : JObject) (now : Z)
    (st : Store) : Reply HealthMetric * Store :=
  match authenticated (sess_userId s) with
  | None => (reply_message 401 "Unauthorized", st)
  | Some userId =>
      match insertHealthMetricSchema_parse
              (obj_set "userId" (JNum userId) body) with
      | None => (reply_message 400 "Invalid health metric data", st)
      | Some metricData =>
          let '(newMetric, st') := createHealthMetric metricData now st in
          (reply_json 201 newMetric, st')
      end
  end.

(** [app.get("/api/health-metrics")].  [query_type] is [req.query.type]:
    [undefined] when the parameter is absent, a string, or what the query
    parser builds from a repeated or bracketed parameter, which is the
    [metricType] of no row. *)
Definition GET_health_metrics (s : Session) (query_type : JVal) (st : Store)
    : Reply (list HealthMetric) * Store :=
  match authenticated (sess_userId s) with
  | None => (reply_message 401 "Unauthorized", st)
  | Some userId =>
      if truthy query_type then
        match query_type with
        | JStr metricType =>
            (reply_json 200
               (getHealthMetricsByUserIdAndType userId metricType st), st)
        | _ => (reply_json 200 [], st)
        end
      else (reply_json 200 (getHealthMetricsByUserId userId st), st)
  end.

End Metrics.

(** ** Patient information *)

(** The seven nullable text columns of [patient_info]. *)
Inductive Column :=
  | bloodType | allergies | chronicConditions | medications | notes
  | height | weight.

Definition column_name (c : Column) : string :=
  match c with
  | bloodType => "bloodType"
  | allergies => "allergies"
  | chronicConditions => "chronicConditions"
  | medications => "medications"
  | notes => "notes"
  | height => "height"
  | weight => "weight"
  end.

(** A row: [pi_text c] is the text of column [c], [None] for [null]. *)
Record PatientInfo := mkPatientInfo {
  pi_id : Z;
  pi_patientId : Z;
  pi_text : Column → option string;
  pi_updatedAt : Z;
  pi_createdAt : Z
}.

(** [Partial<InsertPatientInfo>]: every property may be absent ([None]);
    a text column that is present holds a string or [null]. *)
Record PartialInsertPatientInfo := mkPartialInsertPatientInfo {
  ppi_patientId : option Z;
  ppi_text : Column → option (option string)
}.

(** [InsertPatientInfo]: [patientId] is required. *)
Record InsertPatientInfo := mkInsertPatientInfo {
  ipi_patientId : Z;
  ipi_text : Column → option (option string)
}.

(** [insertPatientInfoSchema.parse] *)
Definition insertPatientInfoSchema_parse (o : JObject)
    : option InsertPatientInfo :=
  match obj_get "patientId" o with
  | JNum patientId =>
      let text c :=
        match obj_get (column_name c) o with
        | JUndefined => Some None
        | JNull => Some (Some None)
        | JStr s => Some (Some (Some s))
        | _ => None
        end in
      if forallb (λ c, bool_decide (is_Some (text c)))
           [bloodType; allergies; chronicConditions; medications; notes;
            height; weight]
      then
        Some (mkInsertPatientInfo patientId (λ c, default None (text c)))
      else None
  | _ => None
  end.

Module Patients.

Record Store := mkStore {
  patientInfos : JsMap.t PatientInfo;
  currentPatientInfoId : Z
}.

Definition new_Store : Store := mkStore JsMap.empty 1.

(** [info.column || null] on a property that may be absent. *)
Definition text_or_null (text : option (option string)) : option string :=
  match text with
  | Some (Some s) => if String.eqb s "" then None else Some s
  | _ => None
  end.

Definition createPatientInfo (info : InsertPatientInfo) (now : Z) (st : Store)
    : PatientInfo * Store :=
  let id := currentPatientInfoId st in
  let createdAt := now in
  let updatedAt := now in
  let newPatientInfo :=
    mkPatientInfo id (ipi_patientId info)
      (λ c, text_or_null (ipi_text info c)) updatedAt createdAt in
  (newPatientInfo,
   mkStore
     (JsMap.set (ipi_patientId info) newPatientInfo
        (JsMap.set id newPatientInfo (patientInfos st)))
     (id + 1)).

Definition getPatientInfo (patientId : Z) (st : Store) : option PatientInfo :=
  match JsMap.get patientId (patientInfos st) with
  | Some directInfo => Some directInfo
  | None =>
      array_find (λ info, pi_patientId info = patientId)
        (JsMap.values (patientInfos st))
  end.

Definition updatePatientInfo (patientId : Z) (info : PartialInsertPatientInfo)
    (now : Z) (st : Store) : PatientInfo * Store :=
  match getPatientInfo patientId st with
  | None =>
      let info_patientId :=
        match ppi_patientId info with
        | Some given => if decide (given = 0) then patientId else given
        | None => patientId
        end in
      createPatientInfo (mkInsertPatientInfo info_patientId (ppi_text info))
        now st
  | Some existingInfo =>
      let updatedInfo :=
        mkPatientInfo (pi_id existingInfo)
          (default (pi_patientId existingInfo) (ppi_patientId info))
          (λ c, default (pi_text existingInfo c) (ppi_text info c))
          now (pi_createdAt existingInfo) in
      (updatedInfo,
       mkStore
         (JsMap.set patientId updatedInfo
            (JsMap.set (pi_id existingInfo) updatedInfo (patientInfos st)))
         (currentPatientInfoId st))
  end.

(** [app.get("/api/patientinfo/:patientId")] *)
Definition GET_patientinfo (s : Session) (patientId_param : IdParam)
    (st : Store) : Reply PatientInfo * Store :=
  match authenticated (sess_userId s) with
  | None => (reply_message 401 "Unauthorized", st)
  | Some userId =>
      match parseInt patientId_param with
      | None => (reply_message 400 "Invalid patient ID", st)
      | Some patientId =>
          if decide (sess_userRole s ≠ Some Doctor ∧ userId ≠ patientId)
          then
            (reply_message 403 "Unauthorized to access this patient's info",
             st)
          else
            match getPatientInfo patientId st with
            | None =>
                (reply_message 404 "Patient information not found", st)
            | Some patientInfo => (reply_json 200 patientInfo, st)
            end
      end
  end.

(** [app.post("/api/patientinfo")]; [users] is the user map of the
    store, which the route reads through [getUser]. *)
Definition POST_patientinfo (s : Session) (body : JObject) (now : Z)
    (users : MemStorage) (st : Store) : Reply PatientInfo * Store :=
  match authenticated (sess_userId s) with
  | None => (reply_message 401 "Unauthorized", st)
  | Some userId =>
      match insertPatientInfoSchema_parse body with
      | None => (reply_message 400 "Invalid patient information data", st)
      | Some patientInfoData =>
          let patientId := ipi_patientId patientInfoData in
          if decide (sess_userRole s ≠ Some Doctor ∧ userId ≠ patientId)
          then
            (reply_message 403 "Unauthorized to create info for this patient",
             st)
          else
            let not_found := (reply_message 404 "Patient not found", st) in
            match getUser patientId users with
            | None => not_found
            | Some patient =>
                if decide (user_role patient ≠ Patient) then not_found
                else
                  match getPatientInfo patientId st with
                  | Some existingInfo =>
                      let '(patientInfo, st') :=
                        updatePatientInfo patientId
                          (mkPartialInsertPatientInfo (Some patientId)
                             (ipi_text patientInfoData))
                          now st in
                      (reply_json 201 patientInfo, st')
                  | None =>
                      let '(patientInfo, st') :=
                        createPatientInfo patientInfoData now st in
                      (reply_json 201 patientInfo, st')
                  end
            end
      end
  end.

End Patients.

(** ** The chat page's message cache and the presence socket of the client *)

(** The updater that the chat page passes to [setQueryData] when a
    [chat_message] event arrives: [oldMessages] is [None] when the cache
    holds no array. *)
Definition cache_chat_message (oldMessages : option (list Message))
    (message : Message) : list Message :=
  match oldMessages with
  | None => [message]
  | Some oldMessages =>
      let messageExists :=
        bool_decide (Exists (λ m, msg_id m = msg_id message) oldMessages) in
      if negb messageExists then oldMessages ++ [message] else oldMessages
  end.

(** The delay of the ["close"] listener of the presence socket
    ([AuthContext]): [Math.min(1000 * Math.pow(2, reconnectAttempts),
    30000)]. *)
Definition presence_reconnect_delay (reconnectAttempts : nat) : Z :=
  Z.min (1000 * 2 ^ Z.of_nat reconnectAttempts) 30000.

(** ** Invariants, step relations and sample states *)

(** The order that a comparator [key a - key b] sorts by. *)
Definition by_key {A : Type} (key : A → Z) (a b : A) : Prop := key a ≤ key b.

(** Invariant of the message map: one row per id, stored under the id that
    the row holds. *)
Definition messages_ok (st : MemStorage) : Prop :=
  JsMap.ok (messages st) ∧ Forall (λ e, msg_id e.2 = e.1) (messages st).

(** A connection to which the broadcast can deliver. *)
Definition live (sock : Conn → Socket) (ws : Conn) : Prop :=
  readyState (sock ws) = OPEN ∧ sendThrows (sock ws) = false.

Global Instance live_dec sock ws : Decision (live sock ws).
Proof. unfold live. apply _. Defined.

(** The users whose registered connection is not [live]. *)
Definition dead_users (sock : Conn → Socket) (h : Hub) : list Z :=
  (filter (λ e, ¬ live sock e.2) (clients h)).*1.

(** Both loops of the broadcast are instances of one loop body: evict the
    entry when [Q] holds of it, else send [ev] when [S] holds. *)
Definition visit (Q S : Z * Conn → Prop) `{!∀ e, Decision (Q e)}
    `{!∀ e, Decision (S e)} (ev : ServerEvent) (h : Hub) (e : Z * Conn)
    : Hub :=
  if decide (Q e) then evict e.1 h
  else if decide (S e) then push e.2 ev h else h.

(** [h'] differs from [h] in its outbox at most. *)
Definition only_sends (h h' : Hub) : Prop :=
  clients h' = clients h ∧ onlineUsers h' = onlineUsers h ∧
  storage h' = storage h.

(** The hub on which [register] runs the broadcast. *)
Definition registered (ws : Conn) (u : Z) (h : Hub) : Hub :=
  set_onlineUsers (JsSet.add u)
    (set_clients (JsMap.set u ws) (set_userId ws (Some u) h)).

(** The online set holds exactly the users of the registry. *)
Definition presence_ok (h : Hub) : Prop :=
  ∀ u, u ∈ onlineUsers h ↔ u ∈ JsMap.keys (clients h).

(** Invariant of the hub: one registry entry per user, presence agrees with
    the registry, and the message map is well formed. *)
Definition hub_ok (h : Hub) : Prop :=
  JsMap.ok (clients h) ∧ presence_ok h ∧ messages_ok (storage h).

(** The (doctor, patient) pair of a conversation row. *)
Definition conv_pair (conv : Conversation) : Z * Z :=
  (conv_doctorId conv, conv_patientId conv).

(** The number of conversation rows for a (doctor, patient) pair. *)
Definition conversation_rows (doctorId patientId : Z) (st : MemStorage)
    : nat :=
  length
    (filter (λ conv, conv_doctorId conv = doctorId ∧
                     conv_patientId conv = patientId)
       (JsMap.values (conversations st))).

(** One operation of the store. *)
Inductive store_op (st : MemStorage) : MemStorage → Prop :=
  | op_createUser insertUser :
      store_op st (createUser insertUser st).2
  | op_createConversation conversation now :
      store_op st (createConversation conversation now st).2
  | op_updateConversationLastMessage id timestamp :
      store_op st (updateConversationLastMessage id timestamp st).2
  | op_deleteConversation id userId :
      store_op st (deleteConversation id userId st).2
  | op_createMessage message now :
      store_op st (createMessage message now st).2
  | op_updateMessageStatus id status :
      store_op st (updateMessageStatus id status st).2
  | op_updateMessage id content :
      store_op st (updateMessage id content st).2
  | op_deleteMessage id :
      store_op st (deleteMessage id st).2.

(** One event of the socket server. *)
Inductive hub_step (h : Hub) : Hub → Prop :=
  | step_register sock ws userId :
      hub_step h (on_register sock ws userId h)
  | step_chat_message sock ws data tMsg tConv :
      hub_step h (on_chat_message sock ws data tMsg tConv h)
  | step_close sock ws :
      hub_step h (on_close sock ws h).

(** The seeded store with one more doctor, whose id (3) is greater than the
    id of the seeded patient (2). *)
Definition store_second_doctor : MemStorage :=
  (createUser (mkInsertUser "drlee" Doctor) new_MemStorage).2.

(** Doctor 1 writes to patient 2 at time 30, patient 2 answers with a row
    stamped 10 (the clock was set back); user 3 is a second doctor. *)
Definition store_chat : MemStorage :=
  let st1 :=
    (createMessage (mkInsertMessage 1 2 (JStr "Hello") JUndefined None) 30
       store_second_doctor).2 in
  (createMessage (mkInsertMessage 2 1 (JStr "Hi") JUndefined None) 10 st1).2.

(** Every connection is open and its [send] succeeds. *)
Definition all_open : Conn → Socket := λ _, mkSocket OPEN false.

(** Connection 1 is closing and has not emitted [close] yet; every other
    connection is open. *)
Definition sock_1_closing : Conn → Socket :=
  λ ws, if decide (ws = 1%nat) then mkSocket CLOSING false
        else mkSocket OPEN false.

(** The order of the conversation list: [a] comes before [b]. *)
Definition details_order (a b : ConversationDetails) : Prop :=
  cd_unreadCount b < cd_unreadCount a ∨
  (cd_unreadCount b = cd_unreadCount a ∧
   conv_lastMessageAt (cd_conv b) ≤ conv_lastMessageAt (cd_conv a)).

(** A close whose reconnect timer fires and whose new socket closes
    without an [open]: the state in which the next close finds the
    client. *)
Definition failed_attempt (c : ClientState) : ClientState :=
  timer_fired (close_listener c).2.

Definition failed_attempts (k : nat) (c : ClientState) : ClientState :=
  Nat.iter k failed_attempt c.

(** The sessions of the two seeded users. *)
Definition session_doctor : Session := mkSession (Some 1) (Some Doctor).
Definition session_patient : Session := mkSession (Some 2) (Some Patient).

(** The row of the seeded doctor in a user map built at time 0. *)
Definition row_drsmith : UserRow :=
  mkUserRow (mkUser 1 "drsmith" Doctor) (JStr "password123")
    "drsmith@example.com" "Dr. John Smith" (Some "Cardiology")
    (Some "https://images.unsplash.com/photo-1612349317150-e413f6a5b16d")
    (Some "Cardiologist with 10 years of experience") 0 None.

(** A registration form. *)
Definition body_register : JObject :=
  [("username", JStr "amy"); ("password", JStr "secret");
   ("email", JStr "amy@example.com"); ("fullName", JStr "Amy Lee");
   ("role", JStr "patient")].

(** Two metrics of patient 2 and one of doctor 1. *)
Definition store_metrics : Metrics.Store :=
  let st1 :=
    (Metrics.createHealthMetric
       (mkInsertHealthMetric 2 "heart_rate" "72") 10 Metrics.new_Store).2 in
  let st2 :=
    (Metrics.createHealthMetric
       (mkInsertHealthMetric 1 "heart_rate" "60") 20 st1).2 in
  (Metrics.createHealthMetric
     (mkInsertHealthMetric 2 "cholesterol" "180") 30 st2).2.

(** Patient information of patient 2 with a blood type only. *)
Definition info_patient2 : InsertPatientInfo :=
  mkInsertPatientInfo 2
    (λ c, match c with bloodType => Some (Some "A+") | _ => None end).

Definition store_patient2 : Patients.Store :=
  (Patients.createPatientInfo info_patient2 5 Patients.new_Store).2.

(** * Properties *)

(** ** [JsMap] *)

Section JsMapFacts.
Context {V : Type}.
Implicit Types (m : JsMap.t V) (k : Z) (v : V).

Lemma get_set_eq m k v : JsMap.get k (JsMap.set k v m) = Some v.
Proof.
  induction m as [|[k' v'] m IH]; simpl; repeat case_decide; simpl;
    repeat case_decide; congruence.
Qed.

Lemma get_set_ne m k k' v :
  k ≠ k' → JsMap.get k' (JsMap.set k v m) = JsMap.get k' m.
Proof.
  intros Hne. induction m as [|[k0 v0] m IH]; simpl; repeat case_decide;
    simpl; repeat case_decide; congruence.
Qed.

Lemma get_set m k k' v :
  JsMap.get k' (JsMap.set k v m) =
  if decide (k = k') then Some v else JsMap.get k' m.
Proof.
  case_decide; [subst; apply get_set_eq | by apply get_set_ne].
Qed.

Lemma get_Some_elem_of m k v : JsMap.get k m = Some v → (k, v) ∈ m.
Proof.
  induction m as [|[k' v'] m IH]; simpl; [done|].
  case_decide; intros Hg.
  - injection Hg as ->. subst. apply list_elem_of_here.
  - apply list_elem_of_further. auto.
Qed.

Lemma get_None_not_key m k : JsMap.get k m = None ↔ k ∉ JsMap.keys m.
Proof.
  unfold JsMap.keys. induction m as [|[k' v'] m IH]; csimpl.
  - split; [intros _; apply not_elem_of_nil | done].
  - rewrite not_elem_of_cons. case_decide; split; try done.
    + intros [? _]. done.
    + intros Hn. split; [done | by apply IH].
    + intros [_ Hn]. by apply IH.
Qed.

Lemma elem_of_get m k v : JsMap.ok m → (k, v) ∈ m → JsMap.get k m = Some v.
Proof.
  unfold JsMap.ok, JsMap.keys.
  induction m as [|[k' v'] m IH]; csimpl; intros Hnd Hin.
  - by apply elem_of_nil in Hin.
  - apply NoDup_cons in Hnd as [Hk' Hnd].
    apply elem_of_cons in Hin as [Heq | Hin].
    + injection Heq as -> ->. by rewrite decide_True.
    + rewrite decide_False; [by apply IH|].
      intros ->. apply Hk'. apply list_elem_of_fmap.
      by exists (k', v).
Qed.

Lemma get_delete m k k' :
  JsMap.get k' (JsMap.delete k m) =
  if decide (k = k') then None else JsMap.get k' m.
Proof.
  unfold JsMap.delete. induction m as [|[k0 v0] m IH].
  - simpl. by case_decide.
  - rewrite filter_cons. simpl. repeat case_decide; simpl;
      repeat case_decide; subst; try congruence.
Qed.

Lemma keys_set m k v :
  JsMap.keys (JsMap.set k v m) =
  if decide (k ∈ JsMap.keys m) then JsMap.keys m else JsMap.keys m ++ [k].
Proof.
  unfold JsMap.keys. induction m as [|[k' v'] m IH].
  - reflexivity.
  - cbn [JsMap.set]. destruct (decide (k = k')) as [->|Hk].
    + rewrite !fmap_cons. cbn [fst].
      rewrite decide_True by apply list_elem_of_here. done.
    + rewrite !fmap_cons, IH. cbn [fst].
      destruct (decide (k ∈ m.*1)) as [Hin | Hin].
      * rewrite decide_True by (by apply list_elem_of_further). done.
      * rewrite decide_False; [done|].
        rewrite elem_of_cons. intros [? | ?]; done.
Qed.

Lemma ok_set m k v : JsMap.ok m → JsMap.ok (JsMap.set k v m).
Proof.
  unfold JsMap.ok. rewrite keys_set. case_decide as Hin; [done|].
  intros Hnd. apply NoDup_app. split_and!; [done | | apply NoDup_singleton].
  intros x Hx Hx'. apply list_elem_of_singleton in Hx'. by subst.
Qed.

Lemma keys_filter (P : Z → Prop) `{!∀ x, Decision (P x)} m :
  JsMap.keys (filter (λ e, P e.1) m) = filter P (JsMap.keys m).
Proof.
  unfold JsMap.keys. induction m as [|[k v] m IH]; [done|].
  csimpl. rewrite !filter_cons. simpl. case_decide; csimpl; by rewrite IH.
Qed.

Lemma ok_filter (P : Z * V → Prop) `{!∀ x, Decision (P x)} m :
  JsMap.ok m → JsMap.ok (filter P m).
Proof.
  unfold JsMap.ok, JsMap.keys. induction m as [|[k v] m IH]; [done|].
  csimpl. rewrite !NoDup_cons. intros [Hk Hnd].
  rewrite filter_cons. case_decide; csimpl; [|by apply IH].
  apply NoDup_cons. split; [|by apply IH].
  intros Hin. apply Hk. apply list_elem_of_fmap in Hin as [e [-> He]].
  apply list_elem_of_filter in He as [_ He].
  by apply list_elem_of_fmap_2.
Qed.

Lemma ok_delete m k : JsMap.ok m → JsMap.ok (JsMap.delete k m).
Proof. apply ok_filter. Qed.

Lemma elem_of_values m v :
  v ∈ JsMap.values m ↔ ∃ k, (k, v) ∈ m.
Proof.
  unfold JsMap.values. rewrite list_elem_of_fmap. split.
  - intros [[k v'] [-> Hin]]. by exists k.
  - intros [k Hin]. by exists (k, v).
Qed.

End JsMapFacts.

(** ** [Array.prototype.sort] *)

Section ArraySortFacts.
Context {A : Type} (cmp : A → A → Z).

Lemma sort_insert_perm x l : sort_insert cmp x l ≡ₚ x :: l.
Proof.
  induction l as [|y l IH]; simpl; [done|].
  case_decide; [done|]. rewrite IH. apply Permutation_swap.
Qed.

Lemma array_sort_perm l : array_sort cmp l ≡ₚ l.
Proof.
  induction l as [|x l IH]; simpl; [done|].
  rewrite sort_insert_perm. by rewrite IH.
Qed.

Lemma elem_of_array_sort l x : x ∈ array_sort cmp l ↔ x ∈ l.
Proof. by rewrite array_sort_perm. Qed.

(** The comparators of the store subtract two sort keys. *)
Context (key : A → Z) (Hcmp : ∀ a b, cmp a b = key a - key b).

Lemma sort_insert_sorted x l :
  StronglySorted (by_key key) l →
  StronglySorted (by_key key) (sort_insert cmp x l).
Proof.
  induction 1 as [|y l Hl IH Hy]; simpl.
  - repeat constructor.
  - case_decide as Hxy; rewrite Hcmp in Hxy.
    + constructor; [by constructor|].
      constructor; [unfold by_key; lia|].
      eapply Forall_impl; [exact Hy|]. unfold by_key. intros z ?. lia.
    + constructor; [done|].
      rewrite sort_insert_perm. constructor; [unfold by_key; lia | done].
Qed.

Lemma array_sort_sorted l : StronglySorted (by_key key) (array_sort cmp l).
Proof.
  induction l as [|x l IH]; simpl; [constructor|].
  by apply sort_insert_sorted.
Qed.
End ArraySortFacts.

(** ** The store

    The message map is filled by [set(id, row)] with the [id] kept in the
    row, which is what [messages_ok] records. *)

Section StoreFacts.
Implicit Types (st : MemStorage) (id : Z).

Lemma Forall_set {V} (P : Z * V → Prop) (m : JsMap.t V) k v :
  P (k, v) → Forall P m → Forall P (JsMap.set k v m).
Proof.
  intros Hkv. induction 1 as [|[k' v'] m Hx Hm IH]; cbn [JsMap.set].
  - by repeat constructor.
  - case_decide; constructor; done.
Qed.

Lemma messages_ok_new : messages_ok new_MemStorage.
Proof. split; [apply NoDup_nil_2 | constructor]. Qed.

Lemma messages_ok_set st id message :
  msg_id message = id → messages_ok st →
  messages_ok (set_messages (JsMap.set id message) st).
Proof.
  intros Hid [Hnd Hall]. split; simpl.
  - by apply ok_set.
  - by apply Forall_set.
Qed.

Lemma messages_ok_filter st (P : Z * Message → Prop)
    `{!∀ x, Decision (P x)} :
  messages_ok st → messages_ok (set_messages (filter P) st).
Proof.
  intros [Hnd Hall]. split; simpl.
  - by apply ok_filter.
  - apply Forall_forall. intros e He.
    apply list_elem_of_filter in He as [_ He].
    by eapply Forall_forall in Hall.
Qed.

(** What a store operation leaves alone. *)
Lemma updateConversationLastMessage_users id timestamp st :
  users (updateConversationLastMessage id timestamp st).2 = users st.
Proof.
  unfold updateConversationLastMessage.
  by destruct (JsMap.get id (conversations st)).
Qed.

Lemma updateConversationLastMessage_messages id timestamp st :
  messages (updateConversationLastMessage id timestamp st).2 = messages st.
Proof.
  unfold updateConversationLastMessage.
  by destruct (JsMap.get id (conversations st)).
Qed.

Lemma createMessage_users message now st :
  users (createMessage message now st).2 = users st.
Proof.
  unfold createMessage.
  destruct (getConversationByUsers _ _ _) as [conversation|]; simpl.
  - by rewrite updateConversationLastMessage_users.
  - do 2 (destruct (getUser _ _); [|done]). done.
Qed.

Lemma createMessage_messages message now st :
  messages (createMessage message now st).2 =
  JsMap.set (currentMessageId st) (createMessage message now st).1
    (messages st).
Proof.
  unfold createMessage.
  destruct (getConversationByUsers _ _ _) as [conversation|]; simpl.
  - by rewrite updateConversationLastMessage_messages.
  - do 2 (destruct (getUser _ _); [|done]). done.
Qed.

Lemma createMessage_fst message now st :
  (createMessage message now st).1 =
  mkMessage (currentMessageId st) (im_fromUserId message)
    (im_toUserId message) (im_content message)
    (match im_imageData message with JUndefined => JNull | v => v end)
    (default Sent (im_status message)) now.
Proof.
  unfold createMessage.
  destruct (getConversationByUsers _ _ _) as [conversation|]; simpl;
    [done|].
  do 2 (destruct (getUser _ _); [|done]). done.
Qed.

Lemma createMessage_stored message now st :
  getMessage (currentMessageId st) (createMessage message now st).2 =
  Some (createMessage message now st).1.
Proof.
  unfold getMessage. rewrite createMessage_messages. apply get_set_eq.
Qed.

Lemma updateMessageStatus_get id status st id' :
  JsMap.get id' (messages (updateMessageStatus id status st).2) =
  if decide (id = id')
  then with_status status <$> JsMap.get id' (messages st)
  else JsMap.get id' (messages st).
Proof.
  unfold updateMessageStatus.
  destruct (JsMap.get id (messages st)) as [message|] eqn:Hget; simpl.
  - rewrite get_set. case_decide; [subst; by rewrite Hget | done].
  - case_decide; [subst; by rewrite Hget | done].
Qed.

Lemma updateMessageStatus_frame id status st :
  let st' := (updateMessageStatus id status st).2 in
  users st' = users st ∧ conversations st' = conversations st ∧
  JsMap.keys (messages st') = JsMap.keys (messages st).
Proof.
  unfold updateMessageStatus.
  destruct (JsMap.get id (messages st)) as [message|] eqn:Hget; simpl;
    [|done].
  split_and!; [done..|]. rewrite keys_set, decide_True; [done|].
  destruct (decide (id ∈ JsMap.keys (messages st))) as [|Hn]; [done|].
  apply get_None_not_key in Hn. congruence.
Qed.
End StoreFacts.

(** ** Message ordering *)

Lemma getMessagesBetweenUsers_sorted fromUserId toUserId st :
  StronglySorted (by_key msg_sentAt)
    (getMessagesBetweenUsers fromUserId toUserId st).
Proof. unfold getMessagesBetweenUsers. by apply array_sort_sorted. Qed.

Lemma elem_of_getMessagesBetweenUsers fromUserId toUserId st msg :
  msg ∈ getMessagesBetweenUsers fromUserId toUserId st ↔
  between fromUserId toUserId msg ∧ msg ∈ JsMap.values (messages st).
Proof.
  unfold getMessagesBetweenUsers.
  by rewrite elem_of_array_sort, list_elem_of_filter.
Qed.

Lemma authenticated_Some userId :
  userId ≠ 0 → authenticated (Some userId) = Some userId.
Proof. intros Hne. unfold authenticated, is_truthy. by rewrite bool_decide_true. Qed.

(** C9 (message ordering).  For a participant of a conversation, the
    messages route answers 200 with the list that
    [getMessagesBetweenUsers] computes for the doctor and the patient of the
    conversation; that list holds exactly the stored messages exchanged by
    the two users and is sorted non-decreasingly by [sentAt]. *)
Theorem C9_message_ordering st userId conversationId conversation :
  userId ≠ 0 →
  getConversation conversationId st = Some conversation →
  conv_doctorId conversation = userId ∨
    conv_patientId conversation = userId →
  ∃ l,
    (GET_conversation_messages (Some userId) (id_text (Some conversationId))
       st).1 = mkResponse 200 (json_messages l) ∧
    l = getMessagesBetweenUsers (conv_doctorId conversation)
          (conv_patientId conversation) st ∧
    StronglySorted (λ a b, msg_sentAt a ≤ msg_sentAt b) l ∧
    ∀ msg, msg ∈ l ↔
      between (conv_doctorId conversation) (conv_patientId conversation) msg ∧
      msg ∈ JsMap.values (messages st).
Proof.
  intros Hne Hconv Hpart. eexists. split_and!.
  - unfold GET_conversation_messages.
    rewrite authenticated_Some by done. cbn [parseInt]. rewrite Hconv.
    rewrite decide_False by (intros [? ?]; destruct Hpart; done).
    cbn [fst]. unfold getMessagesByConversation. rewrite Hconv. reflexivity.
  - reflexivity.
  - apply getMessagesBetweenUsers_sorted.
  - intros msg. apply elem_of_getMessagesBetweenUsers.
Qed.

(** ** Authorization of the REST routes *)

(** C7 (authorization rejections).  For an authenticated caller: deleting
    a conversation of which the caller is neither the doctor nor the patient,
    and editing or deleting a message whose stored sender is not the caller,
    are answered with 403 whatever the request body is, and the store is
    returned unchanged. *)
Theorem C7_authorization_rejections st userId id key :
  userId ≠ 0 →
  parseInt id = Some key →
  (∀ conversation,
     getConversation key st = Some conversation →
     conv_doctorId conversation ≠ userId →
     conv_patientId conversation ≠ userId →
     res_status (DELETE_conversation (Some userId) id st).1 = 403 ∧
     (DELETE_conversation (Some userId) id st).2 = st) ∧
  (∀ message,
     getMessage key st = Some message →
     msg_fromUserId message ≠ userId →
     (∀ body,
        res_status (PATCH_message (Some userId) id body st).1 = 403 ∧
        (PATCH_message (Some userId) id body st).2 = st) ∧
     res_status (DELETE_message (Some userId) id st).1 = 403 ∧
     (DELETE_message (Some userId) id st).2 = st).
Proof.
  intros Hne Hid. split.
  - intros conversation Hconv Hd Hp. unfold DELETE_conversation.
    rewrite authenticated_Some, Hid, Hconv by done.
    by rewrite decide_True.
  - intros message Hmsg Hfrom. split; [intros body|].
    + unfold PATCH_message.
      rewrite authenticated_Some, Hid, Hmsg by done.
      by rewrite decide_True.
    + unfold DELETE_message.
      rewrite authenticated_Some, Hid, Hmsg by done.
      by rewrite decide_True.
Qed.

(** ** Message creation over REST *)

Lemma obj_get_set_eq k v o : obj_get k (obj_set k v o) = v.
Proof.
  induction o as [|[k' v'] o IH]; simpl.
  - by rewrite String.eqb_refl.
  - destruct (String.eqb k k') eqn:Hk; simpl; by rewrite ?Hk, ?String.eqb_refl.
Qed.

Lemma obj_get_set_ne k k' v o :
  k ≠ k' → obj_get k' (obj_set k v o) = obj_get k' o.
Proof.
  intros Hne. apply String.eqb_neq in Hne as Hkk'.
  assert (String.eqb k' k = false) as Hk'k.
  { apply String.eqb_neq. congruence. }
  induction o as [|[k0 v0] o IH]; simpl.
  - by rewrite Hk'k.
  - destruct (String.eqb k k0) eqn:Hk; simpl.
    + apply String.eqb_eq in Hk as <-. by rewrite Hk'k.
    + by rewrite IH.
Qed.

(** What the message schema accepts, read back from its result. *)
Lemma insertMessageSchema_parse_Some o messageData :
  insertMessageSchema_parse o = Some messageData →
  obj_get "fromUserId" o = JNum (im_fromUserId messageData) ∧
  parse_status (obj_get "status" o) = Some (im_status messageData).
Proof.
  unfold insertMessageSchema_parse.
  destruct (obj_get "fromUserId" o); try done.
  destruct (obj_get "toUserId" o); try done.
  destruct (obj_get "content" o); try done.
  destruct (obj_get "imageData" o); try done;
    destruct (parse_status _); try done; by intros [= <-].
Qed.

(** C3 (REST message creation), amended.  When the payload passes
    validation, the route answers 201 with the message it has stored; the
    sender of that message is the session's user whatever [fromUserId] the
    body carried; its status is the [status] of the body when the body has
    one, and [sent] when it has none. *)
Theorem C3_post_message st userId body now messageData :
  userId ≠ 0 →
  insertMessageSchema_parse (obj_set "fromUserId" (JNum userId) body) =
    Some messageData →
  ∃ m st',
    POST_messages (Some userId) body now st =
      (mkResponse 201 (json_message m), st') ∧
    getMessage (msg_id m) st' = Some m ∧
    msg_fromUserId m = userId ∧
    (obj_get "status" body = JUndefined → msg_status m = Sent) ∧
    (∀ status, parse_status (obj_get "status" body) = Some (Some status) →
               msg_status m = status).
Proof.
  intros Hne Hparse.
  exists (createMessage messageData now st).1,
         (createMessage messageData now st).2.
  apply insertMessageSchema_parse_Some in Hparse as Hfields.
  destruct Hfields as [Hfrom Hstatus].
  rewrite obj_get_set_eq in Hfrom. injection Hfrom as Hfrom.
  rewrite obj_get_set_ne in Hstatus by done.
  split_and!.
  - unfold POST_messages. rewrite authenticated_Some, Hparse by done.
    by destruct (createMessage messageData now st).
  - rewrite createMessage_fst at 1. cbn [msg_id]. apply createMessage_stored.
  - by rewrite createMessage_fst.
  - intros Hundef. rewrite Hundef in Hstatus. injection Hstatus as Hs.
    by rewrite createMessage_fst, <- Hs.
  - intros status Hs. rewrite Hs in Hstatus. injection Hstatus as Hs'.
    by rewrite createMessage_fst, <- Hs'.
Qed.

(** ** The read side effect of the messages route *)

Lemma mark_read_get l st k :
  JsMap.get k (messages (mark_read l st)) =
  if decide (k ∈ msg_id <$> l)
  then with_status Read <$> JsMap.get k (messages st)
  else JsMap.get k (messages st).
Proof.
  unfold mark_read. revert st.
  induction l as [|message l IH]; intros st.
  - reflexivity.
  - cbn [foldl]. rewrite IH, updateMessageStatus_get, fmap_cons.
    destruct (decide (msg_id message = k)) as [Heq | Hne].
    + rewrite (decide_True (P := k ∈ msg_id message :: _))
        by (rewrite Heq; apply list_elem_of_here).
      case_decide; [|done].
      by destruct (JsMap.get k (messages st)).
    + destruct (decide (k ∈ msg_id <$> l)) as [Hin | Hin].
      * rewrite decide_True; [done | by apply list_elem_of_further].
      * rewrite decide_False; [done|].
        rewrite elem_of_cons. intros [? | ?]; done.
Qed.

Lemma mark_read_frame l st :
  users (mark_read l st) = users st ∧
  conversations (mark_read l st) = conversations st ∧
  JsMap.keys (messages (mark_read l st)) = JsMap.keys (messages st).
Proof.
  unfold mark_read. revert st.
  induction l as [|message l IH]; intros st; [done|].
  cbn [foldl]. destruct (IH (updateMessageStatus (msg_id message) Read st).2)
    as (-> & -> & ->).
  apply updateMessageStatus_frame.
Qed.

(** The identifiers of the rows that the route marks. *)
Lemma marked_ids st userId a b k msg :
  messages_ok st →
  JsMap.get k (messages st) = Some msg →
  k ∈ msg_id <$>
        filter (λ msg, msg_toUserId msg = userId ∧ msg_status msg ≠ Read)
          (getMessagesBetweenUsers a b st) ↔
  between a b msg ∧ msg_toUserId msg = userId ∧ msg_status msg ≠ Read.
Proof.
  intros [Hnd Hall] Hget.
  assert (msg_id msg = k) as Hk.
  { apply get_Some_elem_of in Hget.
    by apply (proj1 (Forall_forall _ _) Hall) in Hget. }
  rewrite list_elem_of_fmap. split.
  - intros (msg' & -> & Hin).
    apply list_elem_of_filter in Hin as [[Hto Hst] Hin].
    apply elem_of_getMessagesBetweenUsers in Hin as [Hbetween Hin].
    apply elem_of_values in Hin as [k' Hin].
    assert (msg_id msg' = k') as Hk'
      by apply (proj1 (Forall_forall _ _) Hall _ Hin).
    apply elem_of_get in Hin; [|done].
    rewrite Hk' in Hget. by simplify_eq.
  - intros (Hbetween & Hto & Hst). exists msg. split; [done|].
    apply list_elem_of_filter. split; [done|].
    apply elem_of_getMessagesBetweenUsers. split; [done|].
    apply elem_of_values. exists k. by apply get_Some_elem_of.
Qed.

(** C6 (read side effect with frame).  After a participant [userId] of a
    conversation has fetched its messages, every stored message exchanged by
    the doctor and the patient of the conversation and addressed to [userId]
    has status [read]; such a message differs from what it was in its status
    only, and every other stored message is what it was.  Users,
    conversations and the keys of the message map are unchanged. *)
Theorem C6_read_side_effect st userId id conversationId conversation :
  messages_ok st →
  userId ≠ 0 →
  parseInt id = Some conversationId →
  getConversation conversationId st = Some conversation →
  conv_doctorId conversation = userId ∨
    conv_patientId conversation = userId →
  let st' := (GET_conversation_messages (Some userId) id st).2 in
  let in_conversation :=
    between (conv_doctorId conversation) (conv_patientId conversation) in
  users st' = users st ∧
  conversations st' = conversations st ∧
  JsMap.keys (messages st') = JsMap.keys (messages st) ∧
  ∀ k msg,
    JsMap.get k (messages st) = Some msg →
    ∃ msg',
      JsMap.get k (messages st') = Some msg' ∧
      msg' = with_status (msg_status msg') msg ∧
      (in_conversation msg → msg_toUserId msg = userId →
       msg_status msg' = Read) ∧
      (¬ (in_conversation msg ∧ msg_toUserId msg = userId) → msg' = msg).
Proof.
  intros Hok Hne Hid Hconv Hpart st' in_conversation.
  assert (st' =
    mark_read
      (filter (λ msg, msg_toUserId msg = userId ∧ msg_status msg ≠ Read)
         (getMessagesBetweenUsers (conv_doctorId conversation)
            (conv_patientId conversation) st)) st) as ->.
  { unfold st', GET_conversation_messages.
    rewrite authenticated_Some by done.
    destruct id as [|parsed]; [done|]. simpl in Hid. subst parsed.
    cbn [parseInt]. rewrite Hconv.
    rewrite decide_False by (intros [? ?]; destruct Hpart; done).
    cbn [snd]. unfold getMessagesByConversation. by rewrite Hconv. }
  split_and!; [apply mark_read_frame..|].
  intros k msg Hget. rewrite mark_read_get, Hget.
  pose proof (marked_ids st userId (conv_doctorId conversation)
                (conv_patientId conversation) k msg Hok Hget) as Hids.
  case_decide as Hin.
  - apply Hids in Hin as (Hbetween & Hto & Hst).
    exists (with_status Read msg). split_and!; try done.
    intros Hnot. destruct Hnot. done.
  - exists msg. split_and!; try done.
    + by destruct msg.
    + intros Hbetween Hto.
      destruct (decide (msg_status msg = Read)) as [|Hst]; [done|].
      destruct Hin. apply Hids. done.
Qed.

(** ** The presence broadcast *)

Section ListFacts.
Context {A : Type}.

Lemma filter_ext_in (P Q : A → Prop) `{!∀ x, Decision (P x)}
    `{!∀ x, Decision (Q x)} (l : list A) :
  (∀ x, x ∈ l → P x ↔ Q x) → filter P l = filter Q l.
Proof.
  induction l as [|x l IH]; intros Hiff; [done|].
  rewrite !filter_cons.
  rewrite IH by (intros y Hy; apply Hiff; by apply list_elem_of_further).
  apply decide_ext, Hiff, list_elem_of_here.
Qed.

Lemma filter_all (P : A → Prop) `{!∀ x, Decision (P x)} (l : list A) :
  (∀ x, x ∈ l → P x) → filter P l = l.
Proof.
  induction l as [|x l IH]; intros Hall; [done|].
  rewrite filter_cons_True by apply Hall, list_elem_of_here.
  rewrite IH; [done|]. intros y Hy. by apply Hall, list_elem_of_further.
Qed.

Lemma filter_none (P : A → Prop) `{!∀ x, Decision (P x)} (l : list A) :
  (∀ x, x ∈ l → ¬ P x) → filter P l = [].
Proof.
  induction l as [|x l IH]; intros Hall; [done|].
  rewrite filter_cons_False by apply Hall, list_elem_of_here.
  apply IH. intros y Hy. by apply Hall, list_elem_of_further.
Qed.
End ListFacts.

Section JsMapFilter.
Context {V : Type}.
Implicit Types (m : JsMap.t V) (k : Z) (v : V).

Lemma entry_unique m k v v' :
  JsMap.ok m → (k, v) ∈ m → (k, v') ∈ m → v = v'.
Proof.
  intros Hok H1 H2. apply (elem_of_get _ _ _ Hok) in H1, H2. congruence.
Qed.

(** Deleting the keys of the entries that satisfy [Q] keeps the entries
    that do not. *)
Lemma filter_not_keys (Q : Z * V → Prop) `{!∀ x, Decision (Q x)} m :
  JsMap.ok m →
  filter (λ e, e.1 ∉ (filter Q m).*1) m = filter (λ e, ¬ Q e) m.
Proof.
  intros Hok. apply filter_ext_in. intros [k v] Hin. cbn [fst]. split.
  - intros Hk HQ. apply Hk. apply list_elem_of_fmap. exists (k, v).
    split; [done|]. by apply list_elem_of_filter.
  - intros HQ Hk. apply list_elem_of_fmap in Hk as ([k' v'] & Hkk' & Hin').
    cbn [fst] in Hkk'. subst k'.
    apply list_elem_of_filter in Hin' as [HQ' Hin'].
    by rewrite (entry_unique m k v v' Hok Hin Hin') in HQ.
Qed.

Lemma get_filter (P : V → Prop) `{!∀ x, Decision (P x)} m k :
  JsMap.ok m →
  JsMap.get k (filter (λ e, P e.2) m) =
  match JsMap.get k m with
  | Some v => if decide (P v) then Some v else None
  | None => None
  end.
Proof.
  intros Hok.
  destruct (JsMap.get k m) as [v|] eqn:Hget.
  - apply get_Some_elem_of in Hget as Hin. case_decide as HP.
    + apply elem_of_get; [by apply ok_filter|].
      by apply list_elem_of_filter.
    + apply get_None_not_key. unfold JsMap.keys. intros Hk.
      apply list_elem_of_fmap in Hk as ([k' v'] & Hkk' & Hin').
      cbn [fst] in Hkk'. subst k'.
      apply list_elem_of_filter in Hin' as [HP' Hin'].
      by rewrite (entry_unique m k v v' Hok Hin Hin') in HP.
  - apply get_None_not_key. apply get_None_not_key in Hget.
    unfold JsMap.keys in *. intros Hk. apply Hget.
    apply list_elem_of_fmap in Hk as (e & -> & Hin').
    apply list_elem_of_filter in Hin' as [_ Hin'].
    by apply list_elem_of_fmap_2.
Qed.
End JsMapFilter.

Section Broadcast.
Variable sock : Conn → Socket.

Lemma foldl_visit (Q S : Z * Conn → Prop) `{!∀ e, Decision (Q e)}
    `{!∀ e, Decision (S e)} ev l h :
  foldl (visit Q S ev) h l =
  mkHub (filter (λ e, e.1 ∉ (filter Q l).*1) (clients h))
    (filter (λ u, u ∉ (filter Q l).*1) (onlineUsers h))
    (userIdOf h)
    (outbox h ++ ((λ e, (e.2, ev)) <$> filter (λ e, ¬ Q e ∧ S e) l))
    (storage h).
Proof.
  revert h. induction l as [|e l IH]; intros h.
  - cbn [foldl]. rewrite !filter_nil, fmap_nil, app_nil_r.
    rewrite !filter_all by (intros; apply not_elem_of_nil).
    by destruct h.
  - cbn [foldl]. rewrite IH. unfold visit. rewrite !filter_cons.
    destruct (decide (Q e)) as [HQ | HQ].
    + rewrite decide_False by (by intros [? _]).
      unfold evict, JsMap.delete, JsSet.delete. cbn.
      rewrite !list_filter_filter. f_equal.
      * apply list_filter_iff. intros x. rewrite not_elem_of_cons.
        tauto.
      * apply list_filter_iff. intros x. rewrite not_elem_of_cons.
        tauto.
    + destruct (decide (S e)) as [HS | HS].
      * rewrite decide_True by done. cbn. by rewrite <- app_assoc.
      * rewrite decide_False by (by intros [_ ?]). done.
Qed.

Lemma sweep_entry_visit h e :
  sweep_entry sock h e =
  visit (λ e, readyState (sock e.2) ≠ OPEN) (λ _, False)
    (online_status []) h e.
Proof.
  unfold sweep_entry, visit. case_decide; [done|].
  by rewrite decide_False by tauto.
Qed.

Lemma send_entry_visit onlineUsersList h e :
  send_entry sock onlineUsersList h e =
  visit
    (λ e, readyState (sock e.2) = OPEN ∧ sendThrows (sock e.2) = true)
    (λ e, live sock e.2) (online_status onlineUsersList) h e.
Proof.
  unfold send_entry, visit.
  destruct (sendThrows (sock e.2)) eqn:Ht; repeat case_decide; try done;
    unfold live in *; exfalso; rewrite ?Ht in *; intuition congruence.
Qed.

Lemma foldl_ext_fun {B C} (f g : B → C → B) l b :
  (∀ b c, f b c = g b c) → foldl f b l = foldl g b l.
Proof.
  intros Hfg. revert b. induction l as [|c l IH]; intros b; [done|].
  cbn [foldl]. by rewrite Hfg, IH.
Qed.

(** The broadcast in closed form.  The entries whose connection is not
    [live] leave the registry, their users leave the online set, and every
    remaining connection is sent the list that the online set held when
    the broadcast started. *)
Lemma broadcastOnlineStatus_spec h :
  JsMap.ok (clients h) →
  broadcastOnlineStatus sock h =
  mkHub (filter (λ e, live sock e.2) (clients h))
    (filter (λ u, u ∉ dead_users sock h) (onlineUsers h))
    (userIdOf h)
    (outbox h ++
     ((λ e, (e.2, online_status (onlineUsers h))) <$>
        filter (λ e, live sock e.2) (clients h)))
    (storage h).
Proof.
  intros Hok. unfold broadcastOnlineStatus, JsSet.to_list.
  rewrite (foldl_ext_fun _ _ _ _ sweep_entry_visit).
  rewrite (foldl_ext_fun _ _ _ _
             (send_entry_visit (onlineUsers h))).
  rewrite (foldl_visit _ _ _ (clients h) h). cbn [clients].
  rewrite foldl_visit. cbn.
  rewrite (filter_not_keys _ (clients h)) by done.
  assert (∀ ws, ¬ (readyState (sock ws) = OPEN ∧ sendThrows (sock ws) = true)
                ∧ ¬ readyState (sock ws) ≠ OPEN ↔ live sock ws) as Hlive.
  { intros ws. unfold live.
    destruct (readyState (sock ws)); destruct (sendThrows (sock ws));
      intuition congruence. }
  f_equal.
  - rewrite filter_not_keys by (by apply ok_filter).
    rewrite list_filter_filter. apply list_filter_iff.
    intros e. apply Hlive.
  - rewrite list_filter_filter. apply list_filter_iff. intros u.
    unfold dead_users. rewrite !list_elem_of_fmap. split.
    + intros [Hn2 Hn1] (e & -> & He).
      apply list_elem_of_filter in He as [Hdead He].
      destruct (decide (readyState (sock e.2) = OPEN)) as [Ho | Ho].
      * apply Hn2. exists e. split; [done|].
        rewrite !list_elem_of_filter. split_and!; try done; [|tauto].
        unfold live in Hdead. destruct (sendThrows (sock e.2)); tauto.
      * apply Hn1. exists e. split; [done|].
        by rewrite list_elem_of_filter.
    + intros Hn. split; intros (e & -> & He); apply Hn; exists e;
        (split; [done|]); rewrite !list_elem_of_filter in He;
        rewrite list_elem_of_filter; unfold live.
      * destruct He as [[_ Ht] [_ He]]. split; [|done].
        intros [_ Hf]. congruence.
      * destruct He as [Hc He]. split; [|done]. tauto.
  - rewrite (filter_none _ (clients h)) by (intros ? _ [_ []]).
    rewrite fmap_nil, app_nil_r. do 2 f_equal.
    rewrite list_filter_filter. apply list_filter_iff.
    intros e. rewrite <- (Hlive e.2). unfold live. tauto.
Qed.
End Broadcast.

(** ** Registration *)

Section HubFacts.
Implicit Types (h : Hub) (ws : Conn) (u : Z).

Lemma broadcastOnlineStatus_frame sock h :
  userIdOf (broadcastOnlineStatus sock h) = userIdOf h ∧
  storage (broadcastOnlineStatus sock h) = storage h.
Proof.
  unfold broadcastOnlineStatus.
  rewrite (foldl_ext_fun _ _ _ _ (sweep_entry_visit sock)).
  rewrite (foldl_ext_fun _ _ _ _
             (send_entry_visit sock (JsSet.to_list (onlineUsers h)))).
  by rewrite !foldl_visit.
Qed.

Lemma is_truthy_Some u : u ≠ 0 → is_truthy (Some u) = true.
Proof. intros. unfold is_truthy. by apply bool_decide_eq_true. Qed.

Lemma on_register_unfold sock ws u h :
  u ≠ 0 →
  on_register sock ws (Some u) h =
  broadcastOnlineStatus sock (registered ws u h).
Proof. intros Hu. unfold on_register. by rewrite is_truthy_Some. Qed.

Lemma elem_of_set_inv {V} (m : JsMap.t V) k v k' v' :
  JsMap.ok m → (k', v') ∈ JsMap.set k v m →
  (k' = k ∧ v' = v) ∨ (k' ≠ k ∧ (k', v') ∈ m).
Proof.
  intros Hok Hin. apply elem_of_get in Hin; [|by apply ok_set].
  rewrite get_set in Hin. case_decide as Hk.
  - left. by simplify_eq.
  - right. split; [done|]. by apply get_Some_elem_of.
Qed.

Lemma on_register_clients sock ws u h :
  u ≠ 0 → JsMap.ok (clients h) →
  clients (on_register sock ws (Some u) h) =
  filter (λ e, live sock e.2) (JsMap.set u ws (clients h)).
Proof.
  intros Hu Hok. rewrite on_register_unfold by done.
  rewrite broadcastOnlineStatus_spec; [done|]. by apply ok_set.
Qed.

Lemma on_register_ok sock ws userId h :
  JsMap.ok (clients h) → JsMap.ok (clients (on_register sock ws userId h)).
Proof.
  intros Hok. destruct userId as [u|]; [|done].
  destruct (decide (u = 0)) as [-> | Hu]; [done|].
  rewrite on_register_clients by done. by apply ok_filter, ok_set.
Qed.

Lemma on_register_get sock ws u h :
  u ≠ 0 → JsMap.ok (clients h) → live sock ws →
  JsMap.get u (clients (on_register sock ws (Some u) h)) = Some ws.
Proof.
  intros Hu Hok Hlive. rewrite on_register_clients by done.
  rewrite (get_filter (live sock)) by (by apply ok_set).
  rewrite get_set_eq. by rewrite decide_True.
Qed.

(** An entry of the registry after [register] is the new one or was there
    before. *)
Lemma on_register_entry sock ws u h v c :
  u ≠ 0 → JsMap.ok (clients h) →
  (v, c) ∈ clients (on_register sock ws (Some u) h) →
  (v = u ∧ c = ws) ∨ (v ≠ u ∧ (v, c) ∈ clients h).
Proof.
  intros Hu Hok Hin. rewrite on_register_clients in Hin by done.
  apply list_elem_of_filter in Hin as [_ Hin].
  by apply elem_of_set_inv.
Qed.

Lemma on_register_userIdOf sock ws userId h c :
  userIdOf (on_register sock ws userId h) c =
  if decide (c = ws) then userId else userIdOf h c.
Proof.
  unfold on_register. destruct userId as [u|]; [|done].
  destruct (is_truthy (Some u)); [|done].
  by rewrite (proj1 (broadcastOnlineStatus_frame _ _)).
Qed.

(** The events that a broadcast adds to the outbox. *)
Lemma broadcastOnlineStatus_outbox sock h :
  JsMap.ok (clients h) →
  outbox (broadcastOnlineStatus sock h) =
  outbox h ++
  ((λ e, (e.2, online_status (onlineUsers h))) <$>
     filter (λ e, live sock e.2) (clients h)).
Proof. intros Hok. by rewrite broadcastOnlineStatus_spec. Qed.
End HubFacts.

(** C5 (registry uniqueness, last registration wins).  Let [u] be a user
    identifier (non-zero), [c1] and [c2] two distinct connections, [c1]
    registered for no other user.  After [register(u, c1)] and then
    [register(u, c2)], with [c2] open, the registry maps [u] to [c2] and has
    no other entry for [u]; the next presence broadcast sends the online list
    to [c2] and sends nothing to [c1]. *)
Theorem C5_last_registration_wins sock1 sock2 sock3 h u c1 c2 :
  JsMap.ok (clients h) →
  u ≠ 0 →
  c1 ≠ c2 →
  (∀ v, (v, c1) ∈ clients h → v = u) →
  live sock2 c2 →
  live sock3 c2 →
  let h2 := on_register sock2 c2 (Some u) (on_register sock1 c1 (Some u) h) in
  JsMap.get u (clients h2) = Some c2 ∧
  (∀ c, (u, c) ∈ clients h2 → c = c2) ∧
  ∃ sent,
    outbox (broadcastOnlineStatus sock3 h2) = outbox h2 ++ sent ∧
    (c2, online_status (onlineUsers h2)) ∈ sent ∧
    ∀ ev, (c1, ev) ∉ sent.
Proof.
  intros Hok Hu Hc Hc1 Hlive2 Hlive3 h2.
  pose proof (on_register_ok sock1 c1 (Some u) h Hok) as Hok1.
  pose proof (on_register_ok sock2 c2 (Some u) _ Hok1) as Hok2.
  assert (JsMap.get u (clients h2) = Some c2) as Hget
    by (by apply on_register_get).
  assert (∀ v c, (v, c) ∈ clients h2 → c = c1 → False) as Hno_c1.
  { intros v c Hin ->.
    apply on_register_entry in Hin as [[_ ?] | [Hv Hin]]; try done.
    apply on_register_entry in Hin as [[? _] | [_ Hin]]; try done.
    apply Hc1 in Hin. done. }
  split_and!; [done | |].
  - intros c Hin. apply (elem_of_get _ _ _ Hok2) in Hin.
    unfold h2 in Hget. congruence.
  - eexists. split; [by apply broadcastOnlineStatus_outbox|]. split.
    + apply list_elem_of_fmap. exists (u, c2). split; [done|].
      apply list_elem_of_filter. split; [done|].
      by apply get_Some_elem_of.
    + intros ev Hin. apply list_elem_of_fmap in Hin as ([v c] & Heq & Hin).
      apply list_elem_of_filter in Hin as [_ Hin]. cbn in Heq.
      injection Heq as Heq _. by eapply Hno_c1.
Qed.

(** ** Closing a superseded connection *)

Section CloseFacts.
Implicit Types (h : Hub) (ws : Conn) (u : Z).

Lemma elem_of_JsSet_add u v (s : JsSet.t) :
  v ∈ JsSet.add u s ↔ v = u ∨ v ∈ s.
Proof.
  unfold JsSet.add. case_decide as Hin.
  - split; [by right | intros [-> | ?]; done].
  - rewrite elem_of_app, list_elem_of_singleton. tauto.
Qed.

Lemma elem_of_JsSet_delete u v (s : JsSet.t) :
  v ∈ JsSet.delete u s ↔ v ≠ u ∧ v ∈ s.
Proof. unfold JsSet.delete. by rewrite list_elem_of_filter. Qed.

Lemma elem_of_JsMap_delete {V} (m : JsMap.t V) k e :
  e ∈ JsMap.delete k m ↔ e.1 ≠ k ∧ e ∈ m.
Proof. unfold JsMap.delete. by rewrite list_elem_of_filter. Qed.

(** The two [close] listeners of a connection whose [userId] is [u]. *)
Lemma on_close_unfold sock ws u h :
  userIdOf h ws = Some u → u ≠ 0 →
  on_close sock ws h =
  set_clients (JsMap.delete u) (broadcastOnlineStatus sock (evict u h)).
Proof.
  intros Hws Hu. unfold on_close. rewrite Hws, is_truthy_Some by done.
  rewrite (proj1 (broadcastOnlineStatus_frame _ _)). cbn [evict userIdOf
    set_onlineUsers set_clients]. by rewrite Hws, is_truthy_Some.
Qed.

Lemma on_register_online sock ws u h :
  u ≠ 0 → JsMap.ok (clients h) → live sock ws →
  u ∈ onlineUsers (on_register sock ws (Some u) h).
Proof.
  intros Hu Hok Hlive. rewrite on_register_unfold by done.
  rewrite broadcastOnlineStatus_spec by (by apply ok_set).
  cbn [onlineUsers registered set_onlineUsers set_clients set_userId].
  apply list_elem_of_filter. split; [|apply elem_of_JsSet_add; by left].
  unfold dead_users. cbn [clients]. intros Hdead.
  apply list_elem_of_fmap in Hdead as ([v c] & Hv & Hin).
  cbn in Hv. subst v.
  apply list_elem_of_filter in Hin as [Hnot Hin].
  apply elem_of_set_inv in Hin as [[_ ->] | [? _]]; done.
Qed.
End CloseFacts.

(** C10 (the close of a superseded connection unregisters the live one).
    User [u] registers [c1] and then [c2], which replaces [c1] in the
    registry.  When [c1]'s close event fires while [c2] is still open, the
    close listeners remove the entry of [u] -- which maps to [c2] -- and
    remove [u] from the online set; the broadcast they run sends the online
    list without [u] to every connection that stays registered and sends
    nothing to [c2].  A new [register] from [c2] restores the entry and the
    membership. *)
Theorem C10_superseded_close sock1 sock2 sock3 sock4 h u c1 c2 :
  JsMap.ok (clients h) →
  u ≠ 0 →
  c1 ≠ c2 →
  (∀ v, (v, c2) ∈ clients h → v = u) →
  live sock2 c2 →
  live sock3 c2 →
  live sock4 c2 →
  let h2 := on_register sock2 c2 (Some u) (on_register sock1 c1 (Some u) h) in
  let h3 := on_close sock3 c1 h2 in
  let h4 := on_register sock4 c2 (Some u) h3 in
  JsMap.get u (clients h2) = Some c2 ∧
  JsMap.get u (clients h3) = None ∧
  (u ∉ onlineUsers h3) ∧
  (∃ sent,
     outbox h3 = outbox h2 ++ sent ∧
     (∀ v c, (v, c) ∈ clients h3 →
        (c, online_status (JsSet.delete u (onlineUsers h2))) ∈ sent) ∧
     ∀ c ev, (c, ev) ∈ sent →
       c ≠ c2 ∧ ∃ l, ev = online_status l ∧ u ∉ l) ∧
  JsMap.get u (clients h4) = Some c2 ∧
  u ∈ onlineUsers h4.
Proof.
  intros Hok Hu Hc Hc2 Hlive2 Hlive3 Hlive4 h2 h3 h4.
  pose proof (on_register_ok sock1 c1 (Some u) h Hok) as Hok1.
  pose proof (on_register_ok sock2 c2 (Some u) _ Hok1) as Hok2.
  fold h2 in Hok2.
  assert (userIdOf h2 c1 = Some u) as Hid.
  { unfold h2. rewrite !on_register_userIdOf.
    rewrite decide_False by done. by rewrite decide_True. }
  assert (h3 = set_clients (JsMap.delete u)
                 (broadcastOnlineStatus sock3 (evict u h2))) as Hh3
    by (by apply on_close_unfold).
  assert (JsMap.ok (clients (evict u h2))) as Hok_evict
    by (by apply ok_delete).
  rewrite broadcastOnlineStatus_spec in Hh3 by done.
  unfold set_clients in Hh3.
  cbn [evict set_clients set_onlineUsers clients onlineUsers userIdOf outbox
       storage] in Hh3.
  assert (JsMap.ok (clients h3)) as Hok3.
  { rewrite Hh3. cbn [clients]. by apply ok_delete, ok_filter, ok_delete. }
  split_and!.
  - by apply on_register_get.
  - rewrite Hh3. cbn [clients]. rewrite get_delete. by rewrite decide_True.
  - rewrite Hh3. cbn [onlineUsers]. intros Hin.
    apply list_elem_of_filter in Hin as [_ Hin].
    apply elem_of_JsSet_delete in Hin as [? _]. done.
  - eexists. split; [rewrite Hh3; cbn [outbox]; reflexivity|]. split.
    { intros v c Hin. rewrite Hh3 in Hin. cbn [clients] in Hin.
      apply elem_of_JsMap_delete in Hin as [_ Hin].
      apply list_elem_of_fmap. by exists (v, c). }
    intros c ev Hin.
    apply list_elem_of_fmap in Hin as ([v c'] & Heq & Hin).
    cbn in Heq. injection Heq as -> ->.
    apply list_elem_of_filter in Hin as [_ Hin].
    apply elem_of_JsMap_delete in Hin as [Hv Hin]. cbn in Hv. split.
    + intros ->. unfold h2 in Hin.
      apply on_register_entry in Hin as [[? _] | [_ Hin]]; try done.
      apply on_register_entry in Hin as [[? _] | [_ Hin]]; try done.
      apply Hc2 in Hin. done.
    + eexists. split; [done|]. intros Hin'.
      apply elem_of_JsSet_delete in Hin' as [? _]. done.
  - by apply on_register_get.
  - by apply on_register_online.
Qed.

(** ** The chat-message router *)

Section RouterFacts.
Variable sock : Conn → Socket.

Lemma try_send_frame ws ev h h' :
  try_send sock ws ev h = Some h' → only_sends h h'.
Proof.
  unfold try_send. destruct (sendThrows (sock ws)); [done|].
  by intros [= <-].
Qed.

(** The fan-out changes nothing but the outbox. *)
Lemma fan_out_frame ws actualFromUserId actualToUserId newMessage h :
  only_sends h (fan_out sock ws actualFromUserId actualToUserId newMessage h).
Proof.
  unfold fan_out.
  repeat (first [ case_decide | case_match ]); simplify_eq;
    repeat match goal with
           | Hs : try_send _ _ _ _ = Some _ |- _ =>
               apply try_send_frame in Hs; destruct Hs as (? & ? & ?)
           end;
    unfold only_sends; split_and!; congruence.
Qed.

Lemma fan_out_clients ws actualFromUserId actualToUserId newMessage h :
  clients (fan_out sock ws actualFromUserId actualToUserId newMessage h) =
  clients h.
Proof. apply fan_out_frame. Qed.

Lemma fan_out_onlineUsers ws actualFromUserId actualToUserId newMessage h :
  onlineUsers (fan_out sock ws actualFromUserId actualToUserId newMessage h) =
  onlineUsers h.
Proof. apply fan_out_frame. Qed.

Lemma fan_out_storage ws actualFromUserId actualToUserId newMessage h :
  storage (fan_out sock ws actualFromUserId actualToUserId newMessage h) =
  storage h.
Proof. apply fan_out_frame. Qed.
End RouterFacts.

(** C4 (write-through delivered status).  When both users of a socket
    [chat_message] event resolve and the event is not a doctor writing to
    themselves, the router stores one message under the next message id,
    created with status [sent], and the stored row has status [delivered]
    when the handler ends -- whatever the registry holds, so also when the
    recipient has no connection. *)
Theorem C4_write_through_delivered sock ws data tMsg tConv h fromUser toUser :
  getUser (data_fromUserId data) (storage h) = Some fromUser →
  getUser (data_toUserId data) (storage h) = Some toUser →
  ¬ (data_fromUserId data = data_toUserId data ∧
     user_role fromUser = Doctor) →
  let h' := on_chat_message sock ws data tMsg tConv h in
  ∃ actualToUserId imageData,
    let created :=
      (createMessage
         (mkInsertMessage (data_fromUserId data) actualToUserId
            (data_content data) imageData (Some Sent))
         tMsg (storage h)).1 in
    (data_fromUserId data ≠ data_toUserId data →
     actualToUserId = data_toUserId data) ∧
    msg_id created = currentMessageId (storage h) ∧
    msg_status created = Sent ∧
    getMessage (currentMessageId (storage h)) (storage h') =
      Some (with_status Delivered created).
Proof.
  intros Hfrom Hto Hguard h'. unfold h', on_chat_message.
  rewrite Hfrom, Hto.
  set (guard := if decide (data_fromUserId data = data_toUserId data)
                then _ else _).
  assert (∃ actualToUserId, guard = Some actualToUserId ∧
            (data_fromUserId data ≠ data_toUserId data →
             actualToUserId = data_toUserId data)) as (actualTo & -> & Hact).
  { unfold guard. case_decide as Hself.
    - destruct (user_role fromUser) eqn:Hrole; [destruct Hguard; done|].
      destruct (getDoctors (storage h)); eexists; split; done.
    - eexists. split; done. }
  set (imageData := if truthy (data_imageData data) then _ else _).
  exists actualTo, imageData.
  set (message := mkInsertMessage _ _ _ _ _).
  pose proof (createMessage_fst message tMsg (storage h)) as Hfst.
  pose proof (createMessage_messages message tMsg (storage h)) as Hmsgs.
  pose proof (createMessage_users message tMsg (storage h)) as Husers.
  destruct (createMessage message tMsg (storage h)) as [newMessage st1].
  cbn [fst snd] in *.
  split_and!; [done | by rewrite Hfst | by rewrite Hfst |].
  set (h2 := if _ && _ then _ else _).
  assert (storage h2 = st1) as Hst2.
  { unfold h2. destruct (_ && _); [|done].
    by rewrite (proj2 (broadcastOnlineStatus_frame _ _)). }
  rewrite Hst2.
  set (after_conversation := match getConversationByUsers _ _ _ with
                             | Some _ => _ | None => _ end).
  assert (∃ h3, after_conversation = Some h3 ∧
            messages (storage h3) = messages st1) as (h3 & -> & Hst3).
  { unfold after_conversation.
    destruct (getConversationByUsers _ _ st1) as [conversation|].
    - eexists. split; [done|]. cbn [storage set_storage].
      apply updateConversationLastMessage_messages.
    - unfold getUser in *. rewrite Husers, Hfrom, Hto.
      eexists. split; done. }
  rewrite fan_out_storage. cbn [storage set_storage]. unfold getMessage.
  rewrite updateMessageStatus_get, Hst3, Hmsgs.
  replace (msg_id newMessage) with (currentMessageId (storage h))
    by (by rewrite Hfst).
  rewrite decide_True by done. by rewrite get_set_eq.
Qed.

(** ** Conversation rows *)

(** For a doctor whose id is greater than the patient's, the lookup by
    (smaller id, greater id) never finds the row stored as (doctor, patient),
    and every message adds a row. *)
Lemma createMessage_adds_conversation message now st fromUser toUser :
  getConversationByUsers
    (Z.min (im_fromUserId message) (im_toUserId message))
    (Z.max (im_fromUserId message) (im_toUserId message)) st = None →
  getUser (im_fromUserId message) st = Some fromUser →
  getUser (im_toUserId message) st = Some toUser →
  conversations (createMessage message now st).2 =
  JsMap.set (currentConversationId st)
    (mkConversation (currentConversationId st)
       (if decide (user_role fromUser = Doctor)
        then user_id fromUser else user_id toUser)
       (if decide (user_role fromUser = Patient)
        then user_id fromUser else user_id toUser) now now)
    (conversations st).
Proof.
  intros Hconv Hfrom Hto. unfold createMessage.
  unfold getConversationByUsers, getUser in *. cbn [conversations users].
  by rewrite Hconv, Hfrom, Hto.
Qed.

(** C1 (conversation uniqueness), evaluated on the code.  Doctor 3 writes
    twice to patient 2 through [createMessage]: the store ends with two
    conversation rows for the pair.  The same event sent once over the
    socket leaves two rows as well, one written by [createMessage] and one
    by the handler. *)
Theorem C1_duplicate_conversation_rows :
  let message := mkInsertMessage 3 2 (JStr "hello") JUndefined None in
  let st1 := (createMessage message 10 store_second_doctor).2 in
  let st2 := (createMessage message 20 st1).2 in
  let h :=
    on_chat_message (λ _, mkSocket OPEN false) 7%nat
      (mkChatData 3 2 (JStr "hello") JUndefined) 10 11
      (set_storage store_second_doctor new_Hub) in
  JsMap.values (conversations st2) =
    [mkConversation 1 3 2 10 10; mkConversation 2 3 2 20 20] ∧
  JsMap.values (conversations (storage h)) =
    [mkConversation 1 3 2 10 10; mkConversation 2 3 2 11 11].
Proof. split; reflexivity. Qed.

Section ConversationRows.
Implicit Types (st : MemStorage) (m : JsMap.t Conversation).

(** Overwriting the row found under a key by a row for the same pair keeps
    the pairs, row by row. *)
Lemma pairs_set_same m k conv conv' :
  JsMap.get k m = Some conv → conv_pair conv' = conv_pair conv →
  conv_pair <$> JsMap.values (JsMap.set k conv' m) =
  conv_pair <$> JsMap.values m.
Proof.
  unfold JsMap.values. intros Hget Hpair.
  induction m as [|[k0 c0] m IH]; [done|].
  cbn [JsMap.get JsMap.set] in *. case_decide.
  - injection Hget as ->. rewrite !fmap_cons. cbn [snd]. by rewrite Hpair.
  - rewrite !fmap_cons. cbn [snd]. by rewrite IH.
Qed.

Lemma conversation_rows_pairs st st' doctorId patientId :
  conv_pair <$> JsMap.values (conversations st') =
  conv_pair <$> JsMap.values (conversations st) →
  conversation_rows doctorId patientId st' =
  conversation_rows doctorId patientId st.
Proof.
  unfold conversation_rows.
  generalize (JsMap.values (conversations st')),
             (JsMap.values (conversations st)).
  intros l'. induction l' as [|c' l' IH]; intros [|c l] Heq; try done.
  rewrite !fmap_cons in Heq. unfold conv_pair at 1 3 in Heq.
  inversion Heq as [[Hd Hp Hl]].
  rewrite !filter_cons, Hd, Hp. case_decide; cbn [length]; by rewrite (IH l).
Qed.

(** Writing one row adds at most one row for a pair, and exactly one when
    the pair had none. *)
Lemma rows_set_none (P : Conversation → Prop) `{!∀ c, Decision (P c)}
    m k conv :
  filter P (JsMap.values m) = [] → P conv →
  length (filter P (JsMap.values (JsMap.set k conv m))) = 1%nat.
Proof.
  unfold JsMap.values. intros Hnone HP.
  induction m as [|[k0 c0] m IH]; cbn [JsMap.set].
  - by rewrite fmap_cons, filter_cons_True.
  - rewrite fmap_cons, filter_cons in Hnone. cbn [snd] in Hnone.
    destruct (decide (P c0)) as [|Hc0]; [done|]. case_decide.
    + rewrite fmap_cons, filter_cons_True by done. by rewrite Hnone.
    + rewrite fmap_cons, filter_cons_False by done. by apply IH.
Qed.
End ConversationRows.

(** One call of [createMessage] that runs to its end: for a doctor [D] and
    a patient [P] with [D < P], a message between the two, in either
    direction, leaves exactly one conversation row for (doctor [D], patient
    [P]) when the store held at most one. *)
Lemma createMessage_one_row st message now doctor patient :
  let D := user_id doctor in
  let P := user_id patient in
  getUser D st = Some doctor →
  getUser P st = Some patient →
  user_role doctor = Doctor →
  user_role patient = Patient →
  D < P →
  (im_fromUserId message = D ∧ im_toUserId message = P) ∨
  (im_fromUserId message = P ∧ im_toUserId message = D) →
  (conversation_rows D P st ≤ 1)%nat →
  conversation_rows D P (createMessage message now st).2 = 1%nat.
Proof.
  intros D P Hdoctor Hpatient Hrd Hrp Hlt Hdir Hrows.
  assert (Z.min (im_fromUserId message) (im_toUserId message) = D ∧
          Z.max (im_fromUserId message) (im_toUserId message) = P)
    as [Hmin Hmax] by (destruct Hdir as [[-> ->] | [-> ->]]; lia).
  unfold createMessage. rewrite Hmin, Hmax.
  unfold getConversationByUsers, array_find, getUser in *.
  cbn [conversations users].
  destruct (filter _ (JsMap.values (conversations st)))
    as [|conv rest] eqn:Hfind; cbn [head].
  - assert (∀ doctorId patientId,
              doctorId = D → patientId = P →
              conversation_rows D P
                (createConversation
                   (mkInsertConversation doctorId patientId) now
                   (mkMemStorage (users st)
                      (JsMap.set (currentMessageId st)
                         (mkMessage (currentMessageId st)
                            (im_fromUserId message) (im_toUserId message)
                            (im_content message)
                            match im_imageData message with
                            | JUndefined => JNull
                            | v => v
                            end (default Sent (im_status message)) now)
                         (messages st))
                      (conversations st) (currentUserId st)
                      (currentMessageId st + 1)
                      (currentConversationId st))).2 = 1%nat) as Hnew.
    { intros ? ? -> ->. unfold conversation_rows, createConversation.
      cbn [snd conversations]. by apply rows_set_none. }
    destruct Hdir as [[-> ->] | [-> ->]]; rewrite Hdoctor, Hpatient;
      cbn [snd]; apply Hnew; rewrite ?Hrd, ?Hrp; done.
  - unfold conversation_rows in Hrows. rewrite Hfind in Hrows.
    cbn [snd]. unfold updateConversationLastMessage. cbn [conversations].
    destruct (JsMap.get (conv_id conv) (conversations st))
      as [found|] eqn:Hget; cbn [snd].
    + erewrite conversation_rows_pairs;
        [|cbn [conversations set_conversations];
          by apply pairs_set_same with (conv := found)].
      unfold conversation_rows. cbn [conversations]. rewrite Hfind.
      cbn [length] in *. lia.
    + unfold conversation_rows. cbn [conversations]. rewrite Hfind.
      cbn [length] in *. lia.
Qed.

Lemma insertMessageSchema_parse_toUserId o messageData :
  insertMessageSchema_parse o = Some messageData →
  obj_get "toUserId" o = JNum (im_toUserId messageData).
Proof.
  unfold insertMessageSchema_parse.
  destruct (obj_get "fromUserId" o); try done.
  destruct (obj_get "toUserId" o); try done.
  destruct (obj_get "content" o); try done.
  destruct (obj_get "imageData" o); try done;
    destruct (parse_status _); try done; by intros [= <-].
Qed.

(** X4 (conversation uniqueness over REST when the doctor's id is the
    smaller one).  For a doctor [D] and a patient [P] with [D < P], a
    message that one of the two sends to the other through [POST
    /api/messages], answered 201, leaves exactly one conversation row for
    (doctor [D], patient [P]) when the store held at most one.  The handler
    of a REST request runs to its end before another handler starts. *)
Theorem POST_messages_one_row st userId body now doctor patient :
  let D := user_id doctor in
  let P := user_id patient in
  getUser D st = Some doctor →
  getUser P st = Some patient →
  user_role doctor = Doctor →
  user_role patient = Patient →
  D < P →
  userId ≠ 0 →
  (userId = D ∧ obj_get "toUserId" body = JNum P) ∨
  (userId = P ∧ obj_get "toUserId" body = JNum D) →
  (conversation_rows D P st ≤ 1)%nat →
  res_status (POST_messages (Some userId) body now st).1 = 201 →
  conversation_rows D P (POST_messages (Some userId) body now st).2 = 1%nat.
Proof.
  intros D P Hdoctor Hpatient Hrd Hrp Hlt Hu Hdir Hrows.
  unfold POST_messages. rewrite authenticated_Some by done.
  destruct (insertMessageSchema_parse _) as [messageData|] eqn:Hparse;
    [|done].
  intros _.
  apply insertMessageSchema_parse_Some in Hparse as Hfields.
  destruct Hfields as [Hfrom _].
  apply insertMessageSchema_parse_toUserId in Hparse as Hto.
  rewrite obj_get_set_eq in Hfrom. injection Hfrom as Hfrom.
  rewrite obj_get_set_ne in Hto by done.
  pose proof (createMessage_one_row st messageData now doctor patient
                Hdoctor Hpatient Hrd Hrp Hlt) as Hone.
  destruct (createMessage messageData now st) as [newMessage st'].
  cbn [snd] in *. apply Hone; [|done].
  subst D P.
  destruct Hdir as [[HuD HtoP] | [HuP HtoD]].
  - left. rewrite HtoP in Hto. injection Hto as Hto. split; congruence.
  - right. rewrite HtoD in Hto. injection Hto as Hto. split; congruence.
Qed.

(** ** Presence completeness *)

(** X2 (eviction and delivery of the broadcast).  A broadcast keeps the
    registry entries whose connection is open and whose [send] succeeds,
    removes the users of the other entries from the online set, and sends to
    every connection that remains the list that the online set held when the
    broadcast started; when no entry is evicted that list is the online
    set. *)
Theorem broadcastOnlineStatus_presence sock h :
  JsMap.ok (clients h) →
  let h' := broadcastOnlineStatus sock h in
  (∀ u ws, (u, ws) ∈ clients h' ↔ (u, ws) ∈ clients h ∧ live sock ws) ∧
  (∀ u, u ∈ onlineUsers h' ↔ u ∈ onlineUsers h ∧ u ∉ dead_users sock h) ∧
  (∀ u ws, (u, ws) ∈ clients h' →
           (ws, online_status (onlineUsers h)) ∈ outbox h') ∧
  (dead_users sock h = [] → onlineUsers h' = onlineUsers h).
Proof.
  intros Hok h'. unfold h'. rewrite broadcastOnlineStatus_spec by done.
  cbn [clients onlineUsers outbox]. split_and!.
  - intros u ws. rewrite list_elem_of_filter. cbn [snd]. tauto.
  - intros u. rewrite list_elem_of_filter. tauto.
  - intros u ws Hin. apply elem_of_app. right.
    apply list_elem_of_fmap. by exists (u, ws).
  - intros ->. apply filter_all. intros u _. apply not_elem_of_nil.
Qed.

(** Whenever the sweep or a failed [send] evicts an online user, the list
    that was sent differs from the online set that the broadcast leaves. *)
Lemma broadcastOnlineStatus_stale_payload sock h u :
  JsMap.ok (clients h) →
  u ∈ onlineUsers h →
  u ∈ dead_users sock h →
  onlineUsers (broadcastOnlineStatus sock h) ≠ onlineUsers h.
Proof.
  intros Hok Honline Hdead Heq.
  rewrite broadcastOnlineStatus_spec in Heq by done. cbn [onlineUsers] in Heq.
  rewrite <- Heq in Honline.
  apply list_elem_of_filter in Honline as [Hnot _]. done.
Qed.

(** C2 (presence completeness), evaluated on the code.  Users 1 and 2 are
    registered on connections 1 and 2; connection 1 is no longer open when
    the next broadcast runs.  The sweep evicts user 1 from the registry and
    from the online set, and the payload sent to connection 2 still lists
    user 1: the list was read before the sweep. *)
Theorem C2_payload_read_before_sweep :
  let all_open : Conn → Socket := λ _, mkSocket OPEN false in
  let h :=
    on_register all_open 2%nat (Some 2)
      (on_register all_open 1%nat (Some 1) new_Hub) in
  let h' := broadcastOnlineStatus sock_1_closing h in
  clients h = [(1, 1%nat); (2, 2%nat)] ∧
  onlineUsers h = [1; 2] ∧
  clients h' = [(2, 2%nat)] ∧
  onlineUsers h' = [2] ∧
  outbox h' = outbox h ++ [(2%nat, online_status [1; 2])].
Proof. split_and!; reflexivity. Qed.

(** ** Reconnection back-off *)

Lemma reconnect_delay_le_ceiling n : (reconnect_delay n <= 15000)%Q.
Proof. unfold reconnect_delay. apply Q.le_min_r. Qed.

(** The delay never decreases while the counter grows. *)
Lemma reconnect_delay_mono n m :
  (n ≤ m)%nat → (reconnect_delay n <= reconnect_delay m)%Q.
Proof.
  intros Hnm. unfold reconnect_delay. apply Q.min_le_compat_r.
  apply Qmult_le_l; [reflexivity|].
  apply Qpower_le_compat_l; [lia | discriminate].
Qed.

(** From the eighth close in a row on, the delay is the ceiling. *)
Lemma reconnect_delay_ceiling n :
  (7 ≤ n)%nat → (reconnect_delay n == 15000)%Q.
Proof.
  intros Hn. apply Qle_antisym; [apply reconnect_delay_le_ceiling|].
  apply Qle_trans with (reconnect_delay 7); [discriminate|].
  by apply reconnect_delay_mono.
Qed.

Lemma attempts_failed_attempts k c :
  reconnectAttempts (failed_attempts k c) = (reconnectAttempts c + k)%nat.
Proof.
  unfold failed_attempts. induction k as [|k IH]; simpl.
  - lia.
  - rewrite IH. lia.
Qed.

(** C8 (reconnect back-off), amended.  The counter is 0 when the page
    starts and after every [open].  For three closes in a row that follow
    [k] closes without an [open] since then, each followed by the reconnect
    timer: the delay computed at the third close is strictly greater than
    the one computed at the first when [k] is at most 6; both are the
    ceiling when [k] is 7 or more; the three delays never decrease.  No
    delay exceeds the ceiling of 15000 ms. *)
Theorem C8_reconnect_backoff c start k :
  start = new_ClientState ∨ start = open_listener c →
  let c0 := failed_attempts k start in
  let r1 := close_listener c0 in
  let r2 := close_listener (timer_fired r1.2) in
  let r3 := close_listener (timer_fired r2.2) in
  ((k ≤ 6)%nat → (r1.1 < r3.1)%Q) ∧
  ((7 ≤ k)%nat → (r1.1 == 15000)%Q ∧ (r3.1 == 15000)%Q) ∧
  (r1.1 <= r2.1)%Q ∧ (r2.1 <= r3.1)%Q ∧
  ∀ n, (reconnect_delay n <= 15000)%Q.
Proof.
  intros Hstart.
  assert (reconnectAttempts (failed_attempts k start) = k) as Hk.
  { rewrite attempts_failed_attempts. by destruct Hstart as [-> | ->]. }
  cbn. rewrite Hk. split_and!.
  - intros Hle. clear Hk Hstart.
    do 7 (destruct k as [|k]; [reflexivity|]). lia.
  - intros Hge. split; apply reconnect_delay_ceiling; lia.
  - apply reconnect_delay_mono. lia.
  - apply reconnect_delay_mono. lia.
  - apply reconnect_delay_le_ceiling.
Qed.

(** ** Reachable stores and hubs

    The hypotheses [messages_ok] and [JsMap.ok] of the theorems above hold in
    every state that the code can reach. *)

Section Reachable.
Implicit Types (st : MemStorage) (h : Hub).

Lemma messages_ok_ext st st' :
  messages st' = messages st → messages_ok st → messages_ok st'.
Proof. unfold messages_ok. by intros ->. Qed.

Lemma messages_ok_update st id (f : Message → Message) message :
  (∀ m, msg_id (f m) = msg_id m) →
  JsMap.get id (messages st) = Some message →
  messages_ok st →
  messages_ok (set_messages (JsMap.set id (f message)) st).
Proof.
  intros Hf Hget Hok. apply messages_ok_set; [|done]. rewrite Hf.
  destruct Hok as [_ Hall]. apply get_Some_elem_of in Hget.
  by apply (proj1 (Forall_forall _ _) Hall) in Hget.
Qed.

Lemma messages_ok_delete_all st (ids : list Z) :
  messages_ok st →
  messages_ok
    (set_messages
       (λ m, foldl (λ m messageId, JsMap.delete messageId m) m ids) st).
Proof.
  revert st. induction ids as [|id ids IH]; intros st Hok.
  - by destruct st.
  - apply (messages_ok_filter _ (λ e, e.1 ≠ id)) in Hok.
    apply IH in Hok. exact Hok.
Qed.

Lemma store_op_ok st st' : store_op st st' → messages_ok st → messages_ok st'.
Proof.
  intros Hop Hok. destruct Hop.
  - exact Hok.
  - exact Hok.
  - eapply messages_ok_ext; [|exact Hok].
    apply updateConversationLastMessage_messages.
  - unfold deleteConversation.
    destruct (JsMap.get id (conversations st)) as [conversation|];
      [|done].
    case_decide; [done|].
    eapply messages_ok_ext; [|by eapply messages_ok_delete_all]. done.
  - destruct Hok as [Hnd Hall]. unfold messages_ok.
    rewrite createMessage_messages. split; [by apply ok_set|].
    apply Forall_set; [by rewrite createMessage_fst | done].
  - unfold updateMessageStatus.
    destruct (JsMap.get id (messages st)) as [message|] eqn:Hget; [|done].
    by apply (messages_ok_update _ _ (with_status status)).
  - unfold updateMessage.
    destruct (JsMap.get id (messages st)) as [message|] eqn:Hget; [|done].
    by apply (messages_ok_update _ _ (with_content content)).
  - unfold deleteMessage. destruct (JsMap.has id (messages st)); [|done].
    by apply (messages_ok_filter _ (λ e, e.1 ≠ id)).
Qed.

Lemma store_ops_ok st st' :
  rtc store_op st st' → messages_ok st → messages_ok st'.
Proof. induction 1; eauto using store_op_ok. Qed.

(** The routes and the router change the store through its operations
    only. *)
Lemma mark_read_ops l st : rtc store_op st (mark_read l st).
Proof.
  unfold mark_read. revert st. induction l as [|message l IH]; intros st.
  - apply rtc_refl.
  - cbn [foldl]. eapply rtc_l; [|apply IH]. constructor.
Qed.

Lemma GET_conversation_messages_ops session_userId id st :
  rtc store_op st (GET_conversation_messages session_userId id st).2.
Proof.
  unfold GET_conversation_messages.
  repeat case_match; try apply rtc_refl. apply mark_read_ops.
Qed.

(** A route that destructures the pair returned by a store operation: name
    the new store as the second component of the call, and close the goal
    with the constructor of that operation. *)
Ltac one_store_op :=
  apply rtc_once;
  match goal with
  | Hcall : ?call = (_, ?st') |- store_op _ ?st' =>
      replace st' with (call.2) by (by rewrite Hcall)
  end;
  constructor.

Lemma POST_messages_ops session_userId body now st :
  rtc store_op st (POST_messages session_userId body now st).2.
Proof.
  unfold POST_messages. repeat case_match; try apply rtc_refl; one_store_op.
Qed.

Lemma PATCH_message_ops session_userId id body st :
  rtc store_op st (PATCH_message session_userId id body st).2.
Proof.
  unfold PATCH_message. repeat case_match; try apply rtc_refl; one_store_op.
Qed.

Lemma DELETE_message_ops session_userId id st :
  rtc store_op st (DELETE_message session_userId id st).2.
Proof.
  unfold DELETE_message. repeat case_match; try apply rtc_refl; one_store_op.
Qed.

Lemma DELETE_conversation_ops session_userId id st :
  rtc store_op st (DELETE_conversation session_userId id st).2.
Proof.
  unfold DELETE_conversation. repeat case_match; try apply rtc_refl;
    one_store_op.
Qed.

Lemma on_chat_message_ops sock ws data tMsg tConv h :
  rtc store_op (storage h)
    (storage (on_chat_message sock ws data tMsg tConv h)).
Proof.
  unfold on_chat_message.
  destruct (getUser (data_fromUserId data) (storage h)); [|apply rtc_refl].
  destruct (getUser (data_toUserId data) (storage h)); [|apply rtc_refl].
  match goal with
  | |- context [match ?g with Some _ => _ | None => h end] =>
      destruct g as [actualToUserId|]; [|apply rtc_refl]
  end.
  match goal with
  | |- context [createMessage ?m ?t ?s] =>
      pose proof (op_createMessage s m t) as Hcreate;
      destruct (createMessage m t s) as [newMessage st1]
  end.
  cbn [snd] in Hcreate. eapply rtc_l; [exact Hcreate|].
  set (h2 := if _ && _ then _ else _).
  assert (storage h2 = st1) as Hst2.
  { unfold h2. destruct (_ && _); [|done].
    by rewrite (proj2 (broadcastOnlineStatus_frame _ _)). }
  rewrite Hst2.
  destruct (getConversationByUsers _ _ st1) as [conversation|].
  - rewrite fan_out_storage. cbn [storage set_storage].
    eapply rtc_l; [|apply rtc_once]; constructor.
  - destruct (getUser (data_fromUserId data) st1);
      [|rewrite Hst2; apply rtc_refl].
    destruct (getUser (data_toUserId data) st1);
      [|rewrite Hst2; apply rtc_refl].
    rewrite fan_out_storage. cbn [storage set_storage].
    eapply rtc_l; [|apply rtc_once]; constructor.
Qed.

Lemma broadcastOnlineStatus_ok sock h :
  JsMap.ok (clients h) → JsMap.ok (clients (broadcastOnlineStatus sock h)).
Proof.
  intros Hok. rewrite broadcastOnlineStatus_spec by done.
  by apply ok_filter.
Qed.

Lemma elem_of_keys {V} (m : JsMap.t V) k :
  k ∈ JsMap.keys m ↔ ∃ v, (k, v) ∈ m.
Proof.
  unfold JsMap.keys. rewrite list_elem_of_fmap. split.
  - intros ([k' v] & -> & Hin). by exists v.
  - intros [v Hin]. by exists (k, v).
Qed.

Lemma keys_delete {V} (m : JsMap.t V) k :
  JsMap.keys (JsMap.delete k m) = filter (λ x, x ≠ k) (JsMap.keys m).
Proof. exact (keys_filter (λ x, x ≠ k) m). Qed.

Lemma presence_broadcast sock h :
  JsMap.ok (clients h) → presence_ok h →
  presence_ok (broadcastOnlineStatus sock h).
Proof.
  intros Hok Hp u. rewrite broadcastOnlineStatus_spec by done.
  cbn [onlineUsers clients]. rewrite list_elem_of_filter, (Hp u).
  rewrite !elem_of_keys. unfold dead_users. split.
  - intros [Hdead [ws Hin]]. exists ws. apply list_elem_of_filter.
    split; [|done]. cbn [snd].
    destruct (decide (live sock ws)) as [|Hn]; [done|].
    destruct Hdead. apply list_elem_of_fmap. exists (u, ws).
    split; [done|]. by apply list_elem_of_filter.
  - intros [ws Hin]. apply list_elem_of_filter in Hin as [Hlive Hin].
    split; [|by exists ws]. intros Hdead.
    apply list_elem_of_fmap in Hdead as ([u' ws'] & Hu & Hin').
    cbn in Hu. subst u'. apply list_elem_of_filter in Hin' as [Hn Hin'].
    by rewrite (entry_unique _ _ _ _ Hok Hin Hin') in Hlive.
Qed.

Lemma presence_registered ws u h :
  presence_ok h → presence_ok (registered ws u h).
Proof.
  intros Hp v. unfold registered, set_onlineUsers, set_clients, set_userId.
  cbn [onlineUsers clients].
  rewrite elem_of_JsSet_add, keys_set, (Hp v).
  case_decide as Hin.
  - split; [intros [-> | ?]; done | by right].
  - rewrite elem_of_app, list_elem_of_singleton. tauto.
Qed.

Lemma presence_evict u h : presence_ok h → presence_ok (evict u h).
Proof.
  intros Hp v. unfold evict, set_onlineUsers, set_clients.
  cbn [onlineUsers clients].
  rewrite keys_delete, elem_of_JsSet_delete, list_elem_of_filter, (Hp v).
  done.
Qed.

Lemma on_register_presence sock ws userId h :
  JsMap.ok (clients h) → presence_ok h →
  presence_ok (on_register sock ws userId h).
Proof.
  intros Hok Hp. unfold on_register. destruct userId as [u|]; [|done].
  destruct (is_truthy (Some u)); [|done].
  apply (presence_broadcast sock (registered ws u h)).
  - by apply ok_set.
  - by apply presence_registered.
Qed.

Lemma on_close_presence sock ws h :
  JsMap.ok (clients h) → presence_ok h →
  JsMap.ok (clients (on_close sock ws h)) ∧
  presence_ok (on_close sock ws h).
Proof.
  intros Hok Hp. unfold on_close.
  destruct (userIdOf h ws) as [u|] eqn:Hws; [|by rewrite Hws].
  destruct (is_truthy (Some u)) eqn:Hu; [|by rewrite Hws, Hu].
  rewrite (proj1 (broadcastOnlineStatus_frame _ _)).
  cbn [evict set_onlineUsers set_clients userIdOf]. rewrite Hws, Hu.
  fold (evict u h).
  assert (JsMap.ok (clients (evict u h))) as Hok1 by (by apply ok_delete).
  pose proof (presence_evict u h Hp) as Hp1.
  pose proof (broadcastOnlineStatus_ok sock _ Hok1) as Hok2.
  pose proof (presence_broadcast sock _ Hok1 Hp1) as Hp2.
  split; [by apply ok_delete|].
  assert (u ∉ JsMap.keys (clients (broadcastOnlineStatus sock (evict u h))))
    as Hgone.
  { rewrite broadcastOnlineStatus_spec by done. cbn [clients evict
      set_onlineUsers set_clients]. rewrite elem_of_keys. intros [c Hin].
    apply list_elem_of_filter in Hin as [_ Hin].
    apply elem_of_JsMap_delete in Hin as [? _]. done. }
  intros v. unfold set_clients. cbn [onlineUsers clients].
  rewrite keys_delete, list_elem_of_filter, (Hp2 v).
  split; [|tauto]. intros Hv. split; [|done]. intros ->. done.
Qed.

Lemma on_chat_message_registry sock ws data tMsg tConv h :
  JsMap.ok (clients h) → presence_ok h →
  JsMap.ok (clients (on_chat_message sock ws data tMsg tConv h)) ∧
  presence_ok (on_chat_message sock ws data tMsg tConv h).
Proof.
  intros Hok Hp. unfold on_chat_message.
  destruct (getUser (data_fromUserId data) (storage h)); [|done].
  destruct (getUser (data_toUserId data) (storage h)); [|done].
  match goal with
  | |- context [match ?g with Some _ => _ | None => h end] =>
      destruct g as [actualToUserId|]; [|done]
  end.
  destruct (createMessage _ _ _) as [newMessage st1].
  set (h2 := if _ && _ then _ else _).
  assert (JsMap.ok (clients h2) ∧ presence_ok h2) as [Hok2 Hp2].
  { unfold h2. destruct (_ && _); [|done]. split.
    - by apply broadcastOnlineStatus_ok, ok_set.
    - apply (presence_broadcast sock
               (registered ws (data_fromUserId data) (set_storage st1 h)));
        [by apply ok_set | by apply presence_registered]. }
  clearbody h2.
  assert (∀ a b m st,
            JsMap.ok (clients (fan_out sock ws a b m (set_storage st h2))) ∧
            presence_ok (fan_out sock ws a b m (set_storage st h2)))
    as Hfan.
  { intros a b m st. unfold presence_ok.
    by rewrite fan_out_clients, fan_out_onlineUsers. }
  destruct (getConversationByUsers _ _ _) as [conversation|].
  - apply Hfan.
  - destruct (getUser (data_fromUserId data) (storage h2)); [|done].
    destruct (getUser (data_toUserId data) (storage h2)); [|done].
    apply Hfan.
Qed.

Lemma hub_step_ok h h' : hub_step h h' → hub_ok h → hub_ok h'.
Proof.
  intros Hstep (Hok & Hp & Hst). destruct Hstep.
  - split_and!; [by apply on_register_ok | by apply on_register_presence |].
    unfold on_register. destruct userId as [u|]; [|done].
    destruct (is_truthy (Some u)); [|done].
    by rewrite (proj2 (broadcastOnlineStatus_frame _ _)).
  - destruct (on_chat_message_registry sock ws data tMsg tConv h Hok Hp)
      as [Hok' Hp'].
    split_and!; [done.. |].
    by eapply store_ops_ok; [apply on_chat_message_ops|].
  - destruct (on_close_presence sock ws h Hok Hp) as [Hok' Hp'].
    split_and!; [done.. |].
    unfold on_close. repeat case_match; try done;
      cbn [storage set_clients];
      by rewrite (proj2 (broadcastOnlineStatus_frame _ _)).
Qed.

Lemma hub_ok_new : hub_ok new_Hub.
Proof.
  split_and!; [apply NoDup_nil_2 | done | apply messages_ok_new].
Qed.

(** Every store reached from the seeded one by store operations satisfies
    the invariant of the message map. *)
Theorem reachable_store_ok st :
  rtc store_op new_MemStorage st → messages_ok st.
Proof. intros Hr. eapply store_ops_ok; [exact Hr | apply messages_ok_new]. Qed.

(** X1 (registry and presence invariant).  In every hub reached from the
    initial one by [register], [chat_message] and [close] events, whatever
    the sockets do, the registry has one entry per user, the online set
    holds exactly the users of the registry, and the message map is well
    formed. *)
Theorem reachable_hub_ok h : rtc hub_step new_Hub h → hub_ok h.
Proof.
  intros Hr. pose proof hub_ok_new as Hinit. revert Hinit.
  induction Hr; eauto using hub_step_ok.
Qed.
End Reachable.

(** ** Fan-out to a registered recipient *)

(** [data.imageData || undefined], then [undefined] stored as [null]. *)
Lemma imageData_or_null v :
  match (if truthy v then v else JUndefined) with
  | JUndefined => JNull
  | w => w
  end = if truthy v then v else JNull.
Proof.
  destruct v as [| |b|n|s|l|l]; cbn; try done.
  - by destruct b.
  - by destruct (n =? 0).
  - by destruct (String.eqb s "").
Qed.

(** X3 (scenario A).  The sender's connection [ws] is registered for the sender
    and the recipient has a live connection: the router stores the message
    as [delivered], pushes it to the recipient's connection and sends one
    confirmation back over [ws]; the registry is unchanged. *)
Theorem chat_message_delivery sock ws data tMsg tConv h fromUser toUser
    recipientWs :
  getUser (data_fromUserId data) (storage h) = Some fromUser →
  getUser (data_toUserId data) (storage h) = Some toUser →
  data_fromUserId data ≠ data_toUserId data →
  data_fromUserId data ≠ 0 →
  userIdOf h ws = Some (data_fromUserId data) →
  JsMap.get (data_fromUserId data) (clients h) = Some ws →
  JsMap.get (data_toUserId data) (clients h) = Some recipientWs →
  live sock recipientWs →
  live sock ws →
  let h' := on_chat_message sock ws data tMsg tConv h in
  let imageData :=
    if truthy (data_imageData data) then data_imageData data else JNull in
  let m :=
    mkMessage (currentMessageId (storage h)) (data_fromUserId data)
      (data_toUserId data) (data_content data) imageData Delivered tMsg in
  outbox h' =
    outbox h ++
    [(recipientWs, chat_message m None);
     (ws, chat_message m (Some Delivered))] ∧
  clients h' = clients h ∧
  getMessage (msg_id m) (storage h') = Some m.
Proof.
  intros Hfrom Hto Hne Hnz Hws Hsender Hrecipient [Hro Hrt] [Hwo Hwt] h'
    imageData m.
  unfold h', on_chat_message. rewrite Hfrom, Hto.
  rewrite decide_False by done.
  set (message := mkInsertMessage _ _ _ _ _).
  pose proof (createMessage_fst message tMsg (storage h)) as Hfst.
  pose proof (createMessage_messages message tMsg (storage h)) as Hmsgs.
  pose proof (createMessage_users message tMsg (storage h)) as Husers.
  destruct (createMessage message tMsg (storage h)) as [newMessage st1].
  cbn [fst snd] in *.
  assert (with_status Delivered newMessage = m) as Hm.
  { rewrite Hfst. unfold m, imageData, message, with_status. cbn.
    f_equal. apply imageData_or_null. }
  cbn [userIdOf set_storage]. rewrite Hws, is_truthy_Some by done.
  cbn [negb andb].
  set (after_conversation := match getConversationByUsers _ _ _ with
                             | Some _ => _ | None => _ end).
  assert (∃ st3, after_conversation = Some (set_storage st3 h) ∧
            messages st3 = messages st1) as (st3 & -> & Hst3).
  { unfold after_conversation, set_storage. cbn [storage].
    destruct (getConversationByUsers _ _ st1) as [conversation|].
    - eexists. split; [done|].
      apply updateConversationLastMessage_messages.
    - unfold getUser in *. rewrite Husers, Hfrom, Hto.
      eexists. split; done. }
  rewrite Hm. cbn [storage set_storage].
  set (st4 := (updateMessageStatus _ _ _).2).
  assert (getMessage (msg_id m) st4 = Some m) as Hstored.
  { unfold st4, getMessage.
    change (msg_id m) with (currentMessageId (storage h)).
    rewrite updateMessageStatus_get, Hst3, Hmsgs.
    replace (msg_id newMessage) with (currentMessageId (storage h))
      by (by rewrite Hfst).
    rewrite decide_True by done. rewrite get_set_eq.
    cbn [fmap option_fmap option_map]. by rewrite Hm. }
  split_and!.
  - unfold fan_out, try_send. unfold set_storage. cbn [clients].
    rewrite Hrecipient.
    rewrite (decide_True (P := readyState (sock recipientWs) = OPEN))
      by done.
    rewrite Hrt. unfold push at 1 2 3. cbn [clients].
    rewrite Hsender. rewrite decide_False by (intros [_ ?]; done).
    rewrite (decide_True (P := readyState (sock ws) = OPEN)) by done.
    rewrite Hwt. unfold push. cbn [outbox]. by rewrite <- app_assoc.
  - by rewrite fan_out_clients.
  - by rewrite fan_out_storage.
Qed.

(** ** Deleting and editing over REST *)

Lemma foldl_delete_get {V} (ids : list Z) (m : JsMap.t V) k :
  JsMap.get k (foldl (λ m id, JsMap.delete id m) m ids) =
  if decide (k ∈ ids) then None else JsMap.get k m.
Proof.
  revert m. induction ids as [|id ids IH]; intros m.
  - cbn [foldl]. rewrite decide_False; [done | apply not_elem_of_nil].
  - cbn [foldl]. rewrite IH, get_delete.
    destruct (decide (k ∈ ids)) as [Hin | Hin].
    + rewrite decide_True; [done | by apply list_elem_of_further].
    + destruct (decide (id = k)) as [-> | Hne].
      * rewrite decide_True; [done | apply list_elem_of_here].
      * rewrite decide_False; [done|].
        rewrite elem_of_cons. intros [? | ?]; done.
Qed.

Lemma elem_of_foldl_delete {V} (ids : list Z) (m : JsMap.t V) e :
  e ∈ foldl (λ m id, JsMap.delete id m) m ids → e ∈ m ∧ e.1 ∉ ids.
Proof.
  revert m. induction ids as [|id ids IH]; intros m; cbn [foldl].
  - intros Hin. split; [done | apply not_elem_of_nil].
  - intros Hin. apply IH in Hin as [Hin Hids].
    apply list_elem_of_filter in Hin as [Hne Hin]. split; [done|].
    rewrite elem_of_cons. intros [? | ?]; done.
Qed.

Lemma message_key st k msg :
  messages_ok st → (k, msg) ∈ messages st → msg_id msg = k.
Proof.
  intros [_ Hall] Hin. by apply (proj1 (Forall_forall _ _) Hall) in Hin.
Qed.

(** X5 (deleting a conversation).  When a participant deletes a
    conversation, the route answers 200, the conversation row is gone, no
    message exchanged by its two users is left, and every other message and
    every other conversation row is kept as it was. *)
Theorem DELETE_conversation_effect st userId id conversation :
  messages_ok st →
  userId ≠ 0 →
  getConversation id st = Some conversation →
  conv_doctorId conversation = userId ∨ conv_patientId conversation = userId →
  let r := DELETE_conversation (Some userId) (id_text (Some id)) st in
  r.1 = mkResponse 200 (json_text "Conversation deleted successfully") ∧
  getConversation id r.2 = None ∧
  getMessagesBetweenUsers (conv_doctorId conversation)
    (conv_patientId conversation) r.2 = [] ∧
  (∀ k msg,
     getMessage k st = Some msg →
     ¬ between (conv_doctorId conversation) (conv_patientId conversation)
         msg →
     getMessage k r.2 = Some msg) ∧
  (∀ k, k ≠ id → getConversation k r.2 = getConversation k st).
Proof.
  intros Hok Hu Hconv Hpart r. unfold r, DELETE_conversation.
  rewrite authenticated_Some by done. cbn [parseInt]. rewrite Hconv.
  rewrite decide_False by (intros [? ?]; destruct Hpart; done).
  unfold deleteConversation. unfold getConversation in Hconv.
  rewrite Hconv.
  rewrite decide_False by (intros [? ?]; destruct Hpart; done).
  cbn [fst snd]. split_and!.
  - done.
  - unfold getConversation. cbn [conversations]. rewrite get_delete.
    by rewrite decide_True.
  - unfold getMessagesBetweenUsers. cbn [messages].
    rewrite filter_none; [done|]. intros msg Hin Hbetween.
    apply elem_of_values in Hin as [k Hin].
    apply elem_of_foldl_delete in Hin as [Hin Hids]. cbn [fst] in Hids.
    apply Hids. rewrite <- (message_key st k msg Hok Hin).
    apply list_elem_of_fmap_2. apply list_elem_of_filter. split; [done|].
    apply elem_of_values. by exists k.
  - intros k msg Hget Hnot. unfold getMessage in *. cbn [messages].
    rewrite foldl_delete_get, decide_False; [done|].
    intros Hin. apply list_elem_of_fmap in Hin as (msg' & Hk & Hin).
    apply list_elem_of_filter in Hin as [Hbetween Hin].
    apply elem_of_values in Hin as [k' Hin].
    pose proof (message_key st k' msg' Hok Hin) as Hk'.
    assert (k' = k) as -> by congruence.
    apply get_Some_elem_of in Hget.
    by rewrite (entry_unique _ _ _ _ (proj1 Hok) Hget Hin) in Hnot.
  - intros k Hne. unfold getConversation. cbn [conversations].
    rewrite get_delete. by rewrite decide_False.
Qed.

(** X6 (editing a message).  When the sender edits a message, the route
    answers 200 with the stored row: its content is whatever the body holds
    under [content] (the value is not validated; a missing key gives
    [undefined]), its id, users, image, status and timestamp are kept, and
    no other message changes. *)
Theorem PATCH_message_effect st userId id body message :
  userId ≠ 0 →
  getMessage id st = Some message →
  msg_fromUserId message = userId →
  let r := PATCH_message (Some userId) (id_text (Some id)) body st in
  let updated := with_content (obj_get "content" body) message in
  r.1 = mkResponse 200 (json_message updated) ∧
  getMessage id r.2 = Some updated ∧
  (∀ k, k ≠ id → getMessage k r.2 = getMessage k st) ∧
  conversations r.2 = conversations st.
Proof.
  intros Hu Hget Hfrom r updated. unfold r, PATCH_message.
  rewrite authenticated_Some by done. cbn [parseInt]. rewrite Hget.
  rewrite decide_False by (by intros ?).
  unfold updateMessage. unfold getMessage in Hget. rewrite Hget.
  cbn [fst snd]. unfold getMessage. cbn [messages set_messages].
  split_and!; [done | apply get_set_eq | | done].
  intros k Hne. by rewrite get_set_ne.
Qed.

(** X7 (deleting a message).  When the sender deletes a message, the route
    answers 200, the row is gone, and every other message and the
    conversation rows (with their last-message time) are kept. *)
Theorem DELETE_message_effect st userId id message :
  userId ≠ 0 →
  getMessage id st = Some message →
  msg_fromUserId message = userId →
  let r := DELETE_message (Some userId) (id_text (Some id)) st in
  r.1 = mkResponse 200 (json_text "Message deleted successfully") ∧
  getMessage id r.2 = None ∧
  (∀ k, k ≠ id → getMessage k r.2 = getMessage k st) ∧
  conversations r.2 = conversations st.
Proof.
  intros Hu Hget Hfrom r. unfold r, DELETE_message.
  rewrite authenticated_Some by done. cbn [parseInt]. rewrite Hget.
  rewrite decide_False by (by intros ?).
  unfold deleteMessage, JsMap.has. unfold getMessage in Hget. rewrite Hget.
  cbn [fst snd]. unfold getMessage. cbn [messages set_messages].
  split_and!; [done | | | done].
  - rewrite get_delete. by rewrite decide_True.
  - intros k Hne. rewrite get_delete. by rewrite decide_False.
Qed.

(** ** Sending, then fetching *)

(** X25 (a sent message is fetched and marked).  After [POST
    /api/messages] has answered 201 with a message, the recipient who
    fetches a conversation whose doctor and patient are the two users of
    the message is answered 200 with a list, sorted by send time, that
    holds the message, and the stored message has status [read]
    afterwards. *)
Theorem POST_messages_then_fetch st session_userId body now m st' c conv :
  messages_ok st →
  POST_messages session_userId body now st =
    (mkResponse 201 (json_message m), st') →
  getConversation c st' = Some conv →
  between (conv_doctorId conv) (conv_patientId conv) m →
  msg_toUserId m ≠ 0 →
  let r :=
    GET_conversation_messages (Some (msg_toUserId m)) (id_text (Some c)) st' in
  ∃ l,
    r.1 = mkResponse 200 (json_messages l) ∧
    m ∈ l ∧
    StronglySorted (by_key msg_sentAt) l ∧
    getMessage (msg_id m) r.2 = Some (with_status Read m).
Proof.
  intros Hok Hpost Hconv Hbetween Hto.
  assert (messages_ok st' ∧ getMessage (msg_id m) st' = Some m)
    as [Hok' Hstored].
  { unfold POST_messages in Hpost.
    destruct (authenticated session_userId) as [userId|]; [|done].
    destruct (insertMessageSchema_parse _) as [messageData|]; [|done].
    pose proof (store_op_ok _ _ (op_createMessage st messageData now) Hok)
      as Hok'.
    pose proof (createMessage_stored messageData now st) as Hstored.
    pose proof (createMessage_fst messageData now st) as Hfst.
    destruct (createMessage messageData now st) as [newMessage st1].
    cbn [fst snd] in *. injection Hpost as <- <-.
    split; [done|]. by rewrite Hfst at 1. }
  cbv zeta. unfold GET_conversation_messages.
  rewrite authenticated_Some by done. cbn [parseInt]. rewrite Hconv.
  rewrite decide_False
    by (intros [? ?]; destruct Hbetween as [[_ ?] | [_ ?]]; done).
  unfold getMessagesByConversation. rewrite Hconv. cbn [fst snd].
  eexists. split; [reflexivity|].
  split_and!.
  - apply elem_of_getMessagesBetweenUsers. split; [done|].
    apply elem_of_values. exists (msg_id m). by apply get_Some_elem_of.
  - apply getMessagesBetweenUsers_sorted.
  - unfold getMessage in *. rewrite mark_read_get, Hstored.
    pose proof (marked_ids st' (msg_toUserId m) (conv_doctorId conv)
                  (conv_patientId conv) (msg_id m) m Hok' Hstored) as Hids.
    case_decide as Hin; [done|].
    destruct (decide (msg_status m = Read)) as [Hread | Hunread].
    + destruct m. cbn in Hread. by subst.
    + destruct Hin. apply Hids. done.
Qed.

(** ** Connections *)

Lemma array_find_Some {A} (P : A → Prop) `{!∀ x, Decision (P x)} l x :
  array_find P l = Some x → P x ∧ x ∈ l.
Proof.
  unfold array_find. intros Hhead.
  assert (x ∈ filter P l) as Hin.
  { destruct (filter P l) as [|y l']; [done|].
    injection Hhead as ->. apply list_elem_of_here. }
  by apply list_elem_of_filter in Hin.
Qed.

Lemma array_find_None {A} (P : A → Prop) `{!∀ x, Decision (P x)} l :
  array_find P l = None → filter P l = [].
Proof. unfold array_find. by destruct (filter P l). Qed.

Lemma array_find_is_Some {A} (P : A → Prop) `{!∀ x, Decision (P x)} l x :
  x ∈ l → P x → is_Some (array_find P l).
Proof.
  intros Hin HP. unfold array_find.
  assert (x ∈ filter P l) as Hf by (by apply list_elem_of_filter).
  destruct (filter P l); [by apply elem_of_nil in Hf | by eexists].
Qed.

Lemma elem_of_values_set {V} (m : JsMap.t V) k v :
  v ∈ JsMap.values (JsMap.set k v m).
Proof.
  apply elem_of_values. exists k. apply get_Some_elem_of, get_set_eq.
Qed.

Lemma rows_set_other (P : Conversation → Prop) `{!∀ c, Decision (P c)}
    (m : JsMap.t Conversation) k conv :
  ¬ P conv →
  (length (filter P (JsMap.values (JsMap.set k conv m))) ≤
   length (filter P (JsMap.values m)))%nat.
Proof.
  unfold JsMap.values. intros HP.
  induction m as [|[k0 c0] m IH]; cbn [JsMap.set].
  - rewrite fmap_cons, filter_cons_False by done. cbn. lia.
  - case_decide.
    + rewrite !fmap_cons, !filter_cons. cbn [snd].
      rewrite decide_False by done. case_decide; cbn [length]; lia.
    + rewrite !fmap_cons, !filter_cons. cbn [snd].
      case_decide; cbn [length]; lia.
Qed.

Lemma connect_pair_rows doctorId patientId now st d p :
  (conversation_rows d p st ≤ 1)%nat →
  (conversation_rows d p (connect_pair doctorId patientId now st).2 ≤ 1)%nat.
Proof.
  intros Hrows. unfold connect_pair.
  destruct (getConversationByUsers doctorId patientId st) eqn:Hfind;
    [done|].
  unfold createConversation, conversation_rows. cbn [snd conversations].
  destruct (decide (doctorId = d ∧ patientId = p)) as [[-> ->] | Hne].
  - rewrite rows_set_none; [done | | done].
    by apply array_find_None in Hfind.
  - etrans; [|exact Hrows]. apply rows_set_other. cbn. tauto.
Qed.

(** X8 (connections stay unique).  Whatever the request, [POST
    /api/connect] leaves at most one conversation row for every (doctor,
    patient) pair that had at most one. *)
Theorem POST_connect_unique s body now st :
  (∀ d p, (conversation_rows d p st ≤ 1)%nat) →
  ∀ d p, (conversation_rows d p (POST_connect s body now st).2 ≤ 1)%nat.
Proof.
  intros Hrows d p. unfold POST_connect.
  repeat case_match; try apply Hrows; by apply connect_pair_rows.
Qed.

Lemma connect_pair_created doctorId patientId now st conv st' :
  connect_pair doctorId patientId now st = (reply_json 201 conv, st') →
  conv_pair conv = (doctorId, patientId) ∧
  conversation_rows doctorId patientId st = 0%nat ∧
  conversation_rows doctorId patientId st' = 1%nat ∧
  users st' = users st ∧
  conv ∈ JsMap.values (conversations st') ∧
  ∀ now',
    connect_pair doctorId patientId now' st' =
    (reply_message 400 "Connection already exists", st').
Proof.
  unfold connect_pair.
  destruct (getConversationByUsers doctorId patientId st) eqn:Hfind;
    [done|].
  unfold createConversation. intros [= <- <-].
  apply array_find_None in Hfind.
  split_and!; [done | | | done | |].
  - unfold conversation_rows. by rewrite Hfind.
  - unfold conversation_rows. cbn [conversations]. by apply rows_set_none.
  - cbn [conversations]. apply elem_of_values_set.
  - intros now'.
    destruct (array_find_is_Some
                (λ conv, conv_doctorId conv = doctorId ∧
                         conv_patientId conv = patientId)
                (JsMap.values
                   (JsMap.set (currentConversationId st)
                      (mkConversation (currentConversationId st) doctorId
                         patientId now now) (conversations st)))
                (mkConversation (currentConversationId st) doctorId
                   patientId now now)) as [existing Hexisting];
      [apply elem_of_values_set | done |].
    unfold getConversationByUsers. cbn [conversations].
    by rewrite Hexisting.
Qed.

(** X9 (creating a connection).  When [POST /api/connect] answers 201, the
    target is a stored user of the role opposite to the session's, the new
    row joins the session user and the target as (doctor, patient), it is
    the only row of that pair, and the same request sent again is answered
    400 "Connection already exists" without any change of the store. *)
Theorem POST_connect_created s body now st conv st' :
  POST_connect s body now st = (reply_json 201 conv, st') →
  ∃ userId targetUserId targetUser,
    sess_userId s = Some userId ∧
    obj_get "userId" body = JNum targetUserId ∧
    getUser targetUserId st = Some targetUser ∧
    (if decide (sess_userRole s = Some Doctor)
     then user_role targetUser = Patient ∧
          conv_pair conv = (userId, targetUserId)
     else user_role targetUser = Doctor ∧
          conv_pair conv = (targetUserId, userId)) ∧
    conversation_rows (conv_doctorId conv) (conv_patientId conv) st' = 1%nat ∧
    ∀ now',
      POST_connect s body now' st' =
      (reply_message 400 "Connection already exists", st').
Proof.
  unfold POST_connect.
  destruct (authenticated (sess_userId s)) as [userId|] eqn:Hauth; [|done].
  assert (sess_userId s = Some userId) as Hsess.
  { unfold authenticated in Hauth. destruct (sess_userId s); [|done].
    destruct (is_truthy _); congruence. }
  destruct (truthy (obj_get "userId" body)) eqn:Htruthy; [|done].
  cbn [negb].
  destruct (obj_get "userId" body) as [| | |targetUserId| | |]; try done.
  destruct (getUser targetUserId st) as [targetUser|] eqn:Htarget; [|done].
  intros Hcreated. exists userId, targetUserId, targetUser.
  split_and!; [done.. | | |].
  - destruct (decide (sess_userRole s = Some Doctor));
      (case_decide as Hrole; [done|]);
      apply connect_pair_created in Hcreated as (Hpair & _);
      (split; [by destruct (user_role targetUser) | done]).
  - destruct (decide (sess_userRole s = Some Doctor));
      (case_decide as Hrole; [done|]);
      apply connect_pair_created in Hcreated as (Hpair & _ & Hone & _);
      injection Hpair as -> ->; done.
  - intros now'.
    destruct (decide (sess_userRole s = Some Doctor));
      (case_decide as Hrole; [done|]);
      apply connect_pair_created in Hcreated
        as (_ & _ & _ & Husers & _ & Hagain);
      unfold getUser in *; rewrite Husers, Htarget;
      rewrite (decide_False (P := user_role targetUser ≠ _))
        by (by intros ?);
      apply Hagain.
Qed.

Lemma GET_connections_lists s st userId conv other :
  authenticated (sess_userId s) = Some userId →
  conv ∈ JsMap.values (conversations st) →
  conv_pair conv =
    (if decide (sess_userRole s = Some Doctor)
     then (userId, user_id other) else (user_id other, userId)) →
  getUser (if decide (sess_userRole s = Some Doctor)
           then conv_patientId conv else conv_doctorId conv) st =
    Some other →
  ∃ l, (GET_connections s st).1 = reply_json 200 l ∧ other ∈ l.
Proof.
  intros Hauth Hin Hpair Hother. unfold GET_connections. rewrite Hauth.
  unfold getConversationsByUserId, conv_pair in *.
  destruct (decide (sess_userRole s = Some Doctor));
    injection Hpair as Hd Hp; eexists; (split; [reflexivity|]);
    apply list_elem_of_omap; exists (Some other); (split; [|done]);
    apply list_elem_of_fmap; eexists; (split; [symmetry; exact Hother|]);
    apply list_elem_of_fmap_2; apply list_elem_of_filter; (split; [done|]);
    apply list_elem_of_filter; (split; [|done]); tauto.
Qed.

(** X10 (a removed connection stays).  [DELETE /api/connect/:userId] never
    changes the store.  When it answers "Connection removed successfully"
    for a stored target user, the conversation row is still there and [GET
    /api/connections] of the same session still lists the target. *)
Theorem DELETE_connect_keeps_connection s userId_param st :
  (DELETE_connect s userId_param st).2 = st ∧
  ∀ targetUser,
    parseInt userId_param = Some (user_id targetUser) →
    getUser (user_id targetUser) st = Some targetUser →
    (DELETE_connect s userId_param st).1 =
      reply_message 200 "Connection removed successfully" →
    ∃ l, (GET_connections s st).1 = reply_json 200 l ∧ targetUser ∈ l.
Proof.
  split.
  { unfold DELETE_connect. by repeat case_match. }
  intros targetUser Hparam Htarget. unfold DELETE_connect. rewrite Hparam.
  destruct (authenticated (sess_userId s)) as [userId|] eqn:Hauth; [|done].
  case_decide; [done|].
  destruct (getConversationByUsers _ _ st) as [conv|] eqn:Hfind; [|done].
  intros _.
  apply array_find_Some in Hfind as [[Hd Hp] Hin].
  apply (GET_connections_lists s st userId conv targetUser); [done.. | |].
  - unfold conv_pair. rewrite Hd, Hp.
    by destruct (decide (sess_userRole s = Some Doctor)).
  - destruct (decide (sess_userRole s = Some Doctor));
      [rewrite Hp | rewrite Hd]; by rewrite ?decide_True by done.
Qed.

(** X11 (a new connection is listed).  After [POST /api/connect] has
    answered 201, [GET /api/connections] of the same session lists the
    target user. *)
Theorem POST_connect_listed s body now st conv st' targetUser :
  POST_connect s body now st = (reply_json 201 conv, st') →
  obj_get "userId" body = JNum (user_id targetUser) →
  getUser (user_id targetUser) st = Some targetUser →
  ∃ l, (GET_connections s st').1 = reply_json 200 l ∧ targetUser ∈ l.
Proof.
  unfold POST_connect. intros Hcreated Hbody Htarget.
  destruct (authenticated (sess_userId s)) as [userId|] eqn:Hauth; [|done].
  rewrite Hbody in Hcreated.
  destruct (truthy _); [|done]. cbn [negb] in Hcreated.
  rewrite Htarget in Hcreated.
  destruct (decide (sess_userRole s = Some Doctor)) as [Hrole | Hrole];
    (case_decide; [done|]);
    apply connect_pair_created in Hcreated
      as (Hpair & _ & _ & Husers & Hin & _);
    apply (GET_connections_lists s st' userId conv targetUser);
    try done;
    try (by rewrite decide_True by done);
    try (by rewrite decide_False by done);
    unfold conv_pair in Hpair; injection Hpair as Hd Hp;
    unfold getUser in *; rewrite Husers.
  - by rewrite decide_True, Hp by done.
  - by rewrite decide_False, Hd by done.
Qed.

(** ** The conversation list *)

Section ArraySortOrder.
Context {A : Type} (cmp : A → A → Z).
Context (Htrans : ∀ a b c, cmp a b ≤ 0 → cmp b c ≤ 0 → cmp a c ≤ 0).
Context (Htotal : ∀ a b, cmp a b ≤ 0 ∨ cmp b a ≤ 0).

Lemma sort_insert_sorted_cmp x l :
  StronglySorted (λ a b, cmp a b ≤ 0) l →
  StronglySorted (λ a b, cmp a b ≤ 0) (sort_insert cmp x l).
Proof.
  induction 1 as [|y l Hl IH Hy]; simpl.
  - repeat constructor.
  - case_decide as Hxy.
    + constructor; [by constructor|].
      constructor; [done|].
      eapply Forall_impl; [exact Hy|]. intros z Hz. by eapply Htrans.
    + constructor; [done|].
      rewrite sort_insert_perm. constructor; [|done].
      by destruct (Htotal x y).
Qed.

Lemma array_sort_sorted_cmp l :
  StronglySorted (λ a b, cmp a b ≤ 0) (array_sort cmp l).
Proof.
  induction l as [|x l IH]; simpl; [constructor|].
  by apply sort_insert_sorted_cmp.
Qed.
End ArraySortOrder.

Lemma StronglySorted_weaken {A} (R R' : A → A → Prop) l :
  (∀ a b, R a b → R' a b) → StronglySorted R l → StronglySorted R' l.
Proof.
  intros Himpl. induction 1 as [|x l Hl IH Hx]; constructor; [done|].
  eapply Forall_impl; [exact Hx|]. intros y. apply Himpl.
Qed.

Lemma compare_details_order a b : compare_details a b ≤ 0 ↔ details_order a b.
Proof. unfold compare_details, details_order. case_decide; lia. Qed.

(** X12 (order of the conversation list).  [GET /api/conversations] answers
    with one entry for every conversation of the session user whose other
    participant is a stored user, and with nothing else; the entries are
    ordered by unread count, highest first, and among equal counts by the
    time of the last message, most recent first.  The store is not
    changed. *)
Theorem GET_conversations_sorted s st userId :
  authenticated (sess_userId s) = Some userId →
  ∃ l,
    GET_conversations s st = (reply_json 200 l, st) ∧
    StronglySorted details_order l ∧
    ∀ d,
      d ∈ l ↔
      ∃ conv,
        conv ∈ JsMap.values (conversations st) ∧
        (conv_doctorId conv = userId ∨ conv_patientId conv = userId) ∧
        conversation_details userId st conv = Some d.
Proof.
  intros Hauth. unfold GET_conversations. rewrite Hauth.
  eexists. split; [reflexivity|]. split.
  - eapply StronglySorted_weaken; [|apply array_sort_sorted_cmp].
    + intros a b. apply compare_details_order.
    + intros a b c. rewrite !compare_details_order.
      unfold details_order. lia.
    + intros a b. rewrite !compare_details_order.
      unfold details_order. lia.
  - intros d. rewrite elem_of_array_sort, list_elem_of_omap.
    unfold getConversationsByUserId. split.
    + intros (o & Hin & Ho). cbn in Ho. subst o.
      apply list_elem_of_fmap in Hin as (conv & Hd & Hin).
      apply list_elem_of_filter in Hin as [Hpart Hin]. by exists conv.
    + intros (conv & Hin & Hpart & Hd). exists (Some d). split; [|done].
      apply list_elem_of_fmap. exists conv. split; [done|].
      by apply list_elem_of_filter.
Qed.

Lemma head_array_sort_max {A} (key : A → Z) (l : list A) x :
  head (array_sort (λ a b, key b - key a) l) = Some x →
  x ∈ l ∧ ∀ y, y ∈ l → key y ≤ key x.
Proof.
  intros Hhead.
  assert (∀ a b, key b - key a = - key a - - key b) as Hcmp
    by (intros; lia).
  pose proof (array_sort_sorted (λ a b, key b - key a) (λ a, - key a)
                Hcmp l) as Hsorted.
  pose proof (elem_of_array_sort (λ a b, key b - key a) l) as Helem.
  destruct (array_sort _ l) as [|x' l']; [done|].
  injection Hhead as ->. split.
  - apply Helem, list_elem_of_here.
  - intros y Hy. apply Helem in Hy.
    apply StronglySorted_inv in Hsorted as [_ Hall].
    apply elem_of_cons in Hy as [-> | Hy]; [done|].
    apply (proj1 (Forall_forall _ _) Hall) in Hy. unfold by_key in Hy. lia.
Qed.

(** X13 (the last message of a conversation).  In an entry of the
    conversation list, [lastMessage] is a message of the conversation whose
    send time no other message of the conversation exceeds; it is [null]
    exactly when the conversation has no message. *)
Theorem conversation_details_lastMessage userId st conv d :
  conversation_details userId st conv = Some d →
  let messages := getMessagesByConversation (conv_id conv) st in
  match cd_lastMessage d with
  | Some last =>
      last ∈ messages ∧ ∀ msg, msg ∈ messages → msg_sentAt msg ≤ msg_sentAt last
  | None => messages = []
  end.
Proof.
  unfold conversation_details. destruct (getUser _ st); [|done].
  intros [= <-]. cbn [cd_lastMessage].
  destruct (getMessagesByConversation (conv_id conv) st) as [|m l] eqn:Hl.
  - done.
  - rewrite decide_True by (cbn; lia).
    destruct (head _) as [last|] eqn:Hhead.
    + cbn zeta. by apply head_array_sort_max in Hhead.
    + pose proof (array_sort_perm (λ a b, msg_sentAt b - msg_sentAt a)
                    (m :: l)) as Hperm.
      destruct (array_sort _ (m :: l)); [|done].
      by apply Permutation_nil_cons in Hperm.
Qed.

Lemma mark_read_all_read st userId a b msg :
  messages_ok st →
  let st' :=
    mark_read
      (filter (λ msg, msg_toUserId msg = userId ∧ msg_status msg ≠ Read)
         (getMessagesBetweenUsers a b st)) st in
  msg ∈ getMessagesBetweenUsers a b st' →
  msg_toUserId msg = userId →
  msg_status msg = Read.
Proof.
  intros Hok st' Hin Hto.
  apply elem_of_getMessagesBetweenUsers in Hin as [Hbetween Hin].
  apply elem_of_values in Hin as [k Hin].
  assert (JsMap.ok (messages st')) as Hok'.
  { unfold JsMap.ok, st'. rewrite (proj2 (proj2 (mark_read_frame _ _))).
    apply Hok. }
  apply (elem_of_get _ _ _ Hok') in Hin. unfold st' in Hin.
  rewrite mark_read_get in Hin.
  destruct (JsMap.get k (messages st)) as [msg0|] eqn:Hget;
    [|by case_decide].
  pose proof (marked_ids st userId a b k msg0 Hok Hget) as Hids.
  case_decide as Hk.
  - injection Hin as <-. done.
  - injection Hin as ->.
    destruct (decide (msg_status msg = Read)) as [|Hst]; [done|].
    destruct Hk. apply Hids. done.
Qed.

(** X14 (reading clears the unread count).  After a participant has
    fetched the messages of a conversation, the conversation list of that
    user shows the conversation with an unread count of zero. *)
Theorem unread_count_after_reading s st userId id l d :
  messages_ok st →
  sess_userId s = Some userId →
  userId ≠ 0 →
  let r := GET_conversation_messages (Some userId) (id_text (Some id)) st in
  res_status r.1 = 200 →
  (GET_conversations s r.2).1 = reply_json 200 l →
  d ∈ l →
  conv_id (cd_conv d) = id →
  cd_unreadCount d = 0.
Proof.
  intros Hok Hsess Hu. cbv zeta. unfold GET_conversation_messages.
  rewrite authenticated_Some by done. cbn [parseInt].
  destruct (getConversation id st) as [conversation|] eqn:Hconv;
    [|done].
  case_decide as Hpart; [done|]. cbn [fst snd].
  intros _ Hlist Hd Hid.
  unfold getMessagesByConversation in Hlist. rewrite Hconv in Hlist.
  set (st' := mark_read _ st) in *.
  unfold GET_conversations in Hlist.
  rewrite Hsess, authenticated_Some in Hlist by done.
  injection Hlist as <-.
  apply elem_of_array_sort, list_elem_of_omap in Hd as (o & Hin & Ho).
  cbn in Ho. subst o.
  apply list_elem_of_fmap in Hin as (conv & Hdetails & _).
  symmetry in Hdetails. unfold conversation_details in Hdetails.
  destruct (getUser _ st'); [|done]. injection Hdetails as <-.
  cbn [cd_unreadCount cd_conv] in *. rewrite Hid.
  unfold getMessagesByConversation, getConversation.
  unfold st'. rewrite (proj1 (proj2 (mark_read_frame _ _))).
  fold st'. unfold getConversation in Hconv. rewrite Hconv.
  rewrite filter_none; [done|].
  intros msg Hin [Hto Hst]. apply Hst.
  by apply (mark_read_all_read st userId (conv_doctorId conversation)
              (conv_patientId conversation) msg Hok).
Qed.

(** ** Guards and implicit registration of the chat-message router *)

Section RouterGuards.
Variable sock : Conn → Socket.

Lemma fan_out_userIdOf ws actualFromUserId actualToUserId newMessage h :
  userIdOf (fan_out sock ws actualFromUserId actualToUserId newMessage h) =
  userIdOf h.
Proof.
  assert (∀ c ev h0 h1, try_send sock c ev h0 = Some h1 →
            userIdOf h1 = userIdOf h0) as Hsend.
  { intros c ev h0 h1. unfold try_send.
    destruct (sendThrows (sock c)); [done|]. by intros [= <-]. }
  unfold fan_out.
  repeat (first [ case_decide | case_match ]); simplify_eq;
    repeat match goal with
           | Hs : try_send _ _ _ _ = Some _ |- _ => apply Hsend in Hs
           end;
    congruence.
Qed.

(** The router up to the fan-out: the hub [h2] after the implicit
    registration, and the hub on which the fan-out runs. *)
Lemma on_chat_message_unfold ws data tMsg tConv h fromUser toUser
    actualToUserId :
  getUser (data_fromUserId data) (storage h) = Some fromUser →
  getUser (data_toUserId data) (storage h) = Some toUser →
  (if decide (data_fromUserId data = data_toUserId data) then
     match user_role fromUser with
     | Patient =>
         match getDoctors (storage h) with
         | doctor :: _ => Some (user_id doctor)
         | [] => Some (data_toUserId data)
         end
     | Doctor => None
     end
   else Some (data_toUserId data)) = Some actualToUserId →
  let created :=
    createMessage
      (mkInsertMessage (data_fromUserId data) actualToUserId
         (data_content data)
         (if truthy (data_imageData data)
          then data_imageData data else JUndefined) (Some Sent))
      tMsg (storage h) in
  let h1 := set_storage created.2 h in
  let h2 :=
    if negb (is_truthy (userIdOf h ws)) &&
       bool_decide (data_fromUserId data ≠ 0)
    then broadcastOnlineStatus sock (registered ws (data_fromUserId data) h1)
    else h1 in
  ∃ st3,
    messages st3 = messages created.2 ∧
    on_chat_message sock ws data tMsg tConv h =
    fan_out sock ws (data_fromUserId data) actualToUserId
      (with_status Delivered created.1)
      (set_storage (updateMessageStatus (msg_id created.1) Delivered st3).2
         h2).
Proof.
  intros Hfrom Hto Hguard created h1 h2. unfold on_chat_message.
  rewrite Hfrom, Hto, Hguard.
  pose proof (createMessage_users
                (mkInsertMessage (data_fromUserId data) actualToUserId
                   (data_content data)
                   (if truthy (data_imageData data)
                    then data_imageData data else JUndefined) (Some Sent))
                tMsg (storage h)) as Husers.
  subst h2 h1 created.
  destruct (createMessage _ tMsg (storage h)) as [newMessage st1].
  cbn [fst snd] in *.
  cbn [userIdOf set_storage]. unfold registered.
  set (h2 := if _ && _ then _ else _).
  assert (storage h2 = st1) as Hst2.
  { unfold h2. destruct (_ && _); [|done].
    by rewrite (proj2 (broadcastOnlineStatus_frame _ _)). }
  rewrite Hst2.
  destruct (getConversationByUsers _ _ st1) as [conversation|].
  - eexists. split; [|reflexivity].
    apply updateConversationLastMessage_messages.
  - unfold getUser in *. rewrite Husers, Hfrom, Hto.
    eexists. split; [|reflexivity]. done.
Qed.

(** X15 (guards of the router).  A [chat_message] event whose sender or
    recipient is not a stored user, or by which a doctor writes to
    themselves, changes nothing and sends nothing.  A patient who writes to
    themselves has the message stored, as delivered, for the first doctor
    of the user list. *)
Theorem chat_message_guards ws data tMsg tConv h :
  let h' := on_chat_message sock ws data tMsg tConv h in
  (getUser (data_fromUserId data) (storage h) = None ∨
   getUser (data_toUserId data) (storage h) = None → h' = h) ∧
  (∀ fromUser,
     getUser (data_fromUserId data) (storage h) = Some fromUser →
     data_toUserId data = data_fromUserId data →
     match user_role fromUser with
     | Doctor => h' = h
     | Patient =>
         ∀ doctor doctors,
           getDoctors (storage h) = doctor :: doctors →
           ∃ msg,
             getMessage (currentMessageId (storage h)) (storage h') =
               Some msg ∧
             msg_fromUserId msg = data_fromUserId data ∧
             msg_toUserId msg = user_id doctor ∧
             msg_status msg = Delivered
     end).
Proof.
  intros h'. split.
  - unfold h', on_chat_message. intros [Hfrom | Hto].
    + by rewrite Hfrom.
    + rewrite Hto. by case_match.
  - intros fromUser Hfrom Hself.
    destruct (user_role fromUser) eqn:Hrole.
    + unfold h', on_chat_message. rewrite Hself, Hfrom.
      rewrite decide_True by done. by rewrite Hrole.
    + intros doctor doctors Hdoctors.
      assert (getUser (data_toUserId data) (storage h) = Some fromUser)
        as Hto by (by rewrite Hself).
      destruct (on_chat_message_unfold ws data tMsg tConv h fromUser
                  fromUser (user_id doctor) Hfrom Hto) as (st3 & Hst3 & Heq).
      { rewrite decide_True by done. by rewrite Hrole, Hdoctors. }
      unfold h'. rewrite Heq. clear Heq.
      rewrite fan_out_storage. cbn [storage set_storage]. unfold getMessage.
      rewrite updateMessageStatus_get, Hst3, createMessage_messages,
        createMessage_fst.
      cbn [msg_id]. rewrite decide_True by done. rewrite get_set_eq.
      eexists. split; [reflexivity|]. done.
Qed.

(** X16 (implicit registration).  A [chat_message] event that arrives on
    a connection without a user id registers that connection for the sender
    id given in the event: when the connection is open and its [send]
    succeeds, the registry maps the sender id to it afterwards, in place of
    any connection registered for that id before, and the sender is in the
    online set. *)
Theorem chat_message_registers ws data tMsg tConv h fromUser toUser :
  JsMap.ok (clients h) →
  getUser (data_fromUserId data) (storage h) = Some fromUser →
  getUser (data_toUserId data) (storage h) = Some toUser →
  data_fromUserId data ≠ data_toUserId data →
  data_fromUserId data ≠ 0 →
  is_truthy (userIdOf h ws) = false →
  live sock ws →
  let h' := on_chat_message sock ws data tMsg tConv h in
  JsMap.get (data_fromUserId data) (clients h') = Some ws ∧
  data_fromUserId data ∈ onlineUsers h' ∧
  userIdOf h' ws = Some (data_fromUserId data).
Proof.
  intros Hok Hfrom Hto Hne Hnz Hws Hlive h'.
  destruct (on_chat_message_unfold ws data tMsg tConv h fromUser toUser
              (data_toUserId data) Hfrom Hto) as (st3 & _ & Heq).
  { by rewrite decide_False. }
  unfold h'. rewrite Heq. clear Heq h'.
  rewrite fan_out_clients, fan_out_onlineUsers, fan_out_userIdOf.
  rewrite Hws, bool_decide_true by done. cbn [negb andb].
  cbn [clients onlineUsers userIdOf set_storage].
  set (hr := registered ws (data_fromUserId data) _).
  assert (JsMap.ok (clients hr)) as Hokr by (by apply ok_set).
  assert ((data_fromUserId data, ws) ∈ clients hr) as Hentry.
  { apply get_Some_elem_of. apply get_set_eq. }
  rewrite broadcastOnlineStatus_spec by done.
  cbn [clients onlineUsers userIdOf]. split_and!.
  - apply elem_of_get; [by apply ok_filter|].
    by apply list_elem_of_filter.
  - apply list_elem_of_filter. split.
    + unfold dead_users. intros Hdead.
      apply list_elem_of_fmap in Hdead as ([u c] & Hu & Hin).
      cbn [fst] in Hu. subst u.
      apply list_elem_of_filter in Hin as [Hnot Hin]. cbn [snd] in Hnot.
      by rewrite (entry_unique _ _ _ _ Hokr Hin Hentry) in Hnot.
    + apply elem_of_JsSet_add. by left.
  - unfold hr, registered, set_onlineUsers, set_clients, set_userId.
    cbn [userIdOf]. by rewrite decide_True.
Qed.
End RouterGuards.

(** ** Accounts *)

Section JsMapValues.
Context {V : Type}.
Implicit Types (m : JsMap.t V) (k : Z) (v : V).

(** Overwriting a row by a row with the same image under [f] keeps the
    images, row by row. *)
Lemma fmap_values_set_same {B} (f : V → B) m k v v' :
  JsMap.get k m = Some v → f v' = f v →
  f <$> JsMap.values (JsMap.set k v' m) = f <$> JsMap.values m.
Proof.
  unfold JsMap.values. intros Hget Hf.
  induction m as [|[k0 v0] m IH]; [done|].
  cbn [JsMap.get JsMap.set] in *. case_decide.
  - injection Hget as ->. rewrite !fmap_cons. cbn [snd]. by rewrite Hf.
  - rewrite !fmap_cons. cbn [snd]. by rewrite IH.
Qed.

Lemma values_set_fresh m k v :
  k ∉ JsMap.keys m →
  JsMap.values (JsMap.set k v m) = JsMap.values m ++ [v].
Proof.
  unfold JsMap.keys, JsMap.values.
  induction m as [|[k0 v0] m IH]; [done|].
  rewrite fmap_cons, not_elem_of_cons. cbn [fst JsMap.set]. intros [Hne Hk].
  rewrite decide_False by done. rewrite !fmap_cons. cbn [snd].
  by rewrite IH.
Qed.

Lemma filter_values_set_none (P : V → Prop) `{!∀ x, Decision (P x)} m k v :
  filter P (JsMap.values m) = [] → P v →
  filter P (JsMap.values (JsMap.set k v m)) = [v].
Proof.
  unfold JsMap.values. intros Hnone HP.
  induction m as [|[k0 v0] m IH]; cbn [JsMap.set].
  - by rewrite fmap_cons, filter_cons_True.
  - rewrite fmap_cons, filter_cons in Hnone. cbn [snd] in Hnone.
    destruct (decide (P v0)) as [|Hv0]; [done|]. case_decide.
    + rewrite fmap_cons, filter_cons_True by done. by rewrite Hnone.
    + rewrite fmap_cons, filter_cons_False by done. by apply IH.
Qed.

Lemma filter_values_set_other (P : V → Prop) `{!∀ x, Decision (P x)}
    m k v v' :
  JsMap.get k m = Some v → ¬ P v → ¬ P v' →
  filter P (JsMap.values (JsMap.set k v' m)) = filter P (JsMap.values m).
Proof.
  unfold JsMap.values. intros Hget Hv Hv'.
  induction m as [|[k0 v0] m IH]; [done|].
  cbn [JsMap.get JsMap.set] in *. case_decide.
  - injection Hget as ->. rewrite !fmap_cons. cbn [snd].
    by rewrite !filter_cons_False.
  - rewrite !fmap_cons, !filter_cons. cbn [snd]. by rewrite IH.
Qed.
End JsMapValues.

(** In a list without two elements of the same key, [find] by key returns
    the element that has the key. *)
Lemma array_find_unique {A B} `{EqDecision B} (f : A → B) (l : list A) x :
  NoDup (f <$> l) → x ∈ l → array_find (λ y, f y = f x) l = Some x.
Proof.
  unfold array_find. induction l as [|y l IH]; intros Hnd Hin.
  - by apply elem_of_nil in Hin.
  - rewrite fmap_cons in Hnd. apply NoDup_cons in Hnd as [Hy Hnd].
    rewrite filter_cons. apply elem_of_cons in Hin as [-> | Hin].
    + by rewrite decide_True.
    + rewrite decide_False; [by apply IH|].
      intros Heq. apply Hy. rewrite Heq. by apply list_elem_of_fmap_2.
Qed.

Section AccountsFacts.
Import Accounts.
Implicit Types (st : Store) (s : Session).

Lemma ok_users_set st userId user user' :
  getUser userId st = Some user →
  row_user user' = row_user user →
  row_email user' = row_email user →
  ok st →
  ok (mkStore (JsMap.set userId user' (users st)) (currentUserId st)).
Proof.
  intros Hget Huser Hemail (Hnd & Hall & Hnames & Hemails).
  unfold getUser in Hget. split_and!; cbn [users Accounts.currentUserId].
  - by apply ok_set.
  - apply Forall_set; [|done]. cbn [fst snd]. rewrite Huser.
    apply get_Some_elem_of in Hget.
    by apply (proj1 (Forall_forall _ _) Hall) in Hget.
  - rewrite (fmap_values_set_same _ _ _ user); [done.. |].
    by rewrite Huser.
  - by rewrite (fmap_values_set_same _ _ _ user).
Qed.

Lemma ok_createUser insertUser now st :
  getUserByUsername (iu_username (iur_user insertUser)) st = None →
  getUserByEmail (iur_email insertUser) st = None →
  ok st → ok (createUser insertUser now st).2.
Proof.
  intros Hname Hemail (Hnd & Hall & Hnames & Hemails).
  assert (currentUserId st ∉ JsMap.keys (users st)) as Hfresh.
  { unfold JsMap.keys. intros Hin.
    apply list_elem_of_fmap in Hin as (e & Hk & Hin).
    apply (proj1 (Forall_forall _ _) Hall) in Hin. lia. }
  unfold createUser. cbn [snd].
  split_and!; cbn [users Accounts.currentUserId].
  - by apply ok_set.
  - apply Forall_set; [cbn; lia|].
    eapply Forall_impl; [exact Hall|]. intros e [? ?]. split; [done | lia].
  - rewrite values_set_fresh, fmap_app by done.
    apply NoDup_app. split_and!; [done | | apply NoDup_singleton].
    intros name Hin Hnew. apply list_elem_of_singleton in Hnew.
    cbn in Hnew. subst name.
    apply list_elem_of_fmap in Hin as (user & Heq & Hin).
    apply array_find_None in Hname.
    assert (user ∈ filter (λ user, user_username (row_user user) =
                             iu_username (iur_user insertUser))
                     (JsMap.values (users st))) as Hf
      by (by apply list_elem_of_filter).
    rewrite Hname in Hf. by apply elem_of_nil in Hf.
  - rewrite values_set_fresh, fmap_app by done.
    apply NoDup_app. split_and!; [done | | apply NoDup_singleton].
    intros mail Hin Hnew. apply list_elem_of_singleton in Hnew.
    cbn in Hnew. subst mail.
    apply list_elem_of_fmap in Hin as (user & Heq & Hin).
    apply array_find_None in Hemail.
    assert (user ∈ filter (λ user, row_email user = iur_email insertUser)
                     (JsMap.values (users st))) as Hf
      by (by apply list_elem_of_filter).
    rewrite Hemail in Hf. by apply elem_of_nil in Hf.
Qed.

Lemma ok_updatePassword userId newPassword st :
  ok st → ok (updatePassword userId newPassword st).2.
Proof.
  intros Hok. unfold updatePassword.
  destruct (getUser userId st) as [user|] eqn:Hget; [|done].
  by apply (ok_users_set st userId user).
Qed.

Lemma ok_toggleTwoFactorAuth userId enabled st :
  ok st → ok (toggleTwoFactorAuth userId enabled st).2.
Proof.
  intros Hok. unfold toggleTwoFactorAuth.
  destruct (getUser userId st) as [user|] eqn:Hget; [|done].
  by apply (ok_users_set st userId user).
Qed.

Lemma ok_new_Store now : ok (new_Store now).
Proof.
  unfold new_Store. apply ok_createUser; [done | done |].
  apply ok_createUser; [done | done |].
  split_and!; [apply NoDup_nil_2 | constructor | apply NoDup_nil_2..].
Qed.

Lemma request_ok st st' : request st st' → ok st → ok st'.
Proof.
  intros Hreq Hok. destruct Hreq.
  - unfold POST_register.
    destruct (insertUserSchema_parse body) as [userData|]; [|done].
    destruct (getUserByUsername _ st) eqn:Hname; [done|].
    destruct (getUserByEmail _ st) eqn:Hemail; [done|].
    pose proof (ok_createUser userData now st Hname Hemail Hok) as Hok'.
    destruct (createUser userData now st) as [user st'].
    by destruct save_err.
  - unfold POST_login. repeat case_match; done.
  - unfold POST_logout. by destruct destroy_err.
  - unfold GET_me. repeat case_match; done.
  - unfold POST_update_password.
    destruct (authenticated _) as [userId|]; [|done].
    destruct (_ || _); [done|].
    destruct (getUser userId st); [|done].
    destruct (negb _); [done|].
    pose proof (ok_updatePassword userId (obj_get "newPassword" body) st Hok)
      as Hok'.
    destruct (updatePassword _ _ st) as [[] st']; done.
  - unfold POST_toggle_2fa.
    destruct (authenticated _) as [userId|]; [|done].
    destruct (obj_get "enabled" body) as [| |enabled| | | |]; try done.
    pose proof (ok_toggleTwoFactorAuth userId enabled st Hok) as Hok'.
    destruct (toggleTwoFactorAuth _ _ st) as [[] st']; done.
Qed.

(** The user map that the messaging code reads is the projection of the
    map with all columns: the two are built by the same steps. *)
Lemma view_set st userId user counter :
  view (mkStore (JsMap.set userId user (users st)) counter) =
  JsMap.set userId (row_user user) (view st).
Proof.
  unfold view. cbn [users]. induction (users st) as [|[k v] m IH]; [done|].
  cbn [JsMap.set]. rewrite fmap_cons. cbn [fst snd JsMap.set].
  case_decide; [done|]. by rewrite fmap_cons, IH.
Qed.

Lemma view_getUser st userId :
  JsMap.get userId (view st) = row_user <$> getUser userId st.
Proof.
  unfold view, getUser. induction (users st) as [|[k v] m IH]; [done|].
  rewrite fmap_cons. cbn [fst snd JsMap.get]. by case_decide.
Qed.

(** X17 (user names and e-mail addresses stay unique).  In every user map
    reached from the seeded one by requests to the account routes, each row
    is stored under its own id, ids below the counter are never handed out
    again, and no two users share a user name or an e-mail address. *)
Theorem reachable_accounts_ok now st :
  rtc request (new_Store now) st → ok st.
Proof.
  intros Hr. pose proof (ok_new_Store now) as Hinit. revert Hinit.
  induction Hr; eauto using request_ok.
Qed.
End AccountsFacts.

Section AccountsLogin.
Import Accounts.
Implicit Types (st : Store) (s : Session).

Lemma truthy_JStr text : text ≠ "" → truthy (JStr text) = true.
Proof.
  intros Hne. cbn. destruct (String.eqb_spec text ""); done.
Qed.

Lemma strict_equal_JStr a b :
  strict_equal (JStr a) (JStr b) = bool_decide (a = b).
Proof. done. Qed.

Lemma getUserByUsername_stored st k user :
  ok st → (k, user) ∈ users st →
  getUserByUsername (user_username (row_user user)) st = Some user.
Proof.
  intros (_ & _ & Hnames & _) Hin. unfold getUserByUsername.
  apply (array_find_unique (λ user, user_username (row_user user)));
    [done|].
  apply elem_of_values. by exists k.
Qed.

(** The answer of [login] when the name is that of the user that [find]
    returns. *)
Lemma POST_login_found body s st user name pw :
  getUserByUsername name st = Some user →
  obj_get "username" body = JStr name →
  obj_get "password" body = JStr pw →
  name ≠ "" → pw ≠ "" →
  POST_login body false s st =
  if strict_equal (row_password user) (JStr pw)
  then (reply_json 200 (without_password user), session_of user, st)
  else (reply_message 401 "Invalid credentials", s, st).
Proof.
  intros Hfind Hname Hpw Hn Hp. unfold POST_login.
  rewrite Hname, Hpw, !truthy_JStr by done. cbn [negb orb].
  rewrite Hfind. by destruct (strict_equal _ _).
Qed.

(** X18 (logging in).  In a user map that satisfies the invariant, a
    login with the name of a stored user and a non-empty password string
    answers 200 with that user (without the password) and puts the id and
    the role of the user into the session when the stored password is that
    string; otherwise it answers 401 and leaves the session as it was.  The
    user map is never changed. *)
Theorem POST_login_stored_user body s st k user pw :
  ok st →
  (k, user) ∈ users st →
  obj_get "username" body = JStr (user_username (row_user user)) →
  obj_get "password" body = JStr pw →
  user_username (row_user user) ≠ "" →
  pw ≠ "" →
  POST_login body false s st =
  match row_password user with
  | JStr stored =>
      if decide (stored = pw)
      then (reply_json 200 (without_password user), session_of user, st)
      else (reply_message 401 "Invalid credentials", s, st)
  | _ => (reply_message 401 "Invalid credentials", s, st)
  end.
Proof.
  intros Hok Hin Hname Hpw Hn Hp.
  rewrite (POST_login_found body s st user
             (user_username (row_user user)) pw);
    [|by eapply getUserByUsername_stored|done..].
  destruct (row_password user) as [| | | |text| |]; try done.
  rewrite strict_equal_JStr. case_bool_decide; by case_decide.
Qed.

(** X19 (registering, then logging in).  When [register] has answered
    201, a login with the user name and the password of the registration
    (both non-empty) answers 200 with the same user and sets the same
    session. *)
Theorem register_then_login body save_err now s st u s1 st1 name pw body' s2 :
  POST_register body save_err now s st = (reply_json 201 u, s1, st1) →
  obj_get "username" body = JStr name →
  obj_get "password" body = JStr pw →
  name ≠ "" →
  pw ≠ "" →
  obj_get "username" body' = JStr name →
  obj_get "password" body' = JStr pw →
  POST_login body' false s2 st1 = (reply_json 200 u, s1, st1).
Proof.
  unfold POST_register. intros Hreg Hname Hpw Hn Hp Hname' Hpw'.
  destruct (insertUserSchema_parse body) as [userData|] eqn:Hparse;
    [|done].
  assert (iu_username (iur_user userData) = name ∧
          iur_password userData = pw) as [Huname Hupw].
  { unfold insertUserSchema_parse in Hparse. rewrite Hname, Hpw in Hparse.
    destruct (obj_get "email" body); try done.
    destruct (obj_get "fullName" body); try done.
    repeat (apply bind_Some in Hparse as (? & ? & Hparse)).
    by injection Hparse as <-. }
  destruct (getUserByUsername _ st) eqn:Hfree; [done|].
  destruct (getUserByEmail _ st); [done|].
  unfold createUser in Hreg. destruct save_err; [done|].
  injection Hreg as <- <- <-.
  set (user := mkUserRow _ _ _ _ _ _ _ _ _).
  rewrite (POST_login_found body' s2 _ user name pw); try done.
  - subst user. cbn [row_password]. rewrite strict_equal_JStr, Hupw.
    by rewrite bool_decide_true.
  - unfold getUserByUsername, array_find. cbn [users].
    apply array_find_None in Hfree. rewrite Huname in Hfree.
    rewrite filter_values_set_none; [done | done |].
    subst user. by cbn.
Qed.

(** X20 (changing the password).  When the session user gives the stored
    password and a new non-empty password string, the route answers 200;
    afterwards a login under the user's name succeeds with the new password
    and fails with every other password, the old one included. *)
Theorem update_password_then_login body s st userId user new :
  ok st →
  sess_userId s = Some userId →
  userId ≠ 0 →
  getUser userId st = Some user →
  user_username (row_user user) ≠ "" →
  truthy (obj_get "currentPassword" body) = true →
  strict_equal (row_password user) (obj_get "currentPassword" body) = true →
  obj_get "newPassword" body = JStr new →
  new ≠ "" →
  let r := POST_update_password body s st in
  r.1.1 = reply_message 200 "Password updated successfully" ∧
  ∀ body' s' pw,
    obj_get "username" body' = JStr (user_username (row_user user)) →
    obj_get "password" body' = JStr pw →
    pw ≠ "" →
    (POST_login body' false s' r.2).1.1 =
    if decide (pw = new)
    then
      reply_json 200
        (without_password
           (mkUserRow (row_user user) (JStr new) (row_email user)
              (row_fullName user) (row_specialization user)
              (row_profilePicture user) (row_bio user) (row_createdAt user)
              (row_twoFactorEnabled user)))
    else reply_message 401 "Invalid credentials".
Proof.
  intros Hok Hsess Hu Hget Hn Hcur Heq Hnew Hp r.
  unfold r, POST_update_password.
  rewrite Hsess, authenticated_Some by done.
  rewrite Hcur, Hnew, truthy_JStr by done. cbn [negb orb].
  rewrite Hget, Heq. cbn [negb].
  unfold updatePassword. rewrite Hget. cbn [fst snd].
  split; [done|]. intros body' s' pw Hname' Hpw' Hp'.
  set (user' := mkUserRow _ _ _ _ _ _ _ _ _).
  set (st' := mkStore _ _).
  assert (ok st') as Hok' by (by apply (ok_users_set st userId user)).
  assert ((userId, user') ∈ users st') as Hin.
  { apply get_Some_elem_of. apply get_set_eq. }
  rewrite (POST_login_found body' s' st' user'
             (user_username (row_user user)) pw); try done.
  - subst user'. cbn [row_password]. rewrite strict_equal_JStr.
    case_bool_decide; [by rewrite decide_True by done|].
    by rewrite decide_False by done.
  - by apply (getUserByUsername_stored st' userId user').
Qed.

(** X21 (the session).  After a login has answered 200, [GET /api/me]
    under the session it set answers 200 with the same user; after a logout
    [GET /api/me] answers 401. *)
Theorem login_me_logout body save_err s st u s1 st1 :
  ok st →
  POST_login body save_err s st = (reply_json 200 u, s1, st1) →
  user_id (wp_user u) ≠ 0 →
  GET_me s1 st1 = (reply_json 200 u, s1, st1) ∧
  ∀ s2 st2,
    (POST_logout false s1 st1).1.2 = s2 →
    (GET_me s2 st2).1.1 = reply_message 401 "Unauthorized".
Proof.
  intros (Hnd & Hall & _) Hlogin Hnz. split; [|by intros s2 st2 <-].
  unfold POST_login in Hlogin. destruct (_ || _); [done|].
  destruct (match obj_get "username" body with JStr _ => _ | _ => None end)
    as [user|] eqn:Hfind; [|done].
  destruct (negb _); [done|]. destruct save_err; [done|].
  injection Hlogin as <- <- <-.
  assert (user ∈ JsMap.values (users st)) as Hin.
  { destruct (obj_get "username" body); try done.
    by apply array_find_Some in Hfind as [_ ?]. }
  apply elem_of_values in Hin as [k Hin].
  pose proof (proj1 (Forall_forall _ _) Hall _ Hin) as [Hk _].
  cbn [fst snd] in Hk. subst k.
  unfold GET_me, session_of. cbn [sess_userId].
  rewrite authenticated_Some by done. unfold getUser.
  by rewrite (elem_of_get _ _ _ Hnd Hin).
Qed.
End AccountsLogin.

Lemma view_new_Store now :
  Accounts.view (Accounts.new_Store now) = users new_MemStorage.
Proof. reflexivity. Qed.

Lemma view_createUser insertUser now st st0 :
  Accounts.view st = users st0 →
  Accounts.currentUserId st = currentUserId st0 →
  Accounts.view (Accounts.createUser insertUser now st).2 =
    users (createUser (iur_user insertUser) st0).2 ∧
  row_user (Accounts.createUser insertUser now st).1 =
    (createUser (iur_user insertUser) st0).1.
Proof.
  intros Hview Hcounter. unfold Accounts.createUser, createUser.
  cbn [fst snd users row_user]. rewrite view_set. cbn [row_user].
  by rewrite Hview, Hcounter.
Qed.

(** ** Medical files *)

Section FilesFacts.
Import Files.
Implicit Types (st : Store) (s : Session).

Lemma ok_createMedicalFile file now st :
  ok st → ok (createMedicalFile file now st).2.
Proof.
  unfold ok, createMedicalFile. cbn [snd medicalFiles Files.currentFileId].
  intros Hall. apply Forall_set; [cbn; lia|].
  eapply Forall_impl; [exact Hall|]. intros e He. cbn in *. lia.
Qed.

Lemma ok_updateFileStatus id status st :
  ok st → ok (updateFileStatus id status st).2.
Proof.
  unfold ok, updateFileStatus. intros Hall.
  destruct (JsMap.get id (medicalFiles st)) as [file|] eqn:Hget; [|done].
  cbn [snd medicalFiles Files.currentFileId].
  apply Forall_set; [|done]. apply get_Some_elem_of in Hget.
  by apply (proj1 (Forall_forall _ _) Hall) in Hget.
Qed.

Lemma createMedicalFile_stored file now st :
  getMedicalFile (currentFileId st) (createMedicalFile file now st).2 =
  Some (createMedicalFile file now st).1.
Proof. unfold getMedicalFile, createMedicalFile. apply get_set_eq. Qed.

(** X22 (uploading a file).  A file created by [POST /api/files] belongs
    to the session user whatever [userId] the body gives, is [analyzed]
    when the body says so and [uploaded] otherwise, and is listed last by
    [GET /api/files] of that session afterwards.  The list of every other
    user is what it was. *)
Theorem POST_files_owned s body now st userId newFile st' :
  ok st →
  authenticated (sess_userId s) = Some userId →
  POST_files s body now st = (reply_json 201 newFile, st') →
  file_userId newFile = userId ∧
  file_id newFile = currentFileId st ∧
  file_status newFile =
    match obj_get "status" body with
    | JStr text => if String.eqb text "analyzed" then Analyzed else Uploaded
    | _ => Uploaded
    end ∧
  (GET_files s st').1 =
    reply_json 200 (getMedicalFilesByUserId userId st ++ [newFile]) ∧
  ∀ s2 other,
    authenticated (sess_userId s2) = Some other →
    other ≠ userId →
    (GET_files s2 st').1 = (GET_files s2 st).1.
Proof.
  intros Hok Hauth. unfold POST_files. rewrite Hauth.
  destruct (insertMedicalFileSchema_parse _) as [fileData|] eqn:Hparse;
    [|done].
  unfold insertMedicalFileSchema_parse in Hparse.
  rewrite obj_get_set_eq, !obj_get_set_ne in Hparse by done.
  destruct (obj_get "fileName" body); try done.
  destruct (obj_get "fileType" body); try done.
  destruct (obj_get "fileContent" body); try done.
  apply bind_Some in Hparse as (status & Hstatus & [= <-]).
  unfold createMedicalFile. cbn [imf_userId imf_status imf_fileName
    imf_fileType imf_fileContent]. intros [= <- <-].
  assert (currentFileId st ∉ JsMap.keys (medicalFiles st)) as Hfresh.
  { unfold JsMap.keys. intros Hin.
    apply list_elem_of_fmap in Hin as (e & Hk & Hin).
    apply (proj1 (Forall_forall _ _) Hok) in Hin. lia. }
  cbn [file_userId file_id file_status]. split_and!; [done | done | | |].
  - unfold parse_file_status in Hstatus.
    destruct (obj_get "status" body) as [| | | |text| |]; try done.
    + by injection Hstatus as <-.
    + destruct (String.eqb text "uploaded") eqn:Hu.
      * injection Hstatus as <-. apply String.eqb_eq in Hu as ->. done.
      * destruct (String.eqb text "analyzed"); [|done].
        by injection Hstatus as <-.
  - unfold GET_files. rewrite Hauth. cbn [fst].
    unfold getMedicalFilesByUserId. cbn [medicalFiles].
    rewrite values_set_fresh, filter_app by done.
    by rewrite filter_cons_True, filter_nil by done.
  - intros session2 other Hother Hne. unfold GET_files. rewrite Hother.
    cbn [fst]. unfold getMedicalFilesByUserId. cbn [medicalFiles].
    rewrite values_set_fresh, filter_app by done.
    rewrite filter_cons_False by (cbn; congruence).
    by rewrite filter_nil, app_nil_r.
Qed.
End FilesFacts.

(** ** Health metrics *)

Section SortFilter.
Context {A : Type} (cmp : A → A → Z).
Context (key : A → Z) (Hcmp : ∀ a b, cmp a b = key a - key b).
Context (P : A → Prop) `{!∀ x, Decision (P x)}.

Lemma sort_insert_head x l :
  (∀ z, z ∈ l → cmp x z ≤ 0) → sort_insert cmp x l = x :: l.
Proof.
  destruct l as [|y l]; [done|]. intros Hle. cbn [sort_insert].
  rewrite decide_True; [done|]. apply Hle, list_elem_of_here.
Qed.

Lemma filter_sort_insert x l :
  StronglySorted (by_key key) l →
  filter P (sort_insert cmp x l) =
  if decide (P x) then sort_insert cmp x (filter P l) else filter P l.
Proof.
  induction 1 as [|y l Hl IH Hy].
  - cbn [sort_insert]. rewrite filter_cons, filter_nil. by case_decide.
  - cbn [sort_insert]. destruct (decide (cmp x y ≤ 0)) as [Hxy | Hxy].
    + rewrite filter_cons. destruct (decide (P x)); [|done].
      rewrite sort_insert_head; [done|]. intros z Hz.
      apply list_elem_of_filter in Hz as [_ Hz]. rewrite Hcmp in *.
      apply elem_of_cons in Hz as [-> | Hz]; [done|].
      apply (proj1 (Forall_forall _ _) Hy) in Hz. unfold by_key in Hz. lia.
    + rewrite filter_cons, IH. rewrite (filter_cons _ y).
      destruct (decide (P x)), (decide (P y)); try done.
      cbn [sort_insert]. by rewrite decide_False.
Qed.

(** Filtering a sorted array gives what sorting the filtered array
    gives. *)
Lemma filter_array_sort l :
  filter P (array_sort cmp l) = array_sort cmp (filter P l).
Proof.
  induction l as [|x l IH]; [done|].
  cbn [array_sort foldr]. fold (array_sort cmp l).
  rewrite filter_sort_insert by (by apply array_sort_sorted).
  rewrite filter_cons, IH. by case_decide.
Qed.
End SortFilter.

Section MetricsFacts.
Import Metrics.
Implicit Types (st : Store) (s : Session).

(** X23 (order of the health metrics).  Without a type, [GET
    /api/health-metrics] answers with exactly the stored metrics of the
    session user, the most recently recorded first.  The store is not
    changed. *)
Theorem GET_health_metrics_sorted s st userId :
  authenticated (sess_userId s) = Some userId →
  ∃ l,
    GET_health_metrics s JUndefined st = (reply_json 200 l, st) ∧
    StronglySorted (λ a b, hm_recordedAt b ≤ hm_recordedAt a) l ∧
    ∀ metric,
      metric ∈ l ↔
      metric ∈ JsMap.values (healthMetrics st) ∧ hm_userId metric = userId.
Proof.
  intros Hauth. unfold GET_health_metrics. rewrite Hauth. cbn [truthy].
  eexists. split; [reflexivity|]. unfold getHealthMetricsByUserId. split.
  - eapply StronglySorted_weaken;
      [|apply (array_sort_sorted _ (λ a, - hm_recordedAt a))].
    + unfold by_key. intros a b. lia.
    + intros a b. lia.
  - intros metric. rewrite elem_of_array_sort, list_elem_of_filter. tauto.
Qed.

(** X24 (metrics of one type).  With [?type=t], [t] not empty, the route
    answers with the metrics of type [t] of the list that it gives without
    a type, in the same order; an empty [type] is no filter. *)
Theorem GET_health_metrics_by_type s st userId metricType l :
  authenticated (sess_userId s) = Some userId →
  metricType ≠ "" →
  (GET_health_metrics s JUndefined st).1 = reply_json 200 l →
  (GET_health_metrics s (JStr metricType) st).1 =
    reply_json 200 (filter (λ metric, hm_metricType metric = metricType) l) ∧
  GET_health_metrics s (JStr "") st = GET_health_metrics s JUndefined st.
Proof.
  intros Hauth Hne. unfold GET_health_metrics. rewrite Hauth.
  cbn [truthy String.eqb negb fst]. intros [= <-].
  destruct (String.eqb_spec metricType ""); [done|]. cbn [negb fst].
  split; [|done]. f_equal.
  unfold getHealthMetricsByUserId, getHealthMetricsByUserIdAndType.
  rewrite (filter_array_sort _ (λ a, - hm_recordedAt a))
    by (intros; lia).
  rewrite list_filter_filter. f_equal. apply list_filter_iff. tauto.
Qed.

(** A metric created by [POST /api/health-metrics] belongs to the session
    user whatever [userId] the body gives, and the list of that session
    holds it afterwards. *)
Lemma POST_health_metrics_listed s body now st userId newMetric st' :
  authenticated (sess_userId s) = Some userId →
  POST_health_metrics s body now st = (reply_json 201 newMetric, st') →
  hm_userId newMetric = userId ∧
  hm_recordedAt newMetric = now ∧
  ∃ l,
    (GET_health_metrics s JUndefined st').1 = reply_json 200 l ∧
    newMetric ∈ l.
Proof.
  intros Hauth. unfold POST_health_metrics. rewrite Hauth.
  destruct (insertHealthMetricSchema_parse _) as [metricData|] eqn:Hparse;
    [|done].
  unfold insertHealthMetricSchema_parse in Hparse.
  rewrite obj_get_set_eq, !obj_get_set_ne in Hparse by done.
  destruct (obj_get "metricType" body); try done.
  destruct (obj_get "value" body); try done.
  injection Hparse as <-. unfold createHealthMetric. intros [= <- <-].
  cbn [hm_userId hm_recordedAt ihm_userId]. split_and!; [done | done |].
  unfold GET_health_metrics. rewrite Hauth. cbn [truthy fst].
  eexists. split; [reflexivity|].
  unfold getHealthMetricsByUserId. cbn [healthMetrics].
  rewrite elem_of_array_sort, list_elem_of_filter. split; [done|].
  apply elem_of_values_set.
Qed.
End MetricsFacts.

(** ** Patient information *)

Section PatientsFacts.
Import Patients.
Implicit Types (st : Store) (s : Session).

Lemma getPatientInfo_set st patientId info m :
  patientInfos st = JsMap.set patientId info m →
  getPatientInfo patientId st = Some info.
Proof.
  intros Hm. unfold getPatientInfo. by rewrite Hm, get_set_eq.
Qed.

(** X26 (the two keys of a patient-information row).  [createPatientInfo]
    stores the new row under its fresh id and under the patient id, so
    [getPatientInfo] of either number returns the row.  A session whose
    user id is the fresh id is therefore answered 200 with the row by [GET
    /api/patientinfo/] followed by that id, whatever the role of the
    session and whoever the patient of the row is. *)
Theorem createPatientInfo_indexed info now st s :
  authenticated (sess_userId s) = Some (currentPatientInfoId st) →
  let r := createPatientInfo info now st in
  pi_id r.1 = currentPatientInfoId st ∧
  pi_patientId r.1 = ipi_patientId info ∧
  getPatientInfo (ipi_patientId info) r.2 = Some r.1 ∧
  getPatientInfo (pi_id r.1) r.2 = Some r.1 ∧
  (GET_patientinfo s (id_text (Some (pi_id r.1))) r.2).1 =
    reply_json 200 r.1.
Proof.
  intros Hauth. cbv zeta.
  assert (getPatientInfo (currentPatientInfoId st)
            (createPatientInfo info now st).2 =
          Some (createPatientInfo info now st).1) as Hfresh.
  { unfold createPatientInfo, getPatientInfo. cbn [fst snd patientInfos].
    rewrite get_set. case_decide; [done|]. by rewrite get_set_eq. }
  split_and!; [done | done | by eapply getPatientInfo_set | exact Hfresh |].
  unfold GET_patientinfo. rewrite Hauth. cbn [parseInt].
  change (pi_id (createPatientInfo info now st).1)
    with (currentPatientInfoId st).
  rewrite decide_False by (intros [_ ?]; done).
  by rewrite Hfresh.
Qed.

(** X27 (updating patient information).  When the patient has a row,
    [updatePatientInfo] keeps its id and creation time, sets the update
    time, replaces exactly the text columns that the update carries (a
    carried [null] or empty string included) and keeps the others; the new
    row is then found under the patient id and under the row id, and no id
    is consumed. *)
Theorem updatePatientInfo_existing patientId info now st existingInfo :
  getPatientInfo patientId st = Some existingInfo →
  let r := updatePatientInfo patientId info now st in
  pi_id r.1 = pi_id existingInfo ∧
  pi_createdAt r.1 = pi_createdAt existingInfo ∧
  pi_updatedAt r.1 = now ∧
  (∀ c,
     pi_text r.1 c =
     match ppi_text info c with
     | Some text => text
     | None => pi_text existingInfo c
     end) ∧
  getPatientInfo patientId r.2 = Some r.1 ∧
  getPatientInfo (pi_id existingInfo) r.2 = Some r.1 ∧
  currentPatientInfoId r.2 = currentPatientInfoId st.
Proof.
  intros Hexisting. cbv zeta. unfold updatePatientInfo. rewrite Hexisting.
  cbn [fst snd pi_id pi_createdAt pi_updatedAt pi_text].
  split_and!; [done | done | done | | by eapply getPatientInfo_set | |
               done].
  - intros c. by destruct (ppi_text info c).
  - unfold getPatientInfo. cbn [patientInfos].
    rewrite get_set. case_decide; [done|]. by rewrite get_set_eq.
Qed.

(** X28 (writing patient information over REST).  For a body that the
    schema accepts, [POST /api/patientinfo] answers 403 and changes nothing
    when the session is not a doctor's and names another patient.  When it
    answers 201, the session is a doctor's or the patient's own, the
    patient id is that of a stored user with the role of a patient, the row
    of the answer carries that patient id, and [GET /api/patientinfo] of
    the same session for that patient returns the row. *)
Theorem POST_patientinfo_access s body now users st userId data :
  authenticated (sess_userId s) = Some userId →
  insertPatientInfoSchema_parse body = Some data →
  let patientId := ipi_patientId data in
  let r := POST_patientinfo s body now users st in
  (sess_userRole s ≠ Some Doctor → userId ≠ patientId →
   r = (reply_message 403 "Unauthorized to create info for this patient",
        st)) ∧
  ∀ info,
    r.1 = reply_json 201 info →
    (sess_userRole s = Some Doctor ∨ userId = patientId) ∧
    (∃ patient,
       getUser patientId users = Some patient ∧
       user_role patient = Patient) ∧
    pi_patientId info = patientId ∧
    (GET_patientinfo s (id_text (Some patientId)) r.2).1 =
      reply_json 200 info.
Proof.
  intros Hauth Hparse patientId r. unfold r, POST_patientinfo.
  rewrite Hauth, Hparse. fold patientId. split.
  - intros Hrole Hother. by rewrite decide_True.
  - intros info.
    destruct (decide (sess_userRole s ≠ Some Doctor ∧ userId ≠ patientId))
      as [|Hallowed]; [done|].
    destruct (getUser patientId users) as [patient|]; [|done].
    destruct (decide (user_role patient ≠ Patient)) as [|Hrole]; [done|].
    assert (∀ st' : Store,
              getPatientInfo patientId st' = Some info →
              (GET_patientinfo s (id_text (Some patientId)) st').1 =
              reply_json 200 info) as Hget.
    { intros st' Hinfo. unfold GET_patientinfo. rewrite Hauth.
      cbn [parseInt]. rewrite (decide_False _ _ Hallowed). by rewrite Hinfo. }
    assert (sess_userRole s = Some Doctor ∨ userId = patientId) as Hwho.
    { destruct (decide (sess_userRole s = Some Doctor)); [by left|].
      destruct (decide (userId = patientId)); [by right|].
      destruct Hallowed. done. }
    assert (user_role patient = Patient) as Hpatient
      by (destruct (user_role patient); [by destruct Hrole | done]).
    destruct (getPatientInfo patientId st) as [existingInfo|] eqn:Hexisting.
    + unfold updatePatientInfo. rewrite Hexisting. cbn [fst snd].
      intros [= <-].
      split_and!; [done | by exists patient | done |].
      apply Hget. by eapply getPatientInfo_set.
    + unfold createPatientInfo. cbn [fst snd]. intros [= <-].
      split_and!; [done | by exists patient | done |].
      apply Hget. by eapply getPatientInfo_set.
Qed.
End PatientsFacts.

(** ** The client *)

(** X29 (the message cache shows a message once).  Adding an incoming
    message to a cache that holds no two messages of the same id keeps
    every cached message in place, leaves the cache with the id of the
    message and without two messages of the same id, and a second event
    with that id -- whatever else it carries -- changes nothing. *)
Theorem cache_chat_message_once old message again :
  NoDup (msg_id <$> old) →
  msg_id again = msg_id message →
  let new := cache_chat_message (Some old) message in
  NoDup (msg_id <$> new) ∧
  msg_id message ∈ msg_id <$> new ∧
  old `prefix_of` new ∧
  cache_chat_message (Some new) again = new.
Proof.
  intros Hnd Hid. cbv zeta. unfold cache_chat_message.
  case_bool_decide as Hex; cbn [negb].
  - split_and!; [done | | done |].
    + apply Exists_exists in Hex as (m & Hin & <-).
      by apply list_elem_of_fmap_2.
    + rewrite bool_decide_true; [done|]. by rewrite Hid.
  - assert (msg_id message ∉ msg_id <$> old) as Hnew.
    { intros Hin. apply list_elem_of_fmap in Hin as (m & Hm & Hin).
      apply Hex, Exists_exists. by exists m. }
    split_and!.
    + rewrite fmap_app. apply NoDup_app.
      split_and!; [done | | apply NoDup_singleton].
      intros k Hk Hk'. apply list_elem_of_singleton in Hk'. by subst k.
    + rewrite fmap_app, elem_of_app. right. apply list_elem_of_here.
    + by apply prefix_app_r.
    + rewrite bool_decide_true; [done|].
      apply Exists_exists. exists message.
      split; [|done]. rewrite elem_of_app. right. apply list_elem_of_here.
Qed.

(** X30 (back-off of the presence socket).  The delay before the [n]-th
    reconnection attempt of the presence socket is 1000 ms doubled [n]
    times while that is below 30000 ms (up to [n = 4]) and 30000 ms from
    then on; it never decreases from one attempt to the next. *)
Theorem presence_reconnect_backoff n :
  presence_reconnect_delay n =
    (if decide (n ≤ 4)%nat then 1000 * 2 ^ Z.of_nat n else 30000) ∧
  presence_reconnect_delay n ≤ presence_reconnect_delay (S n) ∧
  presence_reconnect_delay n ≤ 30000.
Proof.
  unfold presence_reconnect_delay.
  assert (∀ m : nat, (5 ≤ m)%nat → 32 ≤ 2 ^ Z.of_nat m) as Hbig.
  { intros m Hm. change 32 with (2 ^ 5).
    apply Z.pow_le_mono_r; lia. }
  assert (2 ^ Z.of_nat n ≤ 2 ^ Z.of_nat (S n)) as Hmono
    by (apply Z.pow_le_mono_r; lia).
  split_and!; [|lia..].
  case_decide as Hn.
  - assert (2 ^ Z.of_nat n ≤ 2 ^ 4) by (apply Z.pow_le_mono_r; lia).
    change (2 ^ 4) with 16 in *. lia.
  - specialize (Hbig n ltac:(lia)). lia.
Qed.

(** ** The theorems at concrete inputs *)

Lemma store_chat_ok : messages_ok store_chat.
Proof.
  apply reachable_store_ok. unfold store_chat, store_second_doctor.
  eapply rtc_l; [apply op_createUser|].
  eapply rtc_l; [apply op_createMessage|].
  apply rtc_once, op_createMessage.
Qed.

(** C3 fails as stated: a body that carries [status: "read"] passes
    validation, and the message stored and returned has status [read]. *)
Lemma C3_status_taken_from_body :
  let body :=
    [("toUserId", JNum 2); ("content", JStr "Hello");
     ("status", JStr "read")] in
  let r := POST_messages (Some 1) body 5 new_MemStorage in
  let m := mkMessage 1 1 2 (JStr "Hello") JNull Read 5 in
  insertMessageSchema_parse (obj_set "fromUserId" (JNum 1) body) =
    Some (mkInsertMessage 1 2 (JStr "Hello") JUndefined (Some Read)) ∧
  r.1 = mkResponse 201 (json_message m) ∧
  getMessage 1 r.2 = Some m ∧
  msg_status m ≠ Sent.
Proof. split_and!; [reflexivity.. | discriminate]. Qed.

Lemma C3_post_message_witness :
  let body :=
    [("fromUserId", JNum 9); ("toUserId", JNum 2);
     ("content", JStr "Hello")] in
  ∃ m st',
    POST_messages (Some 1) body 5 new_MemStorage =
      (mkResponse 201 (json_message m), st') ∧
    getMessage (msg_id m) st' = Some m ∧
    msg_fromUserId m = 1 ∧
    (obj_get "status" body = JUndefined → msg_status m = Sent) ∧
    (∀ status, parse_status (obj_get "status" body) = Some (Some status) →
               msg_status m = status).
Proof.
  intros body.
  apply (C3_post_message new_MemStorage 1 body 5
           (mkInsertMessage 1 2 (JStr "Hello") JUndefined None));
    [lia | reflexivity].
Defined.

(** Scenario B: the patient is not registered. *)
Lemma C4_write_through_delivered_witness :
  let h' :=
    on_chat_message all_open 7%nat
      (mkChatData 1 2 (JStr "Hello") JUndefined) 10 11 new_Hub in
  JsMap.get 2 (clients new_Hub) = None ∧
  getMessage 1 (storage h') =
    Some (mkMessage 1 1 2 (JStr "Hello") JNull Delivered 10).
Proof.
  split; [reflexivity|].
  destruct (C4_write_through_delivered all_open 7%nat
              (mkChatData 1 2 (JStr "Hello") JUndefined) 10 11 new_Hub
              (mkUser 1 "drsmith" Doctor) (mkUser 2 "patient1" Patient))
    as (actualToUserId & imageData & Hto & _ & _ & Hstored);
    [reflexivity | reflexivity | intros [Heq _]; discriminate Heq |].
  reflexivity.
Defined.

Lemma C5_last_registration_wins_witness :
  let h2 :=
    on_register all_open 2%nat (Some 1)
      (on_register all_open 1%nat (Some 1) new_Hub) in
  JsMap.get 1 (clients h2) = Some 2%nat ∧
  (∀ c, (1, c) ∈ clients h2 → c = 2%nat) ∧
  ∃ sent,
    outbox (broadcastOnlineStatus all_open h2) = outbox h2 ++ sent ∧
    (2%nat, online_status (onlineUsers h2)) ∈ sent ∧
    ∀ ev, (1%nat, ev) ∉ sent.
Proof.
  apply (C5_last_registration_wins all_open all_open all_open new_Hub 1
           1%nat 2%nat).
  - apply NoDup_nil_2.
  - lia.
  - lia.
  - intros v Hin. by apply elem_of_nil in Hin.
  - split; reflexivity.
  - split; reflexivity.
Defined.

Lemma C6_read_side_effect_witness :
  let st' :=
    (GET_conversation_messages (Some 2) (id_text (Some 1)) store_chat).2 in
  msg_status <$> getMessage 1 st' = Some Read ∧
  getMessage 2 st' = getMessage 2 store_chat.
Proof.
  destruct (C6_read_side_effect store_chat 2 (id_text (Some 1)) 1
              (mkConversation 1 1 2 10 30))
    as (_ & _ & _ & Hrows);
    [apply store_chat_ok | lia | reflexivity | reflexivity
    | right; reflexivity |].
  split.
  - destruct (Hrows 1 (mkMessage 1 1 2 (JStr "Hello") JNull Sent 30)
                eq_refl) as (msg' & Hget & _ & Hread & _).
    unfold getMessage. rewrite Hget. cbn. f_equal.
    apply Hread; [left; split; reflexivity | reflexivity].
  - destruct (Hrows 2 (mkMessage 2 2 1 (JStr "Hi") JNull Sent 10)
                eq_refl) as (msg' & Hget & _ & _ & Hsame).
    unfold getMessage. rewrite Hget, Hsame; [reflexivity|].
    intros [_ Hto]. cbn in Hto. lia.
Defined.

Lemma C7_authorization_rejections_witness :
  res_status (DELETE_conversation (Some 3) (id_text (Some 1)) store_chat).1
    = 403 ∧
  (∀ body,
     res_status (PATCH_message (Some 3) (id_text (Some 1)) body store_chat).1
       = 403) ∧
  res_status (DELETE_message (Some 3) (id_text (Some 1)) store_chat).1 = 403.
Proof.
  destruct (C7_authorization_rejections store_chat 3 (id_text (Some 1)) 1)
    as [Hconv Hmsg]; [lia | reflexivity |].
  destruct (Hconv (mkConversation 1 1 2 10 30)) as [Hdc _];
    [reflexivity | cbn; lia | cbn; lia |].
  destruct (Hmsg (mkMessage 1 1 2 (JStr "Hello") JNull Sent 30))
    as (Hpatch & Hdm & _); [reflexivity | cbn; lia |].
  split_and!; [exact Hdc | intros body; apply Hpatch | exact Hdm].
Defined.

Lemma C9_message_ordering_witness :
  (GET_conversation_messages (Some 1) (id_text (Some 1)) store_chat).1 =
  mkResponse 200
    (json_messages
       [mkMessage 2 2 1 (JStr "Hi") JNull Sent 10;
        mkMessage 1 1 2 (JStr "Hello") JNull Sent 30]).
Proof.
  destruct (C9_message_ordering store_chat 1 1 (mkConversation 1 1 2 10 30))
    as (l & Hres & Hl & _);
    [lia | reflexivity | left; reflexivity |].
  rewrite Hres, Hl. reflexivity.
Defined.

Lemma C10_superseded_close_witness :
  let h2 :=
    on_register all_open 2%nat (Some 1)
      (on_register all_open 1%nat (Some 1) new_Hub) in
  let h3 := on_close all_open 1%nat h2 in
  JsMap.get 1 (clients h2) = Some 2%nat ∧
  JsMap.get 1 (clients h3) = None ∧
  (1 ∉ onlineUsers h3) ∧
  JsMap.get 1 (clients (on_register all_open 2%nat (Some 1) h3)) =
    Some 2%nat.
Proof.
  destruct (C10_superseded_close all_open all_open all_open all_open new_Hub
              1 1%nat 2%nat)
    as (Hbefore & Hafter & Hoffline & _ & Hagain & _).
  - apply NoDup_nil_2.
  - lia.
  - lia.
  - intros v Hin. by apply elem_of_nil in Hin.
  - split; reflexivity.
  - split; reflexivity.
  - split; reflexivity.
  - split_and!; [exact Hbefore | exact Hafter | exact Hoffline | exact Hagain].
Defined.

(** C8 fails as stated: after an [open] and seven closes without an [open],
    the next three closes in a row all compute the ceiling, so the delay at
    the third is not greater than the delay at the first. *)
Lemma C8_no_growth_at_ceiling :
  let c := failed_attempts 7 (open_listener new_ClientState) in
  let r1 := close_listener c in
  let r2 := close_listener (timer_fired r1.2) in
  let r3 := close_listener (timer_fired r2.2) in
  reconnectAttempts c = 7%nat ∧
  (r1.1 == 15000)%Q ∧ (r3.1 == 15000)%Q ∧
  ¬ (r1.1 < r3.1)%Q.
Proof.
  split_and!; [reflexivity | reflexivity | reflexivity |].
  apply Qle_not_lt. discriminate.
Qed.

Lemma C8_reconnect_backoff_witness :
  let r1 := close_listener new_ClientState in
  let r2 := close_listener (timer_fired r1.2) in
  let r3 := close_listener (timer_fired r2.2) in
  (r1.1 == 1000)%Q ∧ (r2.1 == 1500)%Q ∧ (r3.1 == 2250)%Q ∧ (r1.1 < r3.1)%Q.
Proof.
  destruct (C8_reconnect_backoff new_ClientState new_ClientState 0
              (or_introl eq_refl)) as (Hlt & _).
  split_and!; [reflexivity.. | apply Hlt; lia].
Defined.

Lemma reachable_hub_ok_witness :
  hub_ok
    (on_chat_message all_open 2%nat (mkChatData 2 1 (JStr "Hi") JUndefined)
       10 11 (on_register all_open 1%nat (Some 1) new_Hub)).
Proof.
  apply reachable_hub_ok.
  eapply rtc_l; [apply step_register|].
  apply rtc_once, step_chat_message.
Defined.

Lemma broadcastOnlineStatus_presence_witness :
  let h :=
    on_register all_open 2%nat (Some 2)
      (on_register all_open 1%nat (Some 1) new_Hub) in
  let h' := broadcastOnlineStatus sock_1_closing h in
  ((1, 1%nat) ∉ clients h') ∧
  (1 ∉ onlineUsers h') ∧
  (2%nat, online_status [1; 2]) ∈ outbox h'.
Proof.
  intros h h'.
  destruct (broadcastOnlineStatus_presence sock_1_closing h)
    as (Hclients & Honline & Hsent & _).
  { apply on_register_ok, on_register_ok, NoDup_nil_2. }
  split_and!.
  - intros Hin. apply Hclients in Hin as [_ [Hopen _]]. discriminate Hopen.
  - intros Hin. apply Honline in Hin as [_ Hdead]. apply Hdead.
    apply list_elem_of_here.
  - apply (Hsent 2 2%nat). apply Hclients. split; [|split; reflexivity].
    apply list_elem_of_further, list_elem_of_here.
Defined.

Lemma chat_message_delivery_witness :
  let h :=
    on_register all_open 2%nat (Some 2)
      (on_register all_open 1%nat (Some 1) new_Hub) in
  let h' :=
    on_chat_message all_open 1%nat
      (mkChatData 1 2 (JStr "Hello") JUndefined) 10 11 h in
  let m := mkMessage 1 1 2 (JStr "Hello") JNull Delivered 10 in
  outbox h' =
    outbox h ++
    [(2%nat, chat_message m None); (1%nat, chat_message m (Some Delivered))] ∧
  clients h' = clients h ∧
  getMessage 1 (storage h') = Some m.
Proof.
  intros h h' m.
  apply (chat_message_delivery all_open 1%nat
           (mkChatData 1 2 (JStr "Hello") JUndefined) 10 11 h
           (mkUser 1 "drsmith" Doctor) (mkUser 2 "patient1" Patient) 2%nat);
    try reflexivity; try (split; reflexivity); cbn; lia.
Defined.

Lemma POST_messages_one_row_witness :
  let first :=
    POST_messages (Some 1) [("toUserId", JNum 2); ("content", JStr "Hello")]
      5 new_MemStorage in
  conversation_rows 1 2
    (POST_messages (Some 2) [("toUserId", JNum 1); ("content", JStr "Hi")]
       10 first.2).2 = 1%nat.
Proof.
  intros first.
  apply (POST_messages_one_row first.2 2
           [("toUserId", JNum 1); ("content", JStr "Hi")] 10
           (mkUser 1 "drsmith" Doctor) (mkUser 2 "patient1" Patient));
    [reflexivity | reflexivity | reflexivity | reflexivity | cbn; lia
    | lia | right; split; reflexivity | vm_compute; lia | reflexivity].
Defined.

Lemma DELETE_conversation_effect_witness :
  let r := DELETE_conversation (Some 1) (id_text (Some 1)) store_chat in
  res_status r.1 = 200 ∧
  getConversation 1 r.2 = None ∧
  getMessagesBetweenUsers 1 2 r.2 = [].
Proof.
  destruct (DELETE_conversation_effect store_chat 1 1
              (mkConversation 1 1 2 10 30))
    as (Hres & Hgone & Hnone & _);
    [apply store_chat_ok | lia | reflexivity | left; reflexivity |].
  cbv zeta in *. rewrite Hres. split_and!; [reflexivity | exact Hgone |].
  exact Hnone.
Defined.

Lemma PATCH_message_effect_witness :
  let r :=
    PATCH_message (Some 1) (id_text (Some 1)) [("content", JStr "Edited")]
      store_chat in
  getMessage 1 r.2 = Some (mkMessage 1 1 2 (JStr "Edited") JNull Sent 30) ∧
  getMessage 2 r.2 = getMessage 2 store_chat.
Proof.
  destruct (PATCH_message_effect store_chat 1 1 [("content", JStr "Edited")]
              (mkMessage 1 1 2 (JStr "Hello") JNull Sent 30))
    as (_ & Hget & Hothers & _); [lia | reflexivity | reflexivity |].
  split; [exact Hget | apply Hothers; lia].
Defined.

Lemma DELETE_message_effect_witness :
  let r := DELETE_message (Some 1) (id_text (Some 1)) store_chat in
  getMessage 1 r.2 = None ∧ getMessage 2 r.2 = getMessage 2 store_chat.
Proof.
  destruct (DELETE_message_effect store_chat 1 1
              (mkMessage 1 1 2 (JStr "Hello") JNull Sent 30))
    as (_ & Hgone & Hothers & _); [lia | reflexivity | reflexivity |].
  split; [exact Hgone | apply Hothers; lia].
Defined.

Lemma POST_connect_unique_witness :
  (conversation_rows 1 2
     (POST_connect session_doctor [("userId", JNum 2)] 5
        new_MemStorage).2 ≤ 1)%nat.
Proof.
  apply POST_connect_unique. intros d p. cbn. lia.
Defined.

Lemma POST_connect_created_witness :
  let body := [("userId", JNum 2)] in
  let st' := (POST_connect session_doctor body 5 new_MemStorage).2 in
  conversation_rows 1 2 st' = 1%nat ∧
  POST_connect session_doctor body 6 st' =
    (reply_message 400 "Connection already exists", st').
Proof.
  intros body st'.
  destruct (POST_connect_created session_doctor body 5 new_MemStorage
              (mkConversation 1 1 2 5 5) st' eq_refl)
    as (userId & targetUserId & targetUser & _ & _ & _ & _ & Hone & Hagain).
  split; [exact Hone | apply Hagain].
Defined.

Lemma DELETE_connect_keeps_connection_witness :
  (DELETE_connect session_doctor (id_text (Some 2)) store_chat).2 =
    store_chat ∧
  ∃ l,
    (GET_connections session_doctor store_chat).1 = reply_json 200 l ∧
    mkUser 2 "patient1" Patient ∈ l.
Proof.
  destruct (DELETE_connect_keeps_connection session_doctor
              (id_text (Some 2)) store_chat) as [Hsame Hlisted].
  split; [exact Hsame|].
  apply (Hlisted (mkUser 2 "patient1" Patient)); reflexivity.
Defined.

Lemma POST_connect_listed_witness :
  ∃ l,
    (GET_connections session_doctor
       (POST_connect session_doctor [("userId", JNum 2)] 5
          new_MemStorage).2).1 = reply_json 200 l ∧
    mkUser 2 "patient1" Patient ∈ l.
Proof.
  apply (POST_connect_listed session_doctor [("userId", JNum 2)] 5
           new_MemStorage (mkConversation 1 1 2 5 5) _
           (mkUser 2 "patient1" Patient));
    reflexivity.
Defined.

Lemma GET_conversations_sorted_witness :
  ∃ l,
    GET_conversations session_doctor store_chat =
      (reply_json 200 l, store_chat) ∧
    StronglySorted details_order l.
Proof.
  destruct (GET_conversations_sorted session_doctor store_chat 1 eq_refl)
    as (l & Hl & Hsorted & _).
  exists l. split; [exact Hl | exact Hsorted].
Defined.

Lemma conversation_details_lastMessage_witness :
  cd_lastMessage
    (mkConversationDetails (mkConversation 1 1 2 10 30)
       (mkUser 2 "patient1" Patient) 1
       (Some (mkMessage 1 1 2 (JStr "Hello") JNull Sent 30)))
    = Some (mkMessage 1 1 2 (JStr "Hello") JNull Sent 30) ∧
  ∀ msg,
    msg ∈ getMessagesByConversation 1 store_chat → msg_sentAt msg ≤ 30.
Proof.
  pose proof (conversation_details_lastMessage 1 store_chat
                (mkConversation 1 1 2 10 30)
                (mkConversationDetails (mkConversation 1 1 2 10 30)
                   (mkUser 2 "patient1" Patient) 1
                   (Some (mkMessage 1 1 2 (JStr "Hello") JNull Sent 30)))
                eq_refl) as [_ Hmax].
  split; [reflexivity | exact Hmax].
Defined.

Lemma unread_count_after_reading_witness :
  let st' :=
    (GET_conversation_messages (Some 1) (id_text (Some 1)) store_chat).2 in
  ∃ before after,
    (GET_conversations session_doctor store_chat).1 =
      reply_json 200 [before] ∧
    (GET_conversations session_doctor st').1 = reply_json 200 [after] ∧
    cd_unreadCount before = 1 ∧
    cd_unreadCount after = 0.
Proof.
  intros st'. eexists _, _.
  split; [reflexivity|]. split; [reflexivity|]. split; [reflexivity|].
  eapply (unread_count_after_reading session_doctor store_chat 1 1);
    [apply store_chat_ok | reflexivity | lia | reflexivity | reflexivity
    | apply list_elem_of_here | reflexivity].
Defined.

Lemma chat_message_registers_witness :
  let h' :=
    on_chat_message all_open 5%nat
      (mkChatData 1 2 (JStr "Hello") JUndefined) 10 11 new_Hub in
  JsMap.get 1 (clients h') = Some 5%nat ∧
  1 ∈ onlineUsers h' ∧
  userIdOf h' 5%nat = Some 1.
Proof.
  apply (chat_message_registers all_open 5%nat
           (mkChatData 1 2 (JStr "Hello") JUndefined) 10 11 new_Hub
           (mkUser 1 "drsmith" Doctor) (mkUser 2 "patient1" Patient));
    [apply NoDup_nil_2 | reflexivity | reflexivity | cbn; lia | cbn; lia
    | reflexivity | split; reflexivity].
Defined.

Lemma reachable_accounts_ok_witness :
  Accounts.ok
    (Accounts.POST_register body_register false 7 (mkSession None None)
       (Accounts.new_Store 0)).2.
Proof.
  apply (reachable_accounts_ok 0). apply rtc_once, Accounts.req_register.
Defined.

Lemma POST_login_stored_user_witness :
  Accounts.POST_login
    [("username", JStr "drsmith"); ("password", JStr "password123")] false
    (mkSession None None) (Accounts.new_Store 0) =
  (reply_json 200 (without_password row_drsmith), session_doctor,
   Accounts.new_Store 0).
Proof.
  apply (POST_login_stored_user
           [("username", JStr "drsmith"); ("password", JStr "password123")]
           (mkSession None None) (Accounts.new_Store 0) 1 row_drsmith
           "password123");
    [apply ok_new_Store | apply list_elem_of_here | reflexivity
    | reflexivity | done | done].
Defined.

Lemma register_then_login_witness :
  let st1 :=
    (Accounts.POST_register body_register false 7 (mkSession None None)
       (Accounts.new_Store 0)).2 in
  let amy :=
    mkUserRow (mkUser 3 "amy" Patient) (JStr "secret") "amy@example.com"
      "Amy Lee" None None None 7 None in
  Accounts.POST_login
    [("username", JStr "amy"); ("password", JStr "secret")] false
    (mkSession None None) st1 =
  (reply_json 200 (without_password amy), mkSession (Some 3) (Some Patient),
   st1).
Proof.
  intros st1 amy.
  apply (register_then_login body_register false 7 (mkSession None None)
           (Accounts.new_Store 0) (without_password amy)
           (mkSession (Some 3) (Some Patient)) st1 "amy" "secret");
    [reflexivity | reflexivity | reflexivity | done | done | reflexivity
    | reflexivity].
Defined.

Lemma update_password_then_login_witness :
  let body :=
    [("currentPassword", JStr "password123"); ("newPassword", JStr "s3cret")]
  in
  let r := Accounts.POST_update_password body session_doctor
             (Accounts.new_Store 0) in
  r.1.1 = reply_message 200 "Password updated successfully" ∧
  (Accounts.POST_login
     [("username", JStr "drsmith"); ("password", JStr "password123")] false
     (mkSession None None) r.2).1.1 =
    reply_message 401 "Invalid credentials".
Proof.
  intros body r.
  destruct (update_password_then_login body session_doctor
              (Accounts.new_Store 0) 1 row_drsmith "s3cret")
    as [Hanswer Hlogin];
    [apply ok_new_Store | reflexivity | lia | reflexivity | done
    | reflexivity | reflexivity | reflexivity | done |].
  split; [exact Hanswer|].
  apply (Hlogin
           [("username", JStr "drsmith"); ("password", JStr "password123")]
           (mkSession None None) "password123");
    [reflexivity | reflexivity | done].
Defined.

Lemma login_me_logout_witness :
  Accounts.GET_me session_doctor (Accounts.new_Store 0) =
  (reply_json 200 (without_password row_drsmith), session_doctor,
   Accounts.new_Store 0).
Proof.
  apply (login_me_logout
           [("username", JStr "drsmith"); ("password", JStr "password123")]
           false (mkSession None None) (Accounts.new_Store 0)
           (without_password row_drsmith) session_doctor
           (Accounts.new_Store 0));
    [apply ok_new_Store | reflexivity | cbn; lia].
Defined.

Lemma POST_files_owned_witness :
  let body :=
    [("userId", JNum 1); ("fileName", JStr "ecg.csv");
     ("fileType", JStr "text/csv"); ("fileContent", JStr "a,b")] in
  let r := Files.POST_files session_patient body 9 Files.new_Store in
  r.1 = reply_json 201
          (mkMedicalFile 1 2 "ecg.csv" "text/csv" "a,b" 9 Uploaded) ∧
  (Files.GET_files session_doctor r.2).1 = reply_json 200 [].
Proof.
  intros body r.
  destruct (POST_files_owned session_patient body 9 Files.new_Store 2
              (mkMedicalFile 1 2 "ecg.csv" "text/csv" "a,b" 9 Uploaded) r.2)
    as (_ & _ & _ & _ & Hothers);
    [constructor | reflexivity | reflexivity |].
  split; [reflexivity|].
  rewrite (Hothers session_doctor 1); [reflexivity | reflexivity | lia].
Defined.

Lemma GET_health_metrics_sorted_witness :
  ∃ l,
    Metrics.GET_health_metrics session_patient JUndefined store_metrics =
      (reply_json 200 l, store_metrics) ∧
    StronglySorted (λ a b, hm_recordedAt b ≤ hm_recordedAt a) l ∧
    mkHealthMetric 3 2 "cholesterol" "180" 30 ∈ l.
Proof.
  destruct (GET_health_metrics_sorted session_patient store_metrics 2
              eq_refl) as (l & Hl & Hsorted & Hmem).
  exists l. split_and!; [exact Hl | exact Hsorted |].
  apply Hmem. split; [|reflexivity].
  apply list_elem_of_further, list_elem_of_further, list_elem_of_here.
Defined.

Lemma GET_health_metrics_by_type_witness :
  (Metrics.GET_health_metrics session_patient (JStr "heart_rate")
     store_metrics).1 =
  reply_json 200 [mkHealthMetric 1 2 "heart_rate" "72" 10].
Proof.
  destruct (GET_health_metrics_by_type session_patient store_metrics 2
              "heart_rate"
              [mkHealthMetric 3 2 "cholesterol" "180" 30;
               mkHealthMetric 1 2 "heart_rate" "72" 10])
    as [Htyped _]; [reflexivity | done | reflexivity |].
  rewrite Htyped. reflexivity.
Defined.

Lemma updatePatientInfo_existing_witness :
  let update :=
    mkPartialInsertPatientInfo None
      (λ c, match c with allergies => Some (Some "pollen") | _ => None end) in
  let r := Patients.updatePatientInfo 2 update 8 store_patient2 in
  pi_text r.1 bloodType = Some "A+" ∧
  pi_text r.1 allergies = Some "pollen" ∧
  Patients.getPatientInfo 2 r.2 = Some r.1.
Proof.
  intros update r.
  destruct (updatePatientInfo_existing 2 update 8 store_patient2
              (Patients.createPatientInfo info_patient2 5
                 Patients.new_Store).1 eq_refl)
    as (_ & _ & _ & Htext & Hget & _).
  split_and!; [apply (Htext bloodType) | apply (Htext allergies) | exact Hget].
Defined.

Lemma POST_patientinfo_access_witness :
  let body := [("patientId", JNum 2); ("bloodType", JStr "A+")] in
  Patients.POST_patientinfo (mkSession (Some 3) (Some Patient)) body 5
    new_MemStorage Patients.new_Store =
  (reply_message 403 "Unauthorized to create info for this patient",
   Patients.new_Store).
Proof.
  intros body.
  destruct (POST_patientinfo_access (mkSession (Some 3) (Some Patient)) body
              5 new_MemStorage Patients.new_Store 3
              (mkInsertPatientInfo 2
                 (λ c, default None
                         match obj_get (column_name c) body with
                         | JUndefined => Some None
                         | JNull => Some (Some None)
                         | JStr s => Some (Some (Some s))
                         | _ => None
                         end)) eq_refl eq_refl) as [Hdenied _].
  apply Hdenied; [done | cbn; lia].
Defined.

Lemma cache_chat_message_once_witness :
  let m1 := mkMessage 1 1 2 (JStr "Hello") JNull Delivered 10 in
  let m2 := mkMessage 2 2 1 (JStr "Hi") JNull Delivered 20 in
  cache_chat_message (Some (cache_chat_message (Some [m1]) m2))
    (with_status Read m2) = [m1; m2].
Proof.
  intros m1 m2.
  destruct (cache_chat_message_once [m1] m2 (with_status Read m2))
    as (_ & _ & _ & Hagain);
    [apply NoDup_singleton | reflexivity |].
  exact Hagain.
Defined.

Lemma POST_messages_then_fetch_witness :
  let body := [("toUserId", JNum 2); ("content", JStr "Ping")] in
  let st' := (POST_messages (Some 1) body 40 store_chat).2 in
  let r := GET_conversation_messages (Some 2) (id_text (Some 1)) st' in
  getMessage 3 r.2 =
    Some (mkMessage 3 1 2 (JStr "Ping") JNull Read 40).
Proof.
  intros body st' r.
  destruct (POST_messages_then_fetch store_chat (Some 1) body 40
              (mkMessage 3 1 2 (JStr "Ping") JNull Sent 40) st' 1
              (mkConversation 1 1 2 40 30))
    as (l & _ & _ & _ & Hread);
    [apply store_chat_ok | reflexivity | reflexivity
    | left; split; reflexivity | cbn; lia |].
  exact Hread.
Defined.

Lemma createPatientInfo_indexed_witness :
  (Patients.GET_patientinfo (mkSession (Some 1) (Some Patient))
     (id_text (Some 1)) store_patient2).1 =
  reply_json 200
    (Patients.createPatientInfo info_patient2 5 Patients.new_Store).1 ∧
  pi_patientId
    (Patients.createPatientInfo info_patient2 5 Patients.new_Store).1 = 2.
Proof.
  destruct (createPatientInfo_indexed info_patient2 5 Patients.new_Store
              (mkSession (Some 1) (Some Patient)) eq_refl)
    as (_ & Hpatient & _ & _ & Hget).
  split; [exact Hget | exact Hpatient].
Defined.
